(** * Seistrack_Daily.py: calibration, cleaning and aggregation pipeline

    A shallow embedding of the data pipeline of [Seistrack_Daily.py]
    (time parsing and cleaning, two-point linear calibration, summary
    statistics, extremum markers, range highlighting and the
    harvest-versus-grid split), together with the properties the
    specification states about it.

    The script computes on Python floats and on pandas [float64] columns.
    The arithmetic is kept behind the interface [Arith], which has two
    instances: [binary64], the IEEE-754 double arithmetic the script really
    runs on (from [SpecFloat]), and [exact], the same operations carried out
    on rationals without rounding. *)

From Stdlib Require Import ZArith List Bool String Lia.
From Stdlib Require Import QArith Qcanon.
From Stdlib Require Import SpecFloat.
Import ListNotations.

Set Implicit Arguments.

(** ** Arithmetic of the script *)

(** The operations the script uses on numbers: Python's [+ - * /], [abs],
    the comparisons [==], [<], [<=], and the two float classes that pandas
    and Python treat specially (NaN and the non-finite values). *)
Class Arith (T : Type) : Type := {
  of_Z : Z -> T;                (* int -> float conversion, e.g. 1000 *)
  nan : T;                      (* result of an empty pandas reduction *)
  add : T -> T -> T;
  sub : T -> T -> T;
  mul : T -> T -> T;
  div : T -> T -> T;            (* numpy division: never raises *)
  abs : T -> T;
  eqb : T -> T -> bool;
  ltb : T -> T -> bool;
  leb : T -> T -> bool;
  isnan : T -> bool;
  isfinite : T -> bool
}.

Declare Scope arith_scope.
Delimit Scope arith_scope with ar.
Infix "+" := add : arith_scope.
Infix "-" := sub : arith_scope.
Infix "*" := mul : arith_scope.
Infix "/" := div : arith_scope.
Infix "==" := eqb (at level 70, no associativity) : arith_scope.
Infix "<?" := ltb : arith_scope.
Infix "<=?" := leb : arith_scope.

(** IEEE-754 binary64, the arithmetic of Python's [float] and of pandas'
    [float64] columns. *)
Module B64.
Definition prec : Z := 53.
Definition emax : Z := 1024.

Definition of_Z (z : Z) : spec_float := binary_normalize prec emax z 0 false.

Definition isnan (x : spec_float) : bool :=
  match x with S754_nan => true | _ => false end.

Definition isfinite (x : spec_float) : bool :=
  match x with
  | S754_zero _ => true
  | S754_finite _ _ _ => valid_binary prec emax x
  | _ => false
  end.
End B64.

#[export] Instance binary64 : Arith spec_float := {
  of_Z := B64.of_Z;
  nan := S754_nan;
  add := SFadd B64.prec B64.emax;
  sub := SFsub B64.prec B64.emax;
  mul := SFmul B64.prec B64.emax;
  div := SFdiv B64.prec B64.emax;
  abs := SFabs;
  eqb := SFeqb;
  ltb := SFltb;
  leb := SFleb;
  isnan := B64.isnan;
  isfinite := B64.isfinite
}.

(** Exact arithmetic: rationals, with [None] standing for NaN (the value of
    an empty reduction or of a division by zero). *)
Module Exact.
Definition t : Type := option Qc.

Definition lift2 (f : Qc -> Qc -> Qc) (x y : t) : t :=
  match x, y with
  | Some a, Some b => Some (f a b)
  | _, _ => None
  end.

Definition div (x y : t) : t :=
  match x, y with
  | Some a, Some b => if Qc_eq_dec b (Q2Qc 0) then None else Some (Qcdiv a b)
  | _, _ => None
  end.

Definition abs (x : t) : t :=
  match x with
  | Some a => Some (if Qclt_le_dec a (Q2Qc 0) then Qcopp a else a)
  | None => None
  end.

Definition cmp (test : comparison -> bool) (x y : t) : bool :=
  match x, y with
  | Some a, Some b => test (Qccompare a b)
  | _, _ => false
  end.

Definition is_eq (c : comparison) : bool :=
  match c with Eq => true | _ => false end.
Definition is_lt (c : comparison) : bool :=
  match c with Lt => true | _ => false end.
Definition is_le (c : comparison) : bool :=
  match c with Gt => false | _ => true end.

Definition isnan (x : t) : bool :=
  match x with None => true | Some _ => false end.
End Exact.

#[export] Instance exact : Arith Exact.t := {
  of_Z := fun z => Some (Q2Qc (inject_Z z));
  nan := None;
  add := Exact.lift2 Qcplus;
  sub := Exact.lift2 Qcminus;
  mul := Exact.lift2 Qcmult;
  div := Exact.div;
  abs := Exact.abs;
  eqb := Exact.cmp Exact.is_eq;
  ltb := Exact.cmp Exact.is_lt;
  leb := Exact.cmp Exact.is_le;
  isnan := Exact.isnan;
  isfinite := fun x => negb (Exact.isnan x)
}.

(** ** Calibration engine (lines 153-172) *)

Section Calibration.
Context {T : Type} `{Arith T}.
Local Open Scope arith_scope.

(** Python's scalar [/] on floats: [ZeroDivisionError] (here [None]) when
    the divisor compares equal to zero, either sign. *)
Definition py_div (x y : T) : option T :=
  if y == of_Z 0 then None else Some (x / y).

(** Lines 155-156: the slope [m] and intercept [b] of the calibration
    line; [None] is the [ZeroDivisionError] of line 155. *)
Definition compute_params (min_meter max_meter min_actual max_actual : T)
  : option (T * T) :=
  match py_div (max_actual - min_actual) (max_meter - min_meter) with
  | None => None
  | Some m => let b := min_actual - (m * min_meter) in Some (m, b)
  end.

(** Line 165: [adjusted_value = m * reading_input + b]. *)
Definition evaluate (params : T * T) (reading_input : T) : T :=
  let (m, b) := params in m * reading_input + b.
End Calibration.

(** ** Data model *)

(** A row of the table with the four required columns.  [time] is the type
    of the [Time] cell: the raw text before line 114, [option Z] after
    [pd.to_datetime(..., errors="coerce")] ([None] is [NaT]), and [Z]
    (a point of the time axis, in nanoseconds) once the rows without a
    timestamp have been dropped. *)
Record Row (time T : Type) : Type := mkRow {
  Time : time;
  PV : T;        (* column "PV(W)" *)
  Meter : T;     (* column "Meter(W)" *)
  Load : T       (* column "Load(W)" *)
}.

Arguments mkRow {time T} _ _ _ _.
Arguments Time {time T} _.
Arguments PV {time T} _.
Arguments Meter {time T} _.
Arguments Load {time T} _.

(** The three numeric channels, named as the columns are. *)
Inductive Channel : Type := PV_W | Meter_W | Load_W.

Definition channel_name (col : Channel) : string :=
  match col with
  | PV_W => "PV(W)"
  | Meter_W => "Meter(W)"
  | Load_W => "Load(W)"
  end.

Definition get_col {time T} (col : Channel) (r : Row time T) : T :=
  match col with
  | PV_W => PV r
  | Meter_W => Meter r
  | Load_W => Load r
  end.

(** [df[col] = f(df[col])]: assignment to one column, row by row. *)
Definition set_column {time T} (col : Channel) (f : T -> T)
  (df : list (Row time T)) : list (Row time T) :=
  map (fun r =>
         match col with
         | PV_W => mkRow (Time r) (f (PV r)) (Meter r) (Load r)
         | Meter_W => mkRow (Time r) (PV r) (f (Meter r)) (Load r)
         | Load_W => mkRow (Time r) (PV r) (Meter r) (f (Load r))
         end) df.

(** ** pandas reductions

    [Series.sum], [min], [max], [mean], [idxmax] and [idxmin] with their
    default [skipna=True].  [min], [max], [idxmax] and [idxmin] pass over
    the NaN entries and give NaN (no label) on a column without a number.
    [sum] and [mean] put 0 in the place of every NaN and add the column up
    with numpy's [add.reduce], whose order of additions is the pairwise
    summation below; the sum of an empty column is 0. *)
Section Reductions.
Context {T : Type} `{Arith T}.
Local Open Scope arith_scope.

Definition skipna (s : list T) : list T :=
  filter (fun x => negb (isnan x)) s.

(** [np.putmask(values, mask, 0)] in [nanops._get_values]. *)
Definition fillna0 (s : list T) : list T :=
  map (fun x => if isnan x then of_Z 0 else x) s.

(** numpy's [pairwise_sum], the case [n < 8]: the elements are added from
    left to right.  (The accumulator starts at [-0.0], which leaves the
    first element as it is.) *)
Definition running_sum (a : list T) : T :=
  match a with
  | [] => of_Z 0
  | x :: rest => fold_left add rest x
  end.

(** The loop over the full blocks of eight: accumulator [j] takes every
    eighth element from position [j] on.  What is left, fewer than eight
    elements, is handed back. *)
Fixpoint lanes (r : T * T * T * T * T * T * T * T) (a : list T) {struct a}
  : (T * T * T * T * T * T * T * T) * list T :=
  match a with
  | x0 :: x1 :: x2 :: x3 :: x4 :: x5 :: x6 :: x7 :: rest =>
      let '(r0, r1, r2, r3, r4, r5, r6, r7) := r in
      lanes (r0 + x0, r1 + x1, r2 + x2, r3 + x3,
             r4 + x4, r5 + x5, r6 + x6, r7 + x7) rest
  | _ => (r, a)
  end.

(** The case [8 <= n <= 128]: eight accumulators, combined as a tree,
    then the remaining elements one by one. *)
Definition block_sum (a : list T) : T :=
  match a with
  | x0 :: x1 :: x2 :: x3 :: x4 :: x5 :: x6 :: x7 :: rest =>
      let '((r0, r1, r2, r3, r4, r5, r6, r7), tail) :=
        lanes (x0, x1, x2, x3, x4, x5, x6, x7) rest in
      fold_left add tail
        (((r0 + r1) + (r2 + r3)) + ((r4 + r5) + (r6 + r7)))
  | _ => running_sum a
  end.

(** The case [n > 128]: the array is cut at [n / 2] rounded down to a
    multiple of eight and the sums of the two parts are added.  [fuel]
    bounds the depth of the recursion; the length of the array is more
    than enough ([pairwise_sum_fuel] below). *)
Fixpoint pairwise_sum (fuel : nat) (a : list T) : T :=
  let n := List.length a in
  if (n <? 8)%nat then running_sum a
  else if (n <=? 128)%nat then block_sum a
  else
    match fuel with
    | O => block_sum a
    | S fuel' =>
        let n2 := (n / 2 - (n / 2) mod 8)%nat in
        pairwise_sum fuel' (firstn n2 a) + pairwise_sum fuel' (skipn n2 a)
    end.

(** [values.sum()] on a one-dimensional [float64] array. *)
Definition np_sum (a : list T) : T :=
  match a with
  | [] => of_Z 0
  | _ => pairwise_sum (List.length a) a
  end.

Definition Series_sum (s : list T) : T := np_sum (fillna0 s).

Definition Series_min (s : list T) : T :=
  match skipna s with
  | [] => nan
  | x :: xs => fold_left (fun acc y => if y <? acc then y else acc) xs x
  end.

Definition Series_max (s : list T) : T :=
  match skipna s with
  | [] => nan
  | x :: xs => fold_left (fun acc y => if acc <? y then y else acc) xs x
  end.

(** [nanops.nanmean]: the sum over the number of entries that are not
    NaN (NaN when there is none: 0 / 0). *)
Definition Series_mean (s : list T) : T :=
  Series_sum s / of_Z (Z.of_nat (List.length (skipna s))).

(** Position of the first entry that no other entry beats, scanning
    positions [i, i+1, ...] with the best candidate so far in [best]. *)
Fixpoint arg_scan (better : T -> T -> bool) (s : list T) (i : nat)
  (best : option (nat * T)) : option (nat * T) :=
  match s with
  | [] => best
  | x :: rest =>
      let best' :=
        if isnan x then best
        else match best with
             | None => Some (i, x)
             | Some (_, v) => if better x v then Some (i, x) else best
             end in
      arg_scan better rest (S i) best'
  end.

(** [Series.idxmax()]: [None] when there is no non-NaN entry. *)
Definition idxmax (s : list T) : option nat :=
  option_map fst (arg_scan (fun x v => v <? x) s 0%nat None).

(** [Series.idxmin()]. *)
Definition idxmin (s : list T) : option nat :=
  option_map fst (arg_scan (fun x v => x <? v) s 0%nat None).
End Reductions.

(** ** Pipeline stages on the table *)

Section Stages.
Context {T : Type} `{Arith T}.
Local Open Scope arith_scope.

(** [pd.to_datetime(column, errors="coerce")] on the whole [Time]
    column: the parsed column, one entry for each cell, where a cell that
    is coerced gives [None] ([NaT]); or the message of the exception it
    raises (mixed time zones, for one).  How a cell parses can depend on
    the other cells: pandas infers one format for the column.  A time is
    a number of nanoseconds, as in [datetime64[ns]]. *)
Variable to_datetime : list string -> string + list (option Z).

(** [df_raw["Time"] = parsed]: the assignment lines the series up with the
    rows by position; a row without an entry gets [NaT]. *)
Fixpoint assign_Time (df : list (Row string T)) (parsed : list (option Z))
  : list (Row (option Z) T) :=
  match df with
  | [] => []
  | r :: rest =>
      mkRow (match parsed with t :: _ => t | [] => None end)
        (PV r) (Meter r) (Load r)
      :: assign_Time rest (tl parsed)
  end.

(** Line 114: [df_raw["Time"] = pd.to_datetime(df_raw["Time"],
    errors="coerce")]; [inl] is the exception of [pd.to_datetime]. *)
Definition parse_Time (df : list (Row string T))
  : string + list (Row (option Z) T) :=
  match to_datetime (map Time df) with
  | inl e => inl e
  | inr parsed => inr (assign_Time df parsed)
  end.

(** Line 130: [df_raw.dropna(subset=["Time"], inplace=True)]; the whole
    row goes when its [Time] is [NaT]. *)
Fixpoint dropna (df : list (Row (option Z) T)) : list (Row Z T) :=
  match df with
  | [] => []
  | r :: rest =>
      match Time r with
      | Some t => mkRow t (PV r) (Meter r) (Load r) :: dropna rest
      | None => dropna rest
      end
  end.

(** Section 4.3 of the specification, [normalize]: lines 114 and 130. *)
Definition normalize (df : list (Row string T)) : string + list (Row Z T) :=
  match parse_Time df with
  | inl e => inl e
  | inr parsed => inr (dropna parsed)
  end.

(** Lines 170-172, [apply] in the specification: the three column
    assignments, one after the other, all with the same [m] and [b]. *)
Definition apply (params : T * T) (df : list (Row Z T)) : list (Row Z T) :=
  let (m, b) := params in
  let df1 := set_column PV_W (fun x => m * x + b) df in
  let df2 := set_column Meter_W (fun x => m * x + b) df1 in
  set_column Load_W (fun x => m * x + b) df2.

(** Lines 197-199: the derived columns [PV_KW], [Load_KW] and
    [Meter_KW_abs]. *)
Definition kw_column (col : Channel) (df_plot : list (Row Z T)) : list T :=
  match col with
  | PV_W => map (fun r => PV r / of_Z 1000) df_plot
  | Load_W => map (fun r => Load r / of_Z 1000) df_plot
  | Meter_W => map (fun r => abs (Meter r) / of_Z 1000) df_plot
  end.

Record ChannelSummary : Type := mkSummary {
  total : T;
  minimum : T;
  maximum : T;
  mean : T
}.

(** Lines 201-214: sum, min, max and mean of a derived column. *)
Definition summarize (col : Channel) (df_plot : list (Row Z T))
  : ChannelSummary :=
  let kw := kw_column col df_plot in
  mkSummary (Series_sum kw) (Series_min kw) (Series_max kw) (Series_mean kw).

(** [df_plot["Time"].min()] and [.max()]; [None] is [NaT], the value on
    an empty column. *)
Definition Time_min (df_plot : list (Row Z T)) : option Z :=
  match df_plot with
  | [] => None
  | r :: rest => Some (fold_left Z.min (map Time rest) (Time r))
  end.

Definition Time_max (df_plot : list (Row Z T)) : option Z :=
  match df_plot with
  | [] => None
  | r :: rest => Some (fold_left Z.max (map Time rest) (Time r))
  end.

(** A marker of the chart: the time and the value of one sample. *)
Definition Point : Type := (Z * T)%type.

(** Lines 295-304: the row labels of the extreme samples of a column, by
    absolute value for the meter, and the [Time] and the value found at
    these labels.  [None] when a label is missing ([idxmax] of a column
    without a number), where the lookup of line 301 raises. *)
Definition extrema (col : Channel) (df_plot : list (Row Z T))
  : option (Point * Point) :=
  let s := map (get_col col) df_plot in
  let key := match col with Meter_W => map abs s | _ => s end in
  match idxmax key, idxmin key with
  | Some max_idx, Some min_idx =>
      match nth_error df_plot max_idx, nth_error df_plot min_idx with
      | Some rmax, Some rmin =>
          Some ((Time rmax, get_col col rmax), (Time rmin, get_col col rmin))
      | _, _ => None
      end
  | _, _ => None
  end.

(** Lines 347, 356, 365: [df_plot[(df_plot[col] >= lower) &
    (df_plot[col] <= upper)]]. *)
Definition filter_range (df_plot : list (Row Z T)) (col : Channel)
  (lower upper : T) : list (Row Z T) :=
  filter (fun r => (lower <=? get_col col r) && (get_col col r <=? upper)) df_plot.

Record HarvestGridSplit : Type := mkSplit {
  total_pv : T;           (* "SOLAR" *)
  total_meter_abs : T;    (* "GRID" *)
  total_load : T
}.

(** Line 393: the rows with [Time] in the closed range. *)
Definition df_total (df_plot : list (Row Z T)) (range : Z * Z)
  : list (Row Z T) :=
  filter (fun r => (fst range <=? Time r)%Z && (Time r <=? snd range)%Z)
    df_plot.

(** Lines 393-400: [None] is the branch of line 396, no data in the
    range. *)
Definition harvest_grid_split (df_plot : list (Row Z T)) (range : Z * Z)
  : option HarvestGridSplit :=
  match df_total df_plot range with
  | [] => None
  | sel =>
      let total_pv := Series_sum (map PV sel) / of_Z 1000 in
      let total_meter_abs := Series_sum (map abs (map Meter sel)) / of_Z 1000 in
      let total_load := total_pv + total_meter_abs in
      Some (mkSplit total_pv total_meter_abs total_load)
  end.
End Stages.

(** ** The script as a program with output and exceptions *)

(** The Python exceptions the modelled lines can raise. *)
Inductive Exn : Type :=
| ZeroDivisionError
| NameError (name : string)
| ValueError (msg : string)
| KeyError
| StreamlitAPIException.

(** How a run of the script ends: it reaches its last line, it calls
    [st.stop()], or an exception leaves it. *)
Inductive outcome (A : Type) : Type :=
| Returned (a : A)
| Stopped
| Raised (e : Exn).

Arguments Returned {A} a.
Arguments Stopped {A}.
Arguments Raised {A} e.

(** A computation that has written the elements [fst] to the page, in
    order, and ended as [snd] says. *)
Definition Script (E A : Type) : Type := (list E * outcome A)%type.

Definition ret {E A} (a : A) : Script E A := ([], Returned a).

Definition bind {E A B} (c : Script E A) (k : A -> Script E B) : Script E B :=
  match c with
  | (out, Returned a) => let (out', o) := k a in (out ++ out', o)
  | (out, Stopped) => (out, Stopped)
  | (out, Raised e) => (out, Raised e)
  end.

Definition emit {E} (e : E) : Script E unit := ([e], Returned tt).
Definition st_stop {E A} : Script E A := ([], Stopped).
Definition raise {E A} (e : Exn) : Script E A := ([], Raised e).

(** [try: body except ...: handler]; [handler e] is [None] for an exception
    the [except] clause does not name. *)
Definition try_except {E A} (body : Script E A)
  (handler : Exn -> option (Script E A)) : Script E A :=
  match body with
  | (out, Raised e) =>
      match handler e with
      | Some h => let (out', o) := h in (out ++ out', o)
      | None => (out, Raised e)
      end
  | _ => body
  end.

Declare Scope script_scope.
Delimit Scope script_scope with script.
Notation "x <- c ;; k" := (bind c (fun x => k))
  (at level 61, c at next level, right associativity) : script_scope.
Notation "' pat <- c ;; k" := (bind c (fun x => match x with pat => k end))
  (at level 61, pat pattern, c at next level, right associativity) : script_scope.
Notation "c ;; k" := (bind c (fun _ => k))
  (at level 61, right associativity) : script_scope.

(** The static texts of the modelled lines. *)
Module Text.
Local Open Scope string_scope.

Definition no_time_column : string :=
  "Cannot proceed without a 'Time' column. Please rename a column to 'Time'.".
Definition missing_required : string :=
  "The file is missing the following required column(s): ".
Definition calibration_title : string :=
  "Goodwe (SEMS) to Actual Meter Calibration".
Definition calibration_about : string :=
  "
This tool calculates the correction factor of SEMS data vs actual Meralco Meter Reading  based on Min and Max
".
Definition step_1 : string :=
  "Step 1: Input Min and Max from SEMS and Meter reading [02] OFF Peak PMax and [04] Peak Pmax".
Definition same_readings : string :=
  "Invalid input: Max and Min Meter Readings cannot be the same.".
Definition step_2 : string := "Step 2: Input Energy value from SEMS".
Definition harvest_about : string :=
  "Select a time range to compute the total (summed) values for PV(W) and Meter(W) relative to total Load(W). According to the data logic, **LOAD = PV + |METER|**. Therefore, we calculate:".
Definition harvest_totals : string :=
  "
- **Total PV (KW)**  
- **Total Meter (KW)** [using the absolute value]  
- **Total Load (KW) = Total PV + Total Meter  
".
Definition no_data_in_range : string :=
  "No data in the selected time range for total calculation.".
Definition NaT_strftime : string := "NaTType does not support strftime".
Definition time_parse_failed : string := "Error parsing 'Time' column: ".
End Text.

Section Main.
Context {T : Type} `{Arith T}.
Local Open Scope arith_scope.
Local Open Scope string_scope.
Local Open Scope script_scope.

Variable to_datetime : list string -> string + list (option Z).
(** [Timestamp.strftime(format)] and [datetime.strftime(format)]. *)
Variable strftime : string -> Z -> string.

(** The table after loading and renaming (line 104): its column labels
    and its rows.  The values of a required column that is absent are
    never read: line 125 stops the run. *)
Record DataFrame : Type := mkDataFrame {
  columns : list string;
  rows : list (Row string T)
}.

(** The widget values of one run.  A threshold or the time range left at
    [None] keeps the default the script computes for it. *)
Record UI : Type := mkUI {
  min_meter : T;                (* "SEMS Min (kW)" *)
  max_meter : T;                (* "SEMS Max (kW)" *)
  min_actual : T;               (* "Grid Min Reading [02] (kW)" *)
  max_actual : T;               (* "Grid Max Reading [04] (kW)" *)
  reading_input : T;            (* "SEMS Reading to check in (KW):" *)
  show : Channel -> bool;       (* show_pv, show_meter, show_load *)
  highlight : Channel -> bool;  (* highlight_pv, _meter, _load *)
  lower : Channel -> option T;  (* pv_lower, meter_lower, load_lower *)
  upper : Channel -> option T;  (* pv_upper, meter_upper, load_upper *)
  total_time_range : option (Z * Z)
}.

(** One trace of the line figure. *)
Record Trace : Type := mkTrace {
  name : string;
  xs : list Z;
  ys : list T
}.

(** What the script puts on the page. *)
Inductive Event : Type :=
| st_text (s : string)               (* title, header, subheader, markdown *)
| st_widget (label : string)         (* an input widget *)
| st_error (s : string)
| st_warning (s : string)
| st_success (m b : T)               (* line 158, the formula *)
| st_reading (adjusted_value : T)    (* line 167 *)
| st_dataframe (df : list (Row Z T)) (* line 181 *)
| st_download_csv (df_plot : list (Row Z T))  (* lines 187-192 *)
| st_summary (data_date : string)
    (load pv meter : ChannelSummary (T := T))   (* lines 219-240 *)
| st_line_chart (fig : list Trace)   (* line 372 *)
| st_donut (split : HarvestGridSplit (T := T))  (* lines 401-420 *)
| st_selected_range (selected_start selected_end : string).  (* line 427 *)

Definition required_columns : list string :=
  ["Time"; "PV(W)"; "Meter(W)"; "Load(W)"].

Definition has_column (df : DataFrame) (c : string) : bool :=
  existsb (String.eqb c) (columns df).

(** Lines 153-160.  The result is the binding of the names [m] and [b]
    after the statement: [None] when the division raised and the [except]
    branch ran, which reports the error and goes on. *)
Definition calibration_formula (ui : UI) : Script Event (option (T * T)) :=
  try_except
    (match compute_params (min_meter ui) (max_meter ui)
             (min_actual ui) (max_actual ui) with
     | None => raise ZeroDivisionError
     | Some (m, b) => emit (st_success m b) ;; ret (Some (m, b))
     end)
    (fun e =>
       match e with
       | ZeroDivisionError =>
           Some (emit (st_error Text.same_readings) ;; ret None)
       | _ => None
       end).

(** Reading the names [m] and [b] (line 165 is the first use). *)
Definition read_m_b (env : option (T * T)) : Script Event (T * T) :=
  match env with
  | Some mb => ret mb
  | None => raise (NameError "m")
  end.

(** Line 217: [df_plot["Time"].min().strftime("%b %d, %Y")]; [NaT] has
    no [strftime]. *)
Definition representative_date (df_plot : list (Row Z T))
  : Script Event string :=
  match Time_min df_plot with
  | Some t => ret (strftime "%b %d, %Y" t)
  | None => raise (ValueError Text.NaT_strftime)
  end.

Definition visible_series (ui : UI) : list Channel :=
  filter (show ui) [PV_W; Meter_W; Load_W].

(** Lines 271-279: one line per visible series. *)
Definition px_line (df_plot : list (Row Z T)) (series : list Channel)
  : list Trace :=
  map (fun col => mkTrace (channel_name col) (map Time df_plot)
                    (map (get_col col) df_plot)) series.

(** Lines 291-322, one turn of the loop. *)
Definition add_markers (ui : UI) (df_plot : list (Row Z T))
  (fig : list Trace) (col : Channel) : Script Event (list Trace) :=
  if negb (show ui col) then ret fig
  else
    match df_plot with
    | [] => ret fig
    | _ =>
        match extrema col df_plot with
        | None => raise KeyError
        | Some ((max_time, max_val), (min_time, min_val)) =>
            ret (fig ++
                 [mkTrace (channel_name col ++ " Max") [max_time] [max_val];
                  mkTrace (channel_name col ++ " Min") [min_time] [min_val]])%list
        end
    end.

(** Lines 328-340, [add_highlight_trace]: one more trace on the figure. *)
Definition add_highlight_trace (fig : list Trace) (x_data : list Z)
  (y_data : list T) (series_name : string) : list Trace :=
  (fig ++ [mkTrace (series_name ++ " Highlight") x_data y_data])%list.

(** Lines 343-367, one of the three blocks. *)
Definition highlight_range (ui : UI) (df_plot : list (Row Z T))
  (fig : list Trace) (col : Channel) : Script Event (list Trace) :=
  emit (st_widget ("Highlight " ++ channel_name col ++ " Range")) ;;
  if highlight ui col && show ui col then
    let s := map (get_col col) df_plot in
    emit (st_widget (channel_name col ++ " Lower Threshold")) ;;
    let col_lower := match lower ui col with
                     | Some v => v | None => Series_min s end in
    emit (st_widget (channel_name col ++ " Upper Threshold")) ;;
    let col_upper := match upper ui col with
                     | Some v => v | None => Series_max s end in
    match filter_range df_plot col col_lower col_upper with
    | [] => ret fig
    | df_highlight =>
        ret (add_highlight_trace fig (map Time df_highlight)
               (map (get_col col) df_highlight) (channel_name col))
    end
  else ret fig.

(** [Timestamp.to_pydatetime()]: a [datetime] counts microseconds, the
    nanoseconds below are dropped. *)
Definition to_pydatetime (t : Z) : Z := (1000 * (t / 1000))%Z.

(** Lines 377-427.  [st.slider] refuses a [min_value] that is not below
    its [max_value]; untouched, it returns its [value], the two ends. *)
Definition harvest_vs_grid (ui : UI) (df_plot : list (Row Z T))
  : Script Event unit :=
  emit (st_text "HARVEST VS GRID") ;;
  emit (st_text Text.harvest_about) ;;
  emit (st_text Text.harvest_totals) ;;
  match Time_min df_plot, Time_max df_plot with
  | Some first_time, Some last_time =>
      let time_min := to_pydatetime first_time in
      let time_max := to_pydatetime last_time in
      if (time_min <? time_max)%Z then
        emit (st_widget "Select Time Range for Total Calculation") ;;
        let range := match total_time_range ui with
                     | Some r => r | None => (time_min, time_max) end in
        match harvest_grid_split df_plot range with
        | None => emit (st_warning Text.no_data_in_range)
        | Some split =>
            emit (st_donut split) ;;
            emit (st_selected_range
                    (strftime "%b %d, %Y %H:%M:%S" (fst range))
                    (strftime "%b %d, %Y %H:%M:%S" (snd range)))
        end
      else raise StreamlitAPIException
  | _, _ =>
      (* an empty table: not reached, line 217 has raised before *)
      raise (ValueError Text.NaT_strftime)
  end.

(** Lines 170-427, entered with [m] and [b] bound. *)
Definition calibrated_pipeline (ui : UI) (params : T * T)
  (df_raw : list (Row Z T)) : Script Event unit :=
  let df_plot := apply params df_raw in
  emit (st_text "Data Preview") ;;
  emit (st_dataframe df_plot) ;;
  emit (st_download_csv df_plot) ;;
  let pv := summarize PV_W df_plot in
  let load := summarize Load_W df_plot in
  let meter := summarize Meter_W df_plot in
  data_date <- representative_date df_plot ;;
  emit (st_text "Summary Statistics (in KW)") ;;
  emit (st_summary data_date load pv meter) ;;
  emit (st_text "Toggle Series Visibility") ;;
  emit (st_widget "Show PV(W)") ;;
  emit (st_widget "Show Meter(W)") ;;
  emit (st_widget "Show Load(W)") ;;
  emit (st_text "Plant Power Data Over Time") ;;
  let fig := px_line df_plot (visible_series ui) in
  fig <- add_markers ui df_plot fig PV_W ;;
  fig <- add_markers ui df_plot fig Meter_W ;;
  fig <- add_markers ui df_plot fig Load_W ;;
  emit (st_text "Highlight Data Points by Range") ;;
  fig <- highlight_range ui df_plot fig PV_W ;;
  fig <- highlight_range ui df_plot fig Meter_W ;;
  fig <- highlight_range ui df_plot fig Load_W ;;
  emit (st_line_chart fig) ;;
  harvest_vs_grid ui df_plot.

(** Lines 133-427: the calibration block and all that follows it, on the
    cleaned table. *)
Definition calibration_and_report (ui : UI) (df_raw : list (Row Z T))
  : Script Event unit :=
  emit (st_text Text.calibration_title) ;;
  emit (st_text Text.calibration_about) ;;
  emit (st_text Text.step_1) ;;
  emit (st_widget "SEMS Min (kW)") ;;
  emit (st_widget "SEMS Max (kW)") ;;
  emit (st_widget "Grid Min Reading [02] (kW)") ;;
  emit (st_widget "Grid Max Reading [04] (kW)") ;;
  env <- calibration_formula ui ;;
  emit (st_text Text.step_2) ;;
  emit (st_widget "SEMS Reading to check in (KW):") ;;
  params <- read_m_b env ;;
  let adjusted_value := evaluate params (reading_input ui) in
  emit (st_reading adjusted_value) ;;
  calibrated_pipeline ui params df_raw.

(** Lines 106-427 of the script. *)
Definition main (df_raw : DataFrame) (ui : UI) : Script Event unit :=
  if negb (has_column df_raw "Time") then
    emit (st_error Text.no_time_column) ;;
    st_stop
  else
    match parse_Time to_datetime (rows df_raw) with
    | inl e =>
        emit (st_error (Text.time_parse_failed ++ e)) ;;
        st_stop
    | inr parsed =>
        match filter (fun c => negb (has_column df_raw c)) required_columns with
        | [] => calibration_and_report ui (dropna parsed)
        | missing_columns =>
            emit (st_error
                    (Text.missing_required
                     ++ String.concat ", " missing_columns)) ;;
            st_stop
        end
    end.
End Main.

Arguments ChannelSummary : clear implicits.
Arguments HarvestGridSplit : clear implicits.
Arguments DataFrame : clear implicits.
Arguments UI : clear implicits.
Arguments Trace : clear implicits.
Arguments Event : clear implicits.

(** ** The lines around the pipeline: upload, reading, renaming, changelog *)

Module AppText.
Local Open Scope string_scope.

Definition intro : string :=
  "
    This application allows you to upload a **CSV** or **Excel** file containing plant power data and visualize it interactively.

    **Required Columns (after renaming):**
    - **Time:** The date and time of the measurement (e.g., 2025-04-09 02:20:00)
    - **PV(W):** Photovoltaic power output in Watts.
    - **Meter(W):** Utility meter reading in Watts (negative values may indicate power import).
    - **Load(W):** Power consumption/load in Watts.

    If your file has extra rows above the real headers (e.g., title rows), specify how many rows to skip and which row contains the actual column headers.
    ".
Definition unsupported : string := "Unsupported file type!".
Definition reading_failed : string := "Error reading file: ".
Definition no_options : string := "No available columns to rename.".
End AppText.

Section App.
Context {T : Type} `{Arith T}.
Local Open Scope string_scope.
Local Open Scope script_scope.

Variable to_datetime : list string -> string + list (option Z).
Variable strftime : string -> Z -> string.

(** The uploaded content, and what [pd.read_csv] and [pd.read_excel] make
    of it for given [skiprows] and [header]: the table, or the message of
    the exception they raise. *)
Variable File : Type.
Variable read_csv read_excel : File -> Z -> option Z -> string + DataFrame T.

(** What the script puts on the page outside lines 106-427, next to the
    elements [page e] of those lines. *)
Inductive AppEvent : Type :=
| page (e : Event T)
| st_write (cols : list string)              (* lines 81 and 104 *)
| st_head (head : list (Row string T))       (* line 82 *)
| st_renamed (col_to_rename desired_col : string)   (* line 100 *)
| st_download_changelog.                     (* lines 495-500 *)

(** A run of lines 106-427 seen from the whole script. *)
Definition on_page {A} (c : Script (Event T) A) : Script AppEvent A :=
  (map page (fst c), snd c).

(** The widget values of the lines before 106, and those of the
    pipeline.  [uploaded_file] holds the lower-cased extension of the file
    name (line 61) with the content; [selected d] is the position chosen in
    the select box of the required column [d] and [clicked d] its
    button. *)
Record AppUI : Type := mkAppUI {
  uploaded_file : option (string * File);
  skip_rows : Z;
  header_row : Z;
  selected : string -> nat;
  clicked : string -> bool;
  pipeline_ui : UI T
}.

(** The [except Exception] of lines 76-78 around one reader call. *)
Definition try_read (r : string + DataFrame T) : Script AppEvent (DataFrame T) :=
  match r with
  | inr df_raw => ret df_raw
  | inl e => emit (page (st_error (AppText.reading_failed ++ e))) ;; st_stop
  end.

(** Lines 61-78: the reader is chosen by the extension and the header by
    [header_row]. *)
Definition read_file (file_extension : string) (file : File)
  (skip_rows header_row : Z) : Script AppEvent (DataFrame T) :=
  if String.eqb file_extension ".csv" then
    if (0 <=? header_row)%Z
    then try_read (read_csv file skip_rows (Some header_row))
    else try_read (read_csv file skip_rows None)
  else if existsb (String.eqb file_extension) [".xlsx"; ".xls"] then
    if (0 <=? header_row)%Z
    then try_read (read_excel file skip_rows (Some header_row))
    else try_read (read_excel file skip_rows None)
  else
    emit (page (st_error AppText.unsupported)) ;; st_stop.

(** [df_raw.rename(columns={col_to_rename: desired_col}, inplace=True)]:
    every column that carries the label gets the new one. *)
Definition rename (col_to_rename desired_col : string) (cols : list string)
  : list string :=
  map (fun c => if String.eqb c col_to_rename then desired_col else c) cols.

(** [st.selectbox]: the option at the chosen position, the first one when
    the position is not one of the list. *)
Definition selectbox (options : list string) (position : nat) : string :=
  nth position options (hd "" options).

(** Lines 91: the columns that do not carry a required name. *)
Definition available_options (cols : list string) : list string :=
  filter (fun c => negb (existsb (String.eqb c) required_columns)) cols.

(** Lines 90-102, one turn of the loop on the column labels. *)
Definition rename_step (a : AppUI) (cols : list string) (desired_col : string)
  : Script AppEvent (list string) :=
  if existsb (String.eqb desired_col) cols then ret cols
  else
    match available_options cols with
    | [] => emit (page (st_error AppText.no_options)) ;; ret cols
    | options =>
        let col_to_rename := selectbox options (selected a desired_col) in
        emit (page (st_widget
                ("Select a column to rename to '" ++ desired_col ++ "'"))) ;;
        emit (page (st_widget
                ("Rename '" ++ col_to_rename ++ "' to '" ++ desired_col ++ "'"))) ;;
        if clicked a desired_col then
          emit (st_renamed col_to_rename desired_col) ;;
          ret (rename col_to_rename desired_col cols)
        else ret cols
    end.

(** Lines 89-102: the loop over a list of required names. *)
Fixpoint rename_loop (a : AppUI) (desired : list string) (cols : list string)
  : Script AppEvent (list string) :=
  match desired with
  | [] => ret cols
  | desired_col :: rest =>
      cols' <- rename_step a cols desired_col ;;
      rename_loop a rest cols'
  end.

(** Lines 80-104. *)
Definition rename_columns (a : AppUI) (df_raw : DataFrame T)
  : Script AppEvent (DataFrame T) :=
  emit (page (st_text "### Columns in the uploaded file:")) ;;
  emit (st_write (columns df_raw)) ;;
  emit (st_head (firstn 10 (rows df_raw))) ;;
  emit (page (st_text "### Rename Columns")) ;;
  cols <- rename_loop a required_columns (columns df_raw) ;;
  emit (page (st_text "### Updated Columns:")) ;;
  emit (st_write cols) ;;
  ret (mkDataFrame cols (rows df_raw)).

(** The whole script; the logo of line 12 is left out. *)
Definition seistrack_daily (a : AppUI) : Script AppEvent unit :=
  emit (page (st_text "Seistrack Power Analysis")) ;;
  emit (page (st_text "Created By: Eric G. Bundalian")) ;;
  emit (page (st_text AppText.intro)) ;;
  emit (page (st_widget "Upload your file")) ;;
  match uploaded_file a with
  | None => st_stop
  | Some (file_extension, file) =>
      emit (page (st_text "### File Reading Options")) ;;
      emit (page (st_widget
              "Number of rows to skip at the top (before header)")) ;;
      emit (page (st_widget
              "Row index for the column headers (0-based). Set to -1 if there is no header row.")) ;;
      df_raw <- read_file file_extension file (skip_rows a) (header_row a) ;;
      df_raw <- rename_columns a df_raw ;;
      on_page (main to_datetime strftime df_raw (pipeline_ui a)) ;;
      emit st_download_changelog
  end.
End App.

Arguments AppEvent : clear implicits.
Arguments AppUI : clear implicits.

(** ** Laws of the arithmetic

    What the proofs below use about numbers: the comparisons order the
    values that are not NaN, and a difference of two finite numbers is zero
    exactly when they compare equal (for binary64 this is gradual
    underflow). *)
Class ArithLaws (T : Type) `{Arith T} : Prop := {
  leb_refl : forall x, isnan x = false -> leb x x = true;
  leb_trans : forall x y z, leb x y = true -> leb y z = true -> leb x z = true;
  ltb_leb : forall x y, ltb x y = true -> leb x y = true;
  ltb_not_leb : forall x y, ltb x y = true -> leb y x = false;
  not_ltb_leb : forall x y,
    isnan x = false -> isnan y = false -> ltb x y = false -> leb y x = true;
  isnan_abs : forall x, isnan (abs x) = isnan x;
  eqb_sub_zero : forall x y,
    isfinite x = true -> isfinite y = true ->
    eqb (sub x y) (of_Z 0) = eqb x y
}.

Arguments ArithLaws T {_}.

(** *** The order of binary64 *)

Module B64Order.
Local Open Scope Z_scope.

(** A non-NaN float as a point of [Z * Z * Z] under the lexicographic
    order: class, then exponent, then mantissa, the last two negated for
    negative numbers. *)
Definition key (x : spec_float) : Z * Z * Z :=
  match x with
  | S754_nan => (0, 0, 0)
  | S754_zero _ => (0, 0, 0)
  | S754_infinity s => (if s then -2 else 2, 0, 0)
  | S754_finite s m e =>
      if s then (-1, - e, Zneg m) else (1, e, Zpos m)
  end.

Definition lex (a b : Z * Z * Z) : comparison :=
  let '(a1, a2, a3) := a in
  let '(b1, b2, b3) := b in
  match a1 ?= b1 with
  | Eq => match a2 ?= b2 with
          | Eq => a3 ?= b3
          | c => c
          end
  | c => c
  end.

Lemma SFcompare_key (x y : spec_float) :
  B64.isnan x = false -> B64.isnan y = false ->
  SFcompare x y = Some (lex (key x) (key y)).
Proof.
  destruct x as [sx | sx | | sx mx ex], y as [sy | sy | | sy my ey];
    simpl; try discriminate; intros _ _;
    repeat match goal with s : bool |- _ => destruct s end;
    simpl; try reflexivity.
  - rewrite Z.compare_opp.
    destruct (Z.compare_spec ey ex) as [-> | Hlt | Hgt].
    + rewrite Z.compare_refl. reflexivity.
    + rewrite (proj2 (Z.compare_gt_iff ex ey)) by lia. reflexivity.
    + rewrite (proj2 (Z.compare_lt_iff ex ey)) by lia. reflexivity.
Qed.

Lemma SFcompare_nan_l (x y : spec_float) :
  B64.isnan x = true -> SFcompare x y = None.
Proof. destruct x; try discriminate; reflexivity. Qed.

Lemma SFcompare_nan_r (x y : spec_float) :
  B64.isnan y = true -> SFcompare x y = None.
Proof. destruct y; try discriminate; destruct x; reflexivity. Qed.

Lemma lex_refl (a : Z * Z * Z) : lex a a = Eq.
Proof.
  destruct a as [[a1 a2] a3]; simpl. now rewrite !Z.compare_refl.
Qed.

Lemma lex_antisym (a b : Z * Z * Z) : lex b a = CompOpp (lex a b).
Proof.
  destruct a as [[a1 a2] a3], b as [[b1 b2] b3]; simpl.
  rewrite (Z.compare_antisym a1 b1), (Z.compare_antisym a2 b2),
    (Z.compare_antisym a3 b3).
  destruct (a1 ?= b1), (a2 ?= b2), (a3 ?= b3); reflexivity.
Qed.

(** [lex a b] is not [Gt]: the order as a proposition that [lia] reads. *)
Definition lex_le (a b : Z * Z * Z) : Prop :=
  let '(a1, a2, a3) := a in
  let '(b1, b2, b3) := b in
  a1 < b1 \/ (a1 = b1 /\ (a2 < b2 \/ (a2 = b2 /\ a3 <= b3))).

Lemma lex_le_iff (a b : Z * Z * Z) : lex a b <> Gt <-> lex_le a b.
Proof.
  destruct a as [[a1 a2] a3], b as [[b1 b2] b3]; simpl.
  destruct (Z.compare_spec a1 b1), (Z.compare_spec a2 b2),
    (Z.compare_spec a3 b3); split; intros; try congruence; try lia.
Qed.

Lemma lex_le_trans (a b c : Z * Z * Z) :
  lex_le a b -> lex_le b c -> lex_le a c.
Proof.
  destruct a as [[a1 a2] a3], b as [[b1 b2] b3], c as [[c1 c2] c3];
    simpl; lia.
Qed.

Lemma SFleb_iff (x y : spec_float) :
  SFleb x y = true <->
  B64.isnan x = false /\ B64.isnan y = false /\ lex_le (key x) (key y).
Proof.
  unfold SFleb. rewrite <- lex_le_iff.
  destruct (B64.isnan x) eqn:Hx.
  { rewrite SFcompare_nan_l by assumption. intuition discriminate. }
  destruct (B64.isnan y) eqn:Hy.
  { rewrite SFcompare_nan_r by assumption. intuition discriminate. }
  rewrite SFcompare_key by assumption.
  destruct (lex (key x) (key y)); intuition congruence.
Qed.

Lemma SFltb_iff (x y : spec_float) :
  SFltb x y = true <->
  B64.isnan x = false /\ B64.isnan y = false /\ lex (key x) (key y) = Lt.
Proof.
  unfold SFltb.
  destruct (B64.isnan x) eqn:Hx.
  { rewrite SFcompare_nan_l by assumption. intuition discriminate. }
  destruct (B64.isnan y) eqn:Hy.
  { rewrite SFcompare_nan_r by assumption. intuition discriminate. }
  rewrite SFcompare_key by assumption.
  destruct (lex (key x) (key y)); intuition congruence.
Qed.

Lemma SFleb_refl (x : spec_float) : B64.isnan x = false -> SFleb x x = true.
Proof.
  intros Hx. apply SFleb_iff. repeat split; try assumption.
  apply lex_le_iff. rewrite lex_refl. discriminate.
Qed.

Lemma SFleb_trans (x y z : spec_float) :
  SFleb x y = true -> SFleb y z = true -> SFleb x z = true.
Proof.
  rewrite !SFleb_iff. intros (Hx & Hy & Hxy) (_ & Hz & Hyz).
  repeat split; try assumption. eapply lex_le_trans; eassumption.
Qed.

Lemma SFltb_leb (x y : spec_float) :
  SFltb x y = true -> SFleb x y = true.
Proof.
  rewrite SFltb_iff, SFleb_iff. intros (Hx & Hy & Hlt).
  repeat split; try assumption. apply lex_le_iff. rewrite Hlt. discriminate.
Qed.

Lemma SFltb_not_leb (x y : spec_float) :
  SFltb x y = true -> SFleb y x = false.
Proof.
  rewrite SFltb_iff. intros (Hx & Hy & Hlt).
  destruct (SFleb y x) eqn:Hle; [ | reflexivity ].
  apply SFleb_iff in Hle. destruct Hle as (_ & _ & Hle).
  apply lex_le_iff in Hle. rewrite lex_antisym, Hlt in Hle.
  now elim Hle.
Qed.

Lemma SFnot_ltb_leb (x y : spec_float) :
  B64.isnan x = false -> B64.isnan y = false ->
  SFltb x y = false -> SFleb y x = true.
Proof.
  intros Hx Hy Hlt. apply SFleb_iff. repeat split; try assumption.
  apply lex_le_iff. rewrite lex_antisym. intros Hgt.
  assert (SFltb x y = true) as Habs; [ | congruence ].
  apply SFltb_iff. repeat split; try assumption.
  destruct (lex (key x) (key y)); simpl in Hgt; congruence.
Qed.
End B64Order.

(** *** Rounding in binary64: a difference is zero only for equal numbers *)

Unset Implicit Arguments.

Module B64Round.
Local Open Scope Z_scope.
Import B64.

(** A mantissa of [d] binary digits lies between [2^(d-1)] and [2^d]. *)
Lemma digits2_pos_bounds (m : positive) :
  2 ^ (Zpos (digits2_pos m) - 1) <= Zpos m < 2 ^ Zpos (digits2_pos m).
Proof.
  induction m as [m IH | m IH | ]; simpl digits2_pos.
  - rewrite Pos2Z.inj_succ, Z.pow_succ_r by lia.
    replace (Z.succ (Zpos (digits2_pos m)) - 1) with (Z.succ (Zpos (digits2_pos m) - 1)) by lia.
    rewrite Z.pow_succ_r by lia. lia.
  - rewrite Pos2Z.inj_succ, Z.pow_succ_r by lia.
    replace (Z.succ (Zpos (digits2_pos m)) - 1) with (Z.succ (Zpos (digits2_pos m) - 1)) by lia.
    rewrite Z.pow_succ_r by lia. lia.
  - simpl. lia.
Qed.

(** One right shift halves a non-negative mantissa. *)
Lemma shr_1_m (mrs : shr_record) :
  0 <= shr_m mrs -> shr_m (shr_1 mrs) = shr_m mrs / 2.
Proof.
  destruct mrs as [m r s]; simpl. intros Hm.
  destruct m as [ | [p | p | ] | p ]; cbn [shr_m] in *; try lia.
  - reflexivity.
  - apply Z.div_unique with (r := 1); lia.
  - apply Z.div_unique with (r := 0); lia.
  - reflexivity.
Qed.

(** [p] right shifts divide it by [2^p]. *)
Lemma iter_pos_shr_m (p : positive) (mrs : shr_record) :
  0 <= shr_m mrs ->
  shr_m (iter_pos shr_1 p mrs) = shr_m mrs / 2 ^ Zpos p.
Proof.
  revert mrs. induction p as [p IH | p IH | ]; intros mrs Hm; simpl iter_pos.
  - assert (0 <= shr_m (shr_1 mrs)) as H1
        by (rewrite shr_1_m by assumption; apply Z.div_pos; lia).
    assert (0 <= shr_m (iter_pos shr_1 p (shr_1 mrs))) as H2
        by (rewrite IH by assumption; apply Z.div_pos; lia).
    rewrite IH, IH, shr_1_m by assumption.
    rewrite !Z.div_div by lia.
    f_equal. replace (Zpos p~1) with (1 + Zpos p + Zpos p) by lia.
    rewrite !Z.pow_add_r by lia. change (2 ^ 1) with 2. ring.
  - assert (0 <= shr_m (iter_pos shr_1 p mrs)) as H2
        by (rewrite IH by assumption; apply Z.div_pos; lia).
    rewrite IH, IH by assumption.
    rewrite !Z.div_div by lia.
    f_equal. replace (Zpos p~0) with (Zpos p + Zpos p) by lia.
    rewrite !Z.pow_add_r by lia. ring.
  - rewrite shr_1_m by assumption. reflexivity.
Qed.

Lemma emin_le_fexp (k : Z) : emin prec emax <= fexp prec emax k.
Proof. unfold fexp. lia. Qed.

(** Shifting a positive mantissa to its canonical exponent leaves it
    positive, as long as the exponent is not below [emin]. *)
Lemma shr_fexp_pos (m e : Z) (l : location) :
  0 < m -> emin prec emax <= e ->
  0 < shr_m (fst (shr_fexp prec emax m e l)) /\
  emin prec emax <= snd (shr_fexp prec emax m e l).
Proof.
  intros Hm He. unfold shr_fexp, shr.
  assert (shr_m (shr_record_of_loc m l) = m) as Hrec
      by (destruct l as [ | [ | | ] ]; reflexivity).
  destruct m as [ | p | p ]; try lia. cbn [Zdigits2].
  destruct (fexp prec emax (Z.pos (digits2_pos p) + e) - e) as [ | n | n ] eqn:Hn;
    cbn [fst snd]; rewrite ?Hrec; try (split; lia).
  rewrite iter_pos_shr_m by (rewrite Hrec; lia). rewrite Hrec.
  pose proof (digits2_pos_bounds p) as [Hlo _].
  unfold fexp, emin, prec, emax in *.
  split; [ | lia ].
  apply Z.div_str_pos. split; [ apply Z.pow_pos_nonneg; lia | ].
  eapply Z.le_trans; [ | exact Hlo ].
  apply Z.pow_le_mono_r; lia.
Qed.

Lemma round_nearest_even_pos (m : Z) (l : location) :
  0 < m -> 0 < round_nearest_even m l.
Proof.
  intros Hm. destruct l as [ | [ | | ] ]; simpl; try lia.
  destruct (Z.even m); lia.
Qed.

Definition nonzero (x : spec_float) : bool :=
  match x with
  | S754_finite _ _ _ | S754_infinity _ => true
  | _ => false
  end.

(** Rounding a positive mantissa at an exponent of at least [emin] never
    gives zero (nor NaN). *)
Lemma binary_round_aux_nonzero (s : bool) (m e : Z) (l : location) :
  0 < m -> emin prec emax <= e ->
  nonzero (binary_round_aux prec emax s m e l) = true.
Proof.
  intros Hm He. unfold binary_round_aux.
  destruct (shr_fexp_pos m e l Hm He) as [H1 H1e].
  destruct (shr_fexp prec emax m e l) as [mrs' e']. cbn [fst snd] in *.
  pose proof (round_nearest_even_pos _ (loc_of_shr_record mrs') H1) as H2.
  destruct (shr_fexp_pos _ _ loc_Exact H2 H1e) as [H3 _].
  destruct (shr_fexp prec emax _ e' loc_Exact) as [mrs'' e'']. cbn [fst snd] in *.
  destruct (shr_m mrs''); try lia.
  destruct (e'' <=? emax - prec); reflexivity.
Qed.

Lemma shl_align_exp (m : positive) (e e' : Z) :
  emin prec emax <= e -> emin prec emax <= e' ->
  emin prec emax <= snd (shl_align m e e').
Proof.
  intros He He'. unfold shl_align. destruct (e' - e); assumption.
Qed.

Lemma binary_round_nonzero (s : bool) (m : positive) (e : Z) :
  emin prec emax <= e -> nonzero (binary_round prec emax s m e) = true.
Proof.
  intros He. unfold binary_round.
  pose proof (shl_align_exp m e (fexp prec emax (Z.pos (digits2_pos m) + e))
                He (emin_le_fexp _)) as Hal.
  destruct (shl_align m e _) as [mz ez]. cbn [snd] in Hal.
  apply binary_round_aux_nonzero; [ lia | assumption ].
Qed.

Lemma binary_normalize_nonzero (n e : Z) (szero : bool) :
  n <> 0 -> emin prec emax <= e ->
  nonzero (binary_normalize prec emax n e szero) = true.
Proof.
  intros Hn He. destruct n as [ | p | p ]; [ congruence | | ]; simpl;
    apply binary_round_nonzero; assumption.
Qed.

Lemma iter_xO (m d : positive) : Zpos (Pos.iter xO m d) = Zpos m * 2 ^ Zpos d.
Proof.
  induction d as [ | d IH ] using Pos.peano_ind.
  - simpl. lia.
  - rewrite Pos.iter_succ, Pos2Z.inj_xO, IH, Pos2Z.inj_succ, Z.pow_succ_r by lia.
    ring.
Qed.

(** Aligning a mantissa to a smaller exponent multiplies it by a power of
    two. *)
Lemma shl_align_fst (m : positive) (e ez : Z) :
  ez <= e -> Zpos (fst (shl_align m e ez)) = Zpos m * 2 ^ (e - ez).
Proof.
  intros Hle. unfold shl_align.
  destruct (ez - e) as [ | d | d ] eqn:Hd; cbn [fst]; try lia.
  - replace (e - ez) with 0 by lia. simpl. lia.
  - rewrite iter_xO. f_equal. f_equal. lia.
Qed.

Lemma scaled_bounds (m : positive) (k : Z) :
  0 <= k ->
  2 ^ (Zpos (digits2_pos m) - 1 + k) <= Zpos m * 2 ^ k
    < 2 ^ (Zpos (digits2_pos m) + k).
Proof.
  intros Hk. pose proof (digits2_pos_bounds m) as [Hlo Hhi].
  assert (0 < 2 ^ k) by (apply Z.pow_pos_nonneg; lia).
  rewrite !Z.pow_add_r by lia. split.
  - apply Z.mul_le_mono_nonneg_r; lia.
  - apply Z.mul_lt_mono_pos_r; lia.
Qed.

(** Two canonical mantissas that denote the same number once aligned are
    the same float. *)
Lemma aligned_eq (m1 m2 : positive) (e1 e2 ez : Z) :
  canonical_mantissa prec emax m1 e1 = true ->
  canonical_mantissa prec emax m2 e2 = true ->
  ez <= e1 -> ez <= e2 ->
  Zpos m1 * 2 ^ (e1 - ez) = Zpos m2 * 2 ^ (e2 - ez) ->
  e1 = e2 /\ m1 = m2.
Proof.
  unfold canonical_mantissa. rewrite !Z.eqb_eq. intros C1 C2 H1 H2 Heq.
  pose proof (scaled_bounds m1 (e1 - ez) ltac:(lia)) as [L1 U1].
  pose proof (scaled_bounds m2 (e2 - ez) ltac:(lia)) as [L2 U2].
  set (d1 := Zpos (digits2_pos m1)) in *.
  set (d2 := Zpos (digits2_pos m2)) in *.
  assert (d1 + e1 = d2 + e2) as Hd.
  { destruct (Z.lt_trichotomy (d1 + e1) (d2 + e2)) as [Hlt | [ ? | Hgt ] ];
      [ exfalso | assumption | exfalso ].
    - assert (2 ^ (d1 + (e1 - ez)) <= 2 ^ (d2 - 1 + (e2 - ez)))
        by (apply Z.pow_le_mono_r; lia).
      lia.
    - assert (2 ^ (d2 + (e2 - ez)) <= 2 ^ (d1 - 1 + (e1 - ez)))
        by (apply Z.pow_le_mono_r; lia).
      lia. }
  assert (e1 = e2) as He by congruence. subst e2. split; [ reflexivity | ].
  assert (0 < 2 ^ (e1 - ez)) by (apply Z.pow_pos_nonneg; lia).
  apply Z.mul_cancel_r in Heq; [ | lia ]. congruence.
Qed.

Lemma SFeqb_finite (sx : bool) (mx : positive) (ex : Z)
  (sy : bool) (my : positive) (ey : Z) :
  SFeqb (S754_finite sx mx ex) (S754_finite sy my ey)
  = Bool.eqb sx sy && (ex =? ey) && (mx =? my)%positive.
Proof.
  unfold SFeqb, SFcompare.
  change (PosDef.Pos.compare_cont Eq mx my) with (Pos.compare mx my).
  destruct sx, sy; simpl; try reflexivity;
    destruct (Z.compare_spec ex ey) as [He | He | He];
    destruct (Pos.compare_spec mx my) as [Hm | Hm | Hm]; simpl;
    repeat match goal with
           | |- context [ (?a =? ?b) ] =>
               first [ rewrite (proj2 (Z.eqb_eq a b)) by lia
                     | rewrite (proj2 (Z.eqb_neq a b)) by lia ]
           | |- context [ (?a =? ?b)%positive ] =>
               first [ rewrite (proj2 (Pos.eqb_eq a b)) by lia
                     | rewrite (proj2 (Pos.eqb_neq a b)) by lia ]
           end; reflexivity.
Qed.

Lemma nonzero_neq_zero (x : spec_float) (s : bool) :
  nonzero x = true -> SFeqb x (S754_zero s) = false.
Proof.
  destruct x as [ | [ | ] | | [ | ] ? ? ]; simpl; try discriminate; reflexivity.
Qed.

Lemma canonical_emin (m : positive) (e : Z) :
  canonical_mantissa prec emax m e = true -> emin prec emax <= e.
Proof.
  unfold canonical_mantissa. rewrite Z.eqb_eq. intros <-. apply emin_le_fexp.
Qed.

(** Gradual underflow: the difference of two finite floats is zero only
    if they are equal. *)
Lemma SFsub_eq_zero (x y : spec_float) :
  isfinite x = true -> isfinite y = true ->
  SFeqb (SFsub prec emax x y) (of_Z 0) = SFeqb x y.
Proof.
  change (of_Z 0) with (S754_zero false).
  destruct x as [sx | sx | | sx mx ex], y as [sy | sy | | sy my ey];
    try discriminate; intros Hx Hy.
  - destruct sx, sy; reflexivity.
  - destruct sx, sy; reflexivity.
  - destruct sx, sy; reflexivity.
  - cbn [isfinite valid_binary] in Hx, Hy. unfold bounded in Hx, Hy.
    apply andb_prop in Hx, Hy. destruct Hx as [Cx _], Hy as [Cy _].
    pose proof (canonical_emin _ _ Cx) as Ex.
    pose proof (canonical_emin _ _ Cy) as Ey.
    rewrite SFeqb_finite. cbn [SFsub].
    set (ez := Z.min ex ey).
    rewrite (shl_align_fst mx ex ez), (shl_align_fst my ey ez) by lia.
    destruct (Bool.eqb sx sy && (ex =? ey) && (mx =? my)%positive) eqn:Heq.
    + apply andb_prop in Heq. destruct Heq as [Heq Hm].
      apply andb_prop in Heq. destruct Heq as [Hs He].
      apply Bool.eqb_prop in Hs. apply Z.eqb_eq in He. apply Pos.eqb_eq in Hm.
      subst. rewrite Z.sub_diag. reflexivity.
    + apply nonzero_neq_zero. apply binary_normalize_nonzero; [ | lia ].
      intros Hz.
      assert (0 < 2 ^ (ex - ez)) by (apply Z.pow_pos_nonneg; lia).
      assert (0 < 2 ^ (ey - ez)) by (apply Z.pow_pos_nonneg; lia).
      assert (0 < Zpos mx * 2 ^ (ex - ez)) by lia.
      assert (0 < Zpos my * 2 ^ (ey - ez)) by lia.
      assert (sx = sy /\ Zpos mx * 2 ^ (ex - ez) = Zpos my * 2 ^ (ey - ez))
        as [Hs Hv]
        by (destruct sx, sy; unfold cond_Zopp in Hz; split;
            first [ reflexivity | lia | exfalso; lia ]).
      destruct (aligned_eq mx my ex ey ez Cx Cy ltac:(lia) ltac:(lia) Hv)
        as [He Hm].
      subst. rewrite Bool.eqb_reflx, Z.eqb_refl, Pos.eqb_refl in Heq.
      discriminate.
Qed.
End B64Round.

#[export] Instance binary64_laws : ArithLaws spec_float.
Proof.
  split; cbn.
  - exact B64Order.SFleb_refl.
  - exact B64Order.SFleb_trans.
  - exact B64Order.SFltb_leb.
  - exact B64Order.SFltb_not_leb.
  - exact B64Order.SFnot_ltb_leb.
  - intros [ | | | ]; reflexivity.
  - exact B64Round.SFsub_eq_zero.
Qed.

(** *** The same laws in exact arithmetic *)

Module ExactLaws.
Import Exact.

Lemma is_le_iff (a b : Qc) : is_le (a ?= b)%Qc = true <-> (a <= b)%Qc.
Proof.
  rewrite Qcle_alt. unfold is_le. destruct (a ?= b)%Qc; intuition congruence.
Qed.

Lemma is_lt_iff (a b : Qc) : is_lt (a ?= b)%Qc = true <-> (a < b)%Qc.
Proof.
  rewrite Qclt_alt. unfold is_lt. destruct (a ?= b)%Qc; intuition congruence.
Qed.

Lemma is_eq_iff (a b : Qc) : is_eq (a ?= b)%Qc = true <-> a = b.
Proof.
  rewrite Qceq_alt. unfold is_eq. destruct (a ?= b)%Qc; intuition congruence.
Qed.

Lemma sub_eq_zero (a b : Qc) : (a - b)%Qc = Q2Qc 0 <-> a = b.
Proof.
  split; intros Heq.
  - rewrite <- (Qcplus_0_l b). change 0%Qc with (Q2Qc 0). rewrite <- Heq. ring.
  - subst. ring.
Qed.
End ExactLaws.

#[export] Instance exact_laws : ArithLaws Exact.t.
Proof.
  split; cbn.
  - intros [a | ]; [ intros _ | discriminate ]. cbn.
    apply ExactLaws.is_le_iff. apply Qcle_refl.
  - intros [a | ] [b | ] [c | ]; cbn; try discriminate.
    rewrite !ExactLaws.is_le_iff. apply Qcle_trans.
  - intros [a | ] [b | ]; cbn; try discriminate.
    rewrite ExactLaws.is_lt_iff, ExactLaws.is_le_iff. apply Qclt_le_weak.
  - intros [a | ] [b | ]; cbn; try discriminate.
    rewrite ExactLaws.is_lt_iff. intros Hlt.
    destruct (Exact.is_le (b ?= a)%Qc) eqn:Hle; [ | reflexivity ].
    apply ExactLaws.is_le_iff in Hle. now apply Qcle_not_lt in Hle.
  - intros [a | ] [b | ]; cbn; try discriminate. intros _ _ Hlt.
    apply ExactLaws.is_le_iff. apply Qcnot_lt_le. intros Habs.
    apply ExactLaws.is_lt_iff in Habs. congruence.
  - intros [a | ]; reflexivity.
  - intros [a | ] [b | ]; cbn; try discriminate. intros _ _.
    destruct (Exact.is_eq (a ?= b)%Qc) eqn:Heq.
    + apply ExactLaws.is_eq_iff. apply ExactLaws.sub_eq_zero.
      now apply ExactLaws.is_eq_iff.
    + destruct (Exact.is_eq (a - b ?= Q2Qc (inject_Z 0))%Qc) eqn:Hd;
        [ | reflexivity ].
      apply (proj1 (ExactLaws.is_eq_iff _ _)) in Hd.
      apply (proj1 (ExactLaws.sub_eq_zero _ _)) in Hd.
      apply (proj2 (ExactLaws.is_eq_iff _ _)) in Hd. congruence.
Qed.

(** * Properties *)

(** ** Calibration is one linear map for the three channels *)

Section ApplyProperties.
Context {T : Type} `{Arith T}.
Local Open Scope arith_scope.

(** C2. [apply (m, b) df] replaces [PV], [Meter] and [Load] of every
    record by [m * value + b], with the one pair [(m, b)] for the three
    channels; [Time] and the order of the records are untouched. *)
Theorem C2_apply_shared_linear_map (m b : T) (df : list (Row Z T)) :
  apply (m, b) df
  = map (fun r => mkRow (Time r) (m * PV r + b) (m * Meter r + b)
                    (m * Load r + b)) df.
Proof.
  unfold apply, set_column. rewrite !map_map. reflexivity.
Qed.
End ApplyProperties.

(** ** The reductions pick what they should *)

(** One proof serves the maximum and the minimum: [le w v] reads "[v] is at
    least as good as [w]" and [better x v] "[x] beats [v]". *)
Section Selection.
Context {T : Type} `{Arith T}.
Variable le better : T -> T -> bool.
Hypothesis le_refl : forall x, isnan x = false -> le x x = true.
Hypothesis le_trans :
  forall x y z, le x y = true -> le y z = true -> le x z = true.
Hypothesis better_le : forall x v, better x v = true -> le v x = true.
Hypothesis better_strict : forall x v, better x v = true -> le x v = false.
Hypothesis not_better_le : forall x v,
  isnan x = false -> isnan v = false -> better x v = false -> le x v = true.

Lemma le_better (w v x : T) :
  isnan w = false -> isnan x = false ->
  le w v = true -> better x v = true -> better x w = true.
Proof.
  intros Hw Hx Hwv Hxv. destruct (better x w) eqn:Hxw; [ reflexivity | ].
  apply not_better_le in Hxw; try assumption.
  pose proof (better_strict _ _ Hxv) as Hstrict.
  rewrite (le_trans _ _ _ Hxw Hwv) in Hstrict. discriminate.
Qed.

(** [Series.min] and [Series.max] after [skipna]: the fold returns an
    entry that is at least as good as every entry. *)
Lemma fold_best (xs : list T) : forall x : T,
  isnan x = false -> Forall (fun y => isnan y = false) xs ->
  let v := fold_left (fun acc y => if better y acc then y else acc) xs x in
  In v (x :: xs) /\ forall w, In w (x :: xs) -> le w v = true.
Proof.
  induction xs as [ | y xs IH ]; intros x Hx Hxs; cbn zeta.
  - split; [ now left | ]. intros w [<- | []]. now apply le_refl.
  - inversion Hxs as [ | ? ? Hy Hxs' ]; subst. cbn [fold_left].
    destruct (better y x) eqn:Hb.
    + destruct (IH y Hy Hxs') as [Hin Hle]. split.
      * right. exact Hin.
      * intros w [<- | Hw]; [ | now apply Hle ].
        apply (le_trans _ y); [ apply better_le; assumption | ].
        apply Hle. now left.
    + destruct (IH x Hx Hxs') as [Hin Hle]. split.
      * destruct Hin as [Hin | Hin]; [ now left | right; now right ].
      * intros w [<- | [<- | Hw]].
        -- apply Hle. now left.
        -- apply (le_trans _ x); [ apply not_better_le; assumption | ].
           apply Hle. now left.
        -- apply Hle. now right.
Qed.

(** What [arg_scan] knows after the entries [pre]: nothing if they are
    all NaN, else the first position whose entry no entry of [pre]
    beats. *)
Definition scanned (pre : list T) (best : option (nat * T)) : Prop :=
  match best with
  | None => Forall (fun x => isnan x = true) pre
  | Some (j, v) =>
      nth_error pre j = Some v /\ isnan v = false /\
      forall k w, nth_error pre k = Some w -> isnan w = false ->
                  le w v = true /\ (k < j -> better v w = true)%nat
  end.

Lemma scanned_step (pre : list T) (best : option (nat * T)) (x : T) :
  scanned pre best ->
  scanned (pre ++ [x])
    (if isnan x then best
     else match best with
          | None => Some (List.length pre, x)
          | Some (_, v) => if better x v then Some (List.length pre, x) else best
          end).
Proof.
  intros Inv.
  assert (forall k w, nth_error (pre ++ [x]) k = Some w ->
                      (k < List.length pre /\ nth_error pre k = Some w)%nat
                      \/ (k = List.length pre /\ w = x)) as Hnth.
  { intros k w Hk. destruct (Nat.lt_ge_cases k (List.length pre)) as [Hlt | Hge].
    - left. rewrite nth_error_app1 in Hk by assumption. now split.
    - right. rewrite nth_error_app2 in Hk by assumption.
      destruct (k - List.length pre)%nat as [ | n ] eqn:Hd; cbn in Hk.
      + split; [ lia | congruence ].
      + destruct n; discriminate. }
  assert (nth_error (pre ++ [x]) (List.length pre) = Some x) as Hlast.
  { rewrite nth_error_app2, Nat.sub_diag by lia. reflexivity. }
  destruct (isnan x) eqn:Hx.
  - destruct best as [[j v] | ]; cbn in *.
    + destruct Inv as (Hj & Hv & Hall). split; [ | split; [ assumption | ] ].
      * rewrite nth_error_app1; [ assumption | ].
        apply nth_error_Some. congruence.
      * intros k w Hk Hw. destruct (Hnth k w Hk) as [[_ Hk'] | [_ ->]];
          [ now apply Hall | congruence ].
    + apply Forall_app. split; [ assumption | ]. now constructor.
  - destruct best as [[j v] | ]; cbn in *.
    + destruct Inv as (Hj & Hv & Hall).
      assert (j < List.length pre)%nat as Hjlt
          by (apply nth_error_Some; congruence).
      destruct (better x v) eqn:Hb; cbn.
      * split; [ assumption | split; [ assumption | ] ].
        intros k w Hk Hw. destruct (Hnth k w Hk) as [[Hlt Hk'] | [-> ->]].
        -- destruct (Hall k w Hk' Hw) as [Hle _]. split.
           ++ eapply le_trans; [ eassumption | now apply better_le ].
           ++ intros _. eapply le_better; eassumption.
        -- split; [ now apply le_refl | lia ].
      * split; [ | split; [ assumption | ] ].
        -- rewrite nth_error_app1; assumption.
        -- intros k w Hk Hw. destruct (Hnth k w Hk) as [[Hlt Hk'] | [-> ->]].
           ++ now apply Hall.
           ++ split; [ now apply not_better_le | lia ].
    + split; [ assumption | split; [ assumption | ] ].
      intros k w Hk Hw. destruct (Hnth k w Hk) as [[Hlt Hk'] | [-> ->]].
      * rewrite Forall_forall in Inv. apply nth_error_In in Hk'.
        rewrite (Inv _ Hk') in Hw. discriminate.
      * split; [ now apply le_refl | lia ].
Qed.

Lemma arg_scan_scanned (s : list T) : forall pre best,
  scanned pre best ->
  scanned (pre ++ s) (arg_scan better s (List.length pre) best).
Proof.
  induction s as [ | x s IH ]; intros pre best Inv; cbn [arg_scan].
  - now rewrite app_nil_r.
  - apply (scanned_step pre best x) in Inv.
    apply IH in Inv. rewrite <- app_assoc in Inv. cbn [app] in Inv.
    rewrite length_app, Nat.add_1_r in Inv. exact Inv.
Qed.

(** The position [arg_scan] returns on a column with a number in it. *)
Lemma arg_scan_first_best (s : list T) :
  Exists (fun x => isnan x = false) s ->
  exists j v,
    arg_scan better s 0%nat None = Some (j, v) /\
    nth_error s j = Some v /\ isnan v = false /\
    forall k w, nth_error s k = Some w -> isnan w = false ->
                le w v = true /\ (k < j -> better v w = true)%nat.
Proof.
  intros Hex.
  pose proof (arg_scan_scanned s [] None (Forall_nil _)) as Inv.
  cbn [app List.length] in Inv.
  destruct (arg_scan better s 0%nat None) as [[j v] | ]; cbn in Inv.
  - exists j, v. split; [ reflexivity | exact Inv ].
  - apply Exists_exists in Hex. destruct Hex as (x & Hin & Hx).
    rewrite Forall_forall in Inv. rewrite (Inv x Hin) in Hx. discriminate.
Qed.
End Selection.

Section OrderedReductions.
Context {T : Type} `{ArithLaws T}.
Local Open Scope arith_scope.

Lemma skipna_numbers (s : list T) :
  Forall (fun y => isnan y = false) (skipna s).
Proof.
  apply Forall_forall. intros y Hy. apply filter_In in Hy.
  destruct Hy as [_ Hy]. now apply negb_true_iff in Hy.
Qed.

(** [Series.min]: an entry of the column, below every number in it. *)
Lemma Series_min_spec (s : list T) :
  skipna s <> [] ->
  In (Series_min s) (skipna s) /\
  forall w, In w (skipna s) -> (Series_min s <=? w) = true.
Proof.
  unfold Series_min. pose proof (skipna_numbers s) as Hnum.
  destruct (skipna s) as [ | x xs ]; [ congruence | intros _ ].
  inversion Hnum as [ | ? ? Hx Hxs ]; subst.
  apply (fold_best (fun w v => v <=? w) (fun y acc => y <? acc)); try assumption.
  - intros; now apply leb_refl.
  - intros a b c Hab Hbc. exact (leb_trans _ _ _ Hbc Hab).
  - intros; now apply ltb_leb.
  - intros; now apply not_ltb_leb.
Qed.

(** [Series.max]: an entry of the column, above every number in it. *)
Lemma Series_max_spec (s : list T) :
  skipna s <> [] ->
  In (Series_max s) (skipna s) /\
  forall w, In w (skipna s) -> (w <=? Series_max s) = true.
Proof.
  unfold Series_max. pose proof (skipna_numbers s) as Hnum.
  destruct (skipna s) as [ | x xs ]; [ congruence | intros _ ].
  inversion Hnum as [ | ? ? Hx Hxs ]; subst.
  apply (fold_best (fun w v => w <=? v) (fun y acc => acc <? y)); try assumption.
  - intros; now apply leb_refl.
  - intros a b c Hab Hbc. exact (leb_trans _ _ _ Hab Hbc).
  - intros; now apply ltb_leb.
  - intros; now apply not_ltb_leb.
Qed.

(** A column without a number has no extreme position. *)
Lemma arg_scan_all_nan (better : T -> T -> bool) (s : list T) :
  Forall (fun x => isnan x = true) s ->
  forall i, arg_scan better s i None = None.
Proof.
  induction 1 as [ | x s Hx _ IH ]; intros i; cbn [arg_scan];
    [ reflexivity | ].
  rewrite Hx. apply IH.
Qed.

(** [Series.idxmax]: the first position that holds the largest number. *)
Lemma idxmax_spec (s : list T) :
  Exists (fun x => isnan x = false) s ->
  exists j v,
    idxmax s = Some j /\ nth_error s j = Some v /\ isnan v = false /\
    forall k w, nth_error s k = Some w -> isnan w = false ->
                (w <=? v) = true /\ ((k < j)%nat -> (w <? v) = true).
Proof.
  intros Hex. unfold idxmax.
  destruct (arg_scan_first_best (fun w v => w <=? v) (fun x v => v <? x))
    with (s := s) as (j & v & Hscan & Hrest); try assumption.
  - intros; now apply leb_refl.
  - intros a b c Hab Hbc. exact (leb_trans _ _ _ Hab Hbc).
  - intros; now apply ltb_leb.
  - intros; now apply ltb_not_leb.
  - intros; now apply not_ltb_leb.
  - exists j, v. rewrite Hscan. split; [ reflexivity | exact Hrest ].
Qed.

(** [Series.idxmin]: the first position that holds the smallest number. *)
Lemma idxmin_spec (s : list T) :
  Exists (fun x => isnan x = false) s ->
  exists j v,
    idxmin s = Some j /\ nth_error s j = Some v /\ isnan v = false /\
    forall k w, nth_error s k = Some w -> isnan w = false ->
                (v <=? w) = true /\ ((k < j)%nat -> (v <? w) = true).
Proof.
  intros Hex. unfold idxmin.
  destruct (arg_scan_first_best (fun w v => v <=? w) (fun x v => x <? v))
    with (s := s) as (j & v & Hscan & Hrest); try assumption.
  - intros; now apply leb_refl.
  - intros a b c Hab Hbc. exact (leb_trans _ _ _ Hbc Hab).
  - intros; now apply ltb_leb.
  - intros; now apply ltb_not_leb.
  - intros; now apply not_ltb_leb.
  - exists j, v. rewrite Hscan. split; [ reflexivity | exact Hrest ].
Qed.
End OrderedReductions.

(** ** The sum *)

(** The cases of a list by its first eight elements. *)
Ltac first_eight a :=
  let x0 := fresh "x0" in let x1 := fresh "x1" in
  let x2 := fresh "x2" in let x3 := fresh "x3" in
  let x4 := fresh "x4" in let x5 := fresh "x5" in
  let x6 := fresh "x6" in let x7 := fresh "x7" in
  let rest := fresh "rest" in
  destruct a as
    [ | x0 [ | x1 [ | x2 [ | x3 [ | x4 [ | x5 [ | x6 [ | x7 rest ]]]]]]]].

Section Summation.
Context {T : Type} `{Arith T}.
Local Open Scope arith_scope.

Lemma pairwise_sum_eq (fuel : nat) (a : list T) :
  pairwise_sum fuel a
  = if (List.length a <? 8)%nat then running_sum a
    else if (List.length a <=? 128)%nat then block_sum a
    else match fuel with
         | O => block_sum a
         | S fuel' =>
             let n2 := (List.length a / 2 - (List.length a / 2) mod 8)%nat in
             pairwise_sum fuel' (firstn n2 a) + pairwise_sum fuel' (skipn n2 a)
         end.
Proof. destruct fuel; reflexivity. Qed.

(** Where numpy cuts an array of more than 128 elements: both parts are
    shorter than the array. *)
Lemma cut_bounds (n : nat) :
  (128 < n)%nat ->
  (0 < n / 2 - (n / 2) mod 8 < n)%nat.
Proof.
  intros Hn.
  pose proof (Nat.mod_upper_bound (n / 2) 8 ltac:(discriminate)) as Hmod.
  pose proof (Nat.div_lt n 2 ltac:(lia) ltac:(lia)) as Hhalf.
  assert (64 <= n / 2)%nat as Hge
      by (apply (Nat.Div0.div_le_mono 128 n 2); lia).
  lia.
Qed.

(** The fuel never runs out: from the length of the array on, the result
    does not depend on it. *)
Lemma pairwise_sum_fuel (fuel : nat) : forall (fuel' : nat) (a : list T),
  (List.length a <= fuel)%nat -> (List.length a <= fuel')%nat ->
  pairwise_sum fuel a = pairwise_sum fuel' a.
Proof.
  induction fuel as [ | fuel IH ]; intros fuel' a Hfuel Hfuel';
    rewrite (pairwise_sum_eq _ a), (pairwise_sum_eq fuel' a).
  - destruct a; [ reflexivity | cbn in Hfuel; lia ].
  - destruct (List.length a <? 8)%nat eqn:H8; [ reflexivity | ].
    destruct (List.length a <=? 128)%nat eqn:H128; [ reflexivity | ].
    apply Nat.leb_gt in H128.
    destruct fuel' as [ | fuel' ]; [ lia | ]. cbn zeta.
    pose proof (cut_bounds _ H128) as Hcut.
    f_equal; apply IH;
      rewrite ?length_firstn, ?length_skipn; lia.
Qed.

Lemma length_pos_nonempty {A : Type} (b : list A) :
  (0 < List.length b)%nat -> b <> [].
Proof. destruct b; [ cbn; lia | discriminate ]. Qed.

(** numpy's recursion, with the fuel out of the way. *)
Lemma np_sum_eq (a : list T) :
  np_sum a
  = match a with
    | [] => of_Z 0
    | _ =>
        if (List.length a <? 8)%nat then running_sum a
        else if (List.length a <=? 128)%nat then block_sum a
        else
          let n2 := (List.length a / 2 - (List.length a / 2) mod 8)%nat in
          np_sum (firstn n2 a) + np_sum (skipn n2 a)
    end.
Proof.
  destruct a as [ | x a ]; [ reflexivity | ].
  set (l := x :: a).
  assert (np_sum l = pairwise_sum (List.length l) l) as -> by reflexivity.
  rewrite pairwise_sum_eq.
  destruct (List.length l <? 8)%nat eqn:H8; [ reflexivity | ].
  destruct (List.length l <=? 128)%nat eqn:H128; [ reflexivity | ].
  apply Nat.leb_gt in H128. pose proof (cut_bounds _ H128) as Hcut.
  assert (forall b : list T, (0 < List.length b < List.length l)%nat ->
            pairwise_sum (pred (List.length l)) b = np_sum b) as Hnp.
  { intros b Hb. destruct b as [ | y b ]; [ cbn in Hb; lia | ].
    unfold np_sum. apply pairwise_sum_fuel; lia. }
  destruct (List.length l) as [ | n ] eqn:Hlen; [ lia | ].
  cbn zeta. cbn [pred] in Hnp.
  f_equal; apply Hnp; rewrite ?length_firstn, ?length_skipn, Hlen; lia.
Qed.

(** Fewer than eight elements are added from left to right. *)
Lemma np_sum_short (a : list T) :
  (List.length a < 8)%nat -> np_sum a = running_sum a.
Proof.
  intros Hlen. rewrite np_sum_eq. destruct a as [ | x a ]; [ reflexivity | ].
  apply Nat.ltb_lt in Hlen. now rewrite Hlen.
Qed.

(** Eight elements are added as a balanced tree. *)
Lemma np_sum_eight (x0 x1 x2 x3 x4 x5 x6 x7 : T) :
  np_sum [x0; x1; x2; x3; x4; x5; x6; x7]
  = ((x0 + x1) + (x2 + x3)) + ((x4 + x5) + (x6 + x7)).
Proof. reflexivity. Qed.

(** *** What holds of the summands holds of the sum *)

Variable P : T -> Prop.
Hypothesis P_add : forall x y, P x -> P y -> P (x + y).

Definition all_lanes (r : T * T * T * T * T * T * T * T) : Prop :=
  let '(r0, r1, r2, r3, r4, r5, r6, r7) := r in
  P r0 /\ P r1 /\ P r2 /\ P r3 /\ P r4 /\ P r5 /\ P r6 /\ P r7.

Lemma fold_add_closed (l : list T) : forall acc : T,
  P acc -> Forall P l -> P (fold_left add l acc).
Proof.
  induction l as [ | x l IH ]; intros acc Hacc Hl; cbn [fold_left];
    [ exact Hacc | ].
  inversion Hl as [ | ? ? Hx Hrest ]; subst. apply IH; auto.
Qed.

Lemma running_sum_closed (a : list T) :
  a <> [] -> Forall P a -> P (running_sum a).
Proof.
  destruct a as [ | x a ]; [ congruence | intros _ Ha ].
  inversion Ha; subst. now apply fold_add_closed.
Qed.

Lemma lanes_closed (n : nat) : forall (a : list T) r,
  (List.length a <= n)%nat -> all_lanes r -> Forall P a ->
  all_lanes (fst (lanes r a)) /\ Forall P (snd (lanes r a)).
Proof.
  induction n as [ | n IH ]; intros a r Hlen Hr Ha.
  - destruct a; [ now split | cbn in Hlen; lia ].
  - first_eight a; try (now split).
    destruct r as [[[[[[[r0 r1] r2] r3] r4] r5] r6] r7].
    destruct Hr as (H0' & H1' & H2' & H3' & H4' & H5' & H6' & H7').
    repeat match goal with
           | Hl : Forall P (_ :: _) |- _ =>
               inversion Hl; subst; clear Hl
           end.
    cbn [lanes]. apply IH.
    + cbn in Hlen. lia.
    + repeat split; now apply P_add.
    + assumption.
Qed.

Lemma block_sum_closed (a : list T) :
  a <> [] -> Forall P a -> P (block_sum a).
Proof.
  intros Hne Ha. first_eight a; try (now apply running_sum_closed).
  repeat match goal with
         | Hl : Forall P (_ :: _) |- _ => inversion Hl; subst; clear Hl
         end.
  unfold block_sum.
  destruct (lanes_closed (List.length rest) rest
              (x0, x1, x2, x3, x4, x5, x6, x7) (Nat.le_refl _))
    as [Hr Htail];
    [ repeat split; assumption | assumption | ].
  destruct (lanes _ rest) as [[[[[[[[r0 r1] r2] r3] r4] r5] r6] r7] tail].
  cbn [fst snd] in Hr, Htail.
  destruct Hr as (H0' & H1' & H2' & H3' & H4' & H5' & H6' & H7').
  apply fold_add_closed; [ | assumption ]. auto 10.
Qed.

Lemma Forall_cut {A : Type} (Q : A -> Prop) (n : nat) (a : list A) :
  Forall Q a -> Forall Q (firstn n a) /\ Forall Q (skipn n a).
Proof.
  intros Ha. rewrite <- (firstn_skipn n a) in Ha.
  now apply Forall_app in Ha.
Qed.

Lemma pairwise_sum_closed (fuel : nat) : forall a : list T,
  a <> [] -> Forall P a -> P (pairwise_sum fuel a).
Proof.
  induction fuel as [ | fuel IH ]; intros a Hne Ha; rewrite pairwise_sum_eq.
  - destruct (List.length a <? 8)%nat; [ now apply running_sum_closed | ].
    destruct (List.length a <=? 128)%nat; now apply block_sum_closed.
  - destruct (List.length a <? 8)%nat; [ now apply running_sum_closed | ].
    destruct (List.length a <=? 128)%nat eqn:H128;
      [ now apply block_sum_closed | ].
    apply Nat.leb_gt in H128. pose proof (cut_bounds _ H128) as Hcut.
    cbn zeta. apply P_add; apply IH.
    + apply length_pos_nonempty. rewrite length_firstn. lia.
    + now apply (Forall_cut P).
    + apply length_pos_nonempty. rewrite length_skipn. lia.
    + now apply (Forall_cut P).
Qed.

Lemma np_sum_closed (a : list T) :
  P (of_Z 0) -> Forall P a -> P (np_sum a).
Proof.
  intros H0' Ha. destruct a as [ | x a ]; [ exact H0' | ].
  unfold np_sum. apply pairwise_sum_closed; [ discriminate | exact Ha ].
Qed.

(** The sum of a column: of zero and of the numbers of the column. *)
Lemma Series_sum_closed (s : list T) :
  P (of_Z 0) -> (forall x, In x s -> isnan x = false -> P x) ->
  P (Series_sum s).
Proof.
  intros H0' Hs. unfold Series_sum. apply np_sum_closed; [ exact H0' | ].
  unfold fillna0. apply Forall_forall. intros y Hy.
  apply in_map_iff in Hy. destruct Hy as (x & <- & Hx).
  destruct (isnan x) eqn:Hnan; [ exact H0' | now apply Hs ].
Qed.
End Summation.

(** ** Aggregator, extrema and range filter *)

Section AggregatorProperties.
Context {T : Type} `{ArithLaws T}.
Local Open Scope arith_scope.

(** The kilowatt value of a record as the specification words it: the
    absolute value for the meter, the signed value for PV and load. *)
Definition kw_value (col : Channel) (r : Row Z T) : T :=
  match col with
  | PV_W => PV r / of_Z 1000
  | Load_W => Load r / of_Z 1000
  | Meter_W => abs (Meter r) / of_Z 1000
  end.

(** The value by which the extrema of a channel are chosen. *)
Definition magnitude (col : Channel) (r : Row Z T) : T :=
  match col with
  | Meter_W => abs (Meter r)
  | _ => get_col col r
  end.

Lemma kw_column_values (col : Channel) (df : list (Row Z T)) :
  kw_column col df = map (kw_value col) df.
Proof. destruct col; reflexivity. Qed.

(** The statistics of a channel over its kilowatt values, in any
    arithmetic: the total is pandas' sum of the values, which adds fewer
    than eight of them from left to right; the mean is the total over the
    number of values that are not NaN; the minimum and the maximum are
    values of the column that bound all the others. *)
Lemma summarize_statistics (col : Channel) (df : list (Row Z T)) :
  let kw := map (kw_value col) df in
  let s := summarize col df in
  total s = Series_sum kw /\
  ((List.length df < 8)%nat -> total s = running_sum (fillna0 kw)) /\
  mean s = total s / of_Z (Z.of_nat (List.length (skipna kw))) /\
  match skipna kw with
  | [] => minimum s = nan /\ maximum s = nan
  | _ :: _ =>
      In (minimum s) (skipna kw) /\ In (maximum s) (skipna kw) /\
      forall v, In v (skipna kw) ->
                (minimum s <=? v) = true /\ (v <=? maximum s) = true
  end.
Proof.
  cbn zeta. unfold summarize. cbn [total mean minimum maximum].
  rewrite kw_column_values.
  split; [ reflexivity | split; [ | split; [ reflexivity | ] ] ].
  - intros Hlen. unfold Series_sum. apply np_sum_short.
    unfold fillna0. now rewrite !length_map.
  - destruct (skipna (map (kw_value col) df)) as [ | x xs ] eqn:Hkw.
    + unfold Series_min, Series_max. rewrite Hkw. split; reflexivity.
    + assert (skipna (map (kw_value col) df) <> []) as Hne by congruence.
      destruct (Series_min_spec _ Hne) as [Hmin_in Hmin].
      destruct (Series_max_spec _ Hne) as [Hmax_in Hmax].
      rewrite Hkw in *. repeat split; auto.
Qed.

Lemma magnitude_column (col : Channel) (df : list (Row Z T)) :
  match col with
  | Meter_W => map abs (map (get_col col) df)
  | _ => map (get_col col) df
  end = map (magnitude col) df.
Proof. destruct col; cbn; rewrite ?map_map; reflexivity. Qed.

Lemma isnan_magnitude (col : Channel) (r : Row Z T) :
  isnan (magnitude col r) = isnan (get_col col r).
Proof. destruct col; cbn; try reflexivity. apply isnan_abs. Qed.

(** The extrema on any table that holds a number in the channel; records
    whose value is NaN are passed over. *)
Lemma extrema_over_numbers (col : Channel) (df : list (Row Z T)) :
  (exists r, In r df /\ isnan (get_col col r) = false) ->
  exists max_idx min_idx rmax rmin,
    extrema col df
    = Some ((Time rmax, get_col col rmax), (Time rmin, get_col col rmin)) /\
    nth_error df max_idx = Some rmax /\
    nth_error df min_idx = Some rmin /\
    isnan (get_col col rmax) = false /\
    isnan (get_col col rmin) = false /\
    forall k r, nth_error df k = Some r -> isnan (get_col col r) = false ->
      (magnitude col r <=? magnitude col rmax) = true /\
      (magnitude col rmin <=? magnitude col r) = true /\
      ((k < max_idx)%nat -> (magnitude col r <? magnitude col rmax) = true) /\
      ((k < min_idx)%nat -> (magnitude col rmin <? magnitude col r) = true).
Proof.
  intros (r0 & Hin0 & Hnum0).
  assert (Exists (fun x => isnan x = false) (map (magnitude col) df)) as Hex.
  { apply Exists_exists. exists (magnitude col r0). split.
    - now apply in_map.
    - now rewrite isnan_magnitude. }
  destruct (idxmax_spec _ Hex) as (imax & vmax & Himax & Hnmax & Hvmax & Hmax).
  destruct (idxmin_spec _ Hex) as (imin & vmin & Himin & Hnmin & Hvmin & Hmin).
  rewrite nth_error_map in Hnmax, Hnmin.
  destruct (nth_error df imax) as [rmax | ] eqn:Hrmax; [ | discriminate ].
  destruct (nth_error df imin) as [rmin | ] eqn:Hrmin; [ | discriminate ].
  cbn in Hnmax, Hnmin.
  injection Hnmax as <-. injection Hnmin as <-.
  rewrite isnan_magnitude in Hvmax, Hvmin.
  exists imax, imin, rmax, rmin.
  split; [ | split; [ | split; [ | split; [ | split ] ] ] ]; trivial.
  - unfold extrema. rewrite magnitude_column, Himax, Himin, Hrmax, Hrmin.
    reflexivity.
  - intros k r Hk Hnum.
    assert (nth_error (map (magnitude col) df) k = Some (magnitude col r))
      as Hk' by (rewrite nth_error_map, Hk; reflexivity).
    rewrite <- isnan_magnitude in Hnum.
    destruct (Hmax _ _ Hk' Hnum) as [Hle Hlt].
    destruct (Hmin _ _ Hk' Hnum) as [Hge Hgt].
    repeat split; assumption.
Qed.



(** C9. [filter_range] keeps exactly the records whose value in the
    channel lies in the closed interval from [lo] to [hi]: a record is in
    the result if and only if it is in the table with its value in the
    interval, and the result keeps the order of the table and adds no
    copies.  When [lo > hi] the result is the empty table; and the
    highlighting block that calls it always returns, handing back the
    figure unchanged when the filter result is empty. *)
Theorem C9_filter_range_closed_interval
  (df : list (Row Z T)) (col : Channel) (lo hi : T) :
  (forall r, In r (filter_range df col lo hi) <->
             In r df /\ (lo <=? get_col col r) = true
             /\ (get_col col r <=? hi) = true) /\
  (forall df1 df2, df = (df1 ++ df2)%list ->
     filter_range df col lo hi
     = (filter_range df1 col lo hi ++ filter_range df2 col lo hi)%list) /\
  (List.length (filter_range df col lo hi) <= List.length df)%nat /\
  ((hi <? lo) = true -> filter_range df col lo hi = []) /\
  (forall (ui : UI T) (fig : list (Trace T)),
      exists out fig',
        highlight_range ui df fig col = (out, Returned fig') /\
        (lower ui col = Some lo -> upper ui col = Some hi ->
         filter_range df col lo hi = [] -> fig' = fig)).
Proof.
  split; [ | split; [ | split; [ | split ] ] ].
  - intros r. unfold filter_range. rewrite filter_In, andb_true_iff.
    reflexivity.
  - intros df1 df2 ->. unfold filter_range. apply filter_app.
  - unfold filter_range. apply filter_length_le.
  - intros Hgt. unfold filter_range.
    induction df as [ | r df IH ]; [ reflexivity | ]. cbn [filter].
    destruct (lo <=? get_col col r) eqn:Hlo; [ | exact IH ].
    destruct (get_col col r <=? hi) eqn:Hup; [ | exact IH ].
    pose proof (leb_trans _ _ _ Hlo Hup) as Hle.
    rewrite (ltb_not_leb _ _ Hgt) in Hle. discriminate.
  - intros ui fig. unfold highlight_range.
    destruct (highlight ui col && show ui col); cbn.
    + destruct (filter_range df col _ _) as [ | r sel ] eqn:Hsel; cbn.
      * eexists _, _. split; reflexivity.
      * eexists _, _. split; [ reflexivity | ].
        intros Hlower Hupper Hempty.
        rewrite Hlower, Hupper, Hempty in Hsel. discriminate.
    + eexists _, _. split; reflexivity.
Qed.

End AggregatorProperties.

(** ** Calibration at the reference points *)

Section CalibrationProperties.
Context {T : Type} `{ArithLaws T}.
Local Open Scope arith_scope.

(** With distinct finite inputs the division of line 155 does not raise
    and the parameters are the two formulas. *)
Lemma compute_params_formula (min_meter max_meter min_actual max_actual : T) :
  isfinite min_meter = true -> isfinite max_meter = true ->
  (max_meter == min_meter) = false ->
  compute_params min_meter max_meter min_actual max_actual
  = Some ((max_actual - min_actual) / (max_meter - min_meter),
          min_actual
          - (max_actual - min_actual) / (max_meter - min_meter) * min_meter).
Proof.
  intros Hmin Hmax Hne. unfold compute_params, py_div.
  rewrite eqb_sub_zero, Hne by assumption. reflexivity.
Qed.

(** With equal finite inputs it raises [ZeroDivisionError]. *)
Lemma compute_params_degenerate (min_meter max_meter min_actual max_actual : T) :
  isfinite min_meter = true -> isfinite max_meter = true ->
  (max_meter == min_meter) = true ->
  compute_params min_meter max_meter min_actual max_actual = None.
Proof.
  intros Hmin Hmax Heq. unfold compute_params, py_div.
  rewrite eqb_sub_zero, Heq by assumption. reflexivity.
Qed.
End CalibrationProperties.

(** Without rounding the calibration line passes through both reference
    points. *)
Lemma exact_at_reference_points (imin imax omin omax : Qc) :
  imin <> imax ->
  exists p,
    compute_params (Some imin) (Some imax) (Some omin) (Some omax) = Some p /\
    evaluate p (Some imin) = Some omin /\
    evaluate p (Some imax) = Some omax.
Proof.
  intros Hne.
  assert ((imax - imin)%Qc <> Q2Qc 0) as Hd.
  { intros Hz. apply (proj1 (ExactLaws.sub_eq_zero _ _)) in Hz. congruence. }
  unfold compute_params, py_div. cbn.
  destruct (Exact.is_eq (imax - imin ?= Q2Qc (inject_Z 0))%Qc) eqn:Hz.
  { apply (proj1 (ExactLaws.is_eq_iff _ _)) in Hz. contradiction. }
  destruct (Qc_eq_dec (imax - imin) (Q2Qc 0)) as [Hz' | _]; [ contradiction | ].
  eexists. split; [ reflexivity | ]. cbn. split; f_equal.
  - ring.
  - change (Q2Qc 0) with 0%Qc in Hd. field. exact Hd.
Qed.

(** C1 (amended). For finite reference inputs with
    [max_meter <> min_meter], [compute_params] returns
    [m = (max_actual - min_actual) / (max_meter - min_meter)] and
    [b = min_actual - m * min_meter], each operation rounded to binary64;
    and when the same operations are carried out without rounding,
    [evaluate] of these parameters is exactly [min_actual] at [min_meter]
    and exactly [max_actual] at [max_meter]. *)
Theorem C1_calibration_formulas_and_exactness_without_rounding :
  (forall min_meter max_meter min_actual max_actual : spec_float,
      isfinite min_meter = true -> isfinite max_meter = true ->
      eqb max_meter min_meter = false ->
      compute_params min_meter max_meter min_actual max_actual
      = Some (div (sub max_actual min_actual) (sub max_meter min_meter),
              sub min_actual
                (mul (div (sub max_actual min_actual) (sub max_meter min_meter))
                   min_meter))) /\
  (forall min_meter max_meter min_actual max_actual : Qc,
      min_meter <> max_meter ->
      exists p,
        compute_params (Some min_meter) (Some max_meter)
          (Some min_actual) (Some max_actual) = Some p /\
        p = (Some ((max_actual - min_actual) / (max_meter - min_meter))%Qc,
             Some (min_actual
                   - (max_actual - min_actual) / (max_meter - min_meter)
                     * min_meter)%Qc) /\
        evaluate p (Some min_meter) = Some min_actual /\
        evaluate p (Some max_meter) = Some max_actual).
Proof.
  split.
  - intros. now apply compute_params_formula.
  - intros imin imax omin omax Hne.
    destruct (exact_at_reference_points imin imax omin omax Hne)
      as (p & Hp & Hmin & Hmax).
    exists p. repeat split; try assumption.
    assert (isfinite (Some imin) = true /\ isfinite (Some imax) = true)
      as [Hf1 Hf2] by (split; reflexivity).
    assert (eqb (Some imax) (Some imin) = false) as Hneb.
    { cbn. destruct (Exact.is_eq (imax ?= imin)%Qc) eqn:Heq; [ | reflexivity ].
      apply (proj1 (ExactLaws.is_eq_iff _ _)) in Heq. congruence. }
    rewrite (compute_params_formula _ _ (Some omin) (Some omax) Hf1 Hf2 Hneb) in Hp.
    injection Hp as <-. cbn.
    destruct (Qc_eq_dec (imax - imin) (Q2Qc 0)) as [Hz | _]; [ | reflexivity ].
    apply (proj1 (ExactLaws.sub_eq_zero _ _)) in Hz. congruence.
Qed.

(** ** The split over the whole time range *)

Section FullRange.
Context {T : Type} `{Arith T}.
Local Open Scope arith_scope.

Lemma fold_min_spec (l : list Z) : forall a : Z,
  In (fold_left Z.min l a) (a :: l) /\
  forall x, In x (a :: l) -> (fold_left Z.min l a <= x)%Z.
Proof.
  induction l as [ | y l IH ]; intros a; cbn [fold_left].
  - split; [ now left | ]. intros x [<- | []]. lia.
  - destruct (IH (Z.min a y)) as [Hin Hle]. split.
    + destruct Hin as [Hin | Hin]; [ | right; now right ].
      rewrite <- Hin. destruct (Z.min_spec a y) as [[_ ->] | [_ ->]];
        [ now left | right; now left ].
    + intros x [<- | [<- | Hx]].
      * specialize (Hle (Z.min a y) (or_introl eq_refl)). lia.
      * specialize (Hle (Z.min a y) (or_introl eq_refl)). lia.
      * apply Hle. now right.
Qed.

Lemma fold_max_spec (l : list Z) : forall a : Z,
  In (fold_left Z.max l a) (a :: l) /\
  forall x, In x (a :: l) -> (x <= fold_left Z.max l a)%Z.
Proof.
  induction l as [ | y l IH ]; intros a; cbn [fold_left].
  - split; [ now left | ]. intros x [<- | []]. lia.
  - destruct (IH (Z.max a y)) as [Hin Hle]. split.
    + destruct Hin as [Hin | Hin]; [ | right; now right ].
      rewrite <- Hin. destruct (Z.max_spec a y) as [[_ ->] | [_ ->]];
        [ right; now left | now left ].
    + intros x [<- | [<- | Hx]].
      * specialize (Hle (Z.max a y) (or_introl eq_refl)). lia.
      * specialize (Hle (Z.max a y) (or_introl eq_refl)). lia.
      * apply Hle. now right.
Qed.

(** [df_plot["Time"].min()] is the time of a record and no record is
    earlier. *)
Lemma Time_min_spec (df : list (Row Z T)) :
  df <> [] ->
  exists t, Time_min df = Some t /\
            (exists r, In r df /\ Time r = t) /\
            forall r, In r df -> (t <= Time r)%Z.
Proof.
  destruct df as [ | r0 rest ]; [ congruence | intros _ ].
  destruct (fold_min_spec (map Time rest) (Time r0)) as [Hin Hle].
  eexists. split; [ reflexivity | split ].
  - change (Time r0 :: map Time rest) with (map Time (r0 :: rest)) in Hin.
    apply in_map_iff in Hin. destruct Hin as (r & Hr & Hin). now exists r.
  - intros r Hr. apply Hle.
    change (Time r0 :: map Time rest) with (map Time (r0 :: rest)).
    now apply in_map.
Qed.

Lemma Time_max_spec (df : list (Row Z T)) :
  df <> [] ->
  exists t, Time_max df = Some t /\ forall r, In r df -> (Time r <= t)%Z.
Proof.
  destruct df as [ | r0 rest ]; [ congruence | intros _ ].
  destruct (fold_max_spec (map Time rest) (Time r0)) as [_ Hle].
  eexists. split; [ reflexivity | ].
  intros r Hr. apply Hle.
  change (Time r0 :: map Time rest) with (map Time (r0 :: rest)).
  now apply in_map.
Qed.

Lemma df_total_all (df : list (Row Z T)) (t0 t1 : Z) :
  (forall r, In r df -> (t0 <= Time r <= t1)%Z) ->
  df_total df (t0, t1) = df.
Proof.
  intros Hall. unfold df_total. cbn [fst snd].
  induction df as [ | r df IH ]; [ reflexivity | ]. cbn [filter].
  destruct (Hall r (or_introl eq_refl)) as [H0 H1].
  rewrite (proj2 (Z.leb_le _ _) H0), (proj2 (Z.leb_le _ _) H1). cbn.
  f_equal. apply IH. intros r' Hr'. apply Hall. now right.
Qed.

(** Over the range from the first to the last timestamp every record is
    selected: the split sums the whole [PV] column and the whole absolute
    [Meter] column and divides each sum by 1000. *)
Lemma full_range_split (df : list (Row Z T)) :
  df <> [] ->
  exists time_min time_max s,
    Time_min df = Some time_min /\ Time_max df = Some time_max /\
    harvest_grid_split df (time_min, time_max) = Some s /\
    total_pv s = Series_sum (map PV df) / of_Z 1000 /\
    total_meter_abs s = Series_sum (map abs (map Meter df)) / of_Z 1000.
Proof.
  intros Hne.
  destruct (Time_min_spec df Hne) as (t0 & Ht0 & _ & Hmin).
  destruct (Time_max_spec df Hne) as (t1 & Ht1 & Hmax).
  exists t0, t1. unfold harvest_grid_split.
  rewrite df_total_all by (intros r Hr; split; auto).
  destruct df as [ | r0 rest ]; [ congruence | ].
  eexists. repeat split; try assumption; reflexivity.
Qed.
End FullRange.

(** In exact arithmetic the order of the additions does not matter: the
    sum of a column is the sum of its numbers, and dividing every sample by
    1000 and summing is the same as summing and dividing once. *)
Module ExactSum.
Local Open Scope Qc_scope.

Definition number (x : Exact.t) : Prop := isnan x = false.

(** The rational a value stands for, 0 for NaN. *)
Definition val (x : Exact.t) : Qc :=
  match x with Some q => q | None => 0 end.

Definition qsum (l : list Exact.t) : Qc :=
  fold_right (fun x acc => val x + acc) 0 l.

Lemma number_Some (x : Exact.t) : number x -> x = Some (val x).
Proof. destruct x; [ reflexivity | discriminate ]. Qed.

Lemma qsum_cons (x : Exact.t) (l : list Exact.t) :
  qsum (x :: l) = val x + qsum l.
Proof. reflexivity. Qed.

Lemma qsum_app (l1 l2 : list Exact.t) : qsum (l1 ++ l2) = qsum l1 + qsum l2.
Proof.
  induction l1 as [ | x l1 IH ].
  - change (qsum []) with 0. cbn [app]. ring.
  - cbn [app]. rewrite !qsum_cons, IH. ring.
Qed.

Lemma fold_add_val (l : list Exact.t) : forall acc : Qc,
  Forall number l -> fold_left add l (Some acc) = Some (acc + qsum l).
Proof.
  induction l as [ | x l IH ]; intros acc Hl.
  - change (qsum []) with 0. cbn [fold_left]. f_equal. ring.
  - inversion Hl as [ | ? ? Hx Hrest ]; subst.
    rewrite (number_Some _ Hx) at 1. cbn [fold_left add exact Exact.lift2].
    rewrite IH by assumption. rewrite qsum_cons. f_equal. ring.
Qed.

Lemma running_sum_val (a : list Exact.t) :
  Forall number a -> running_sum a = Some (qsum a).
Proof.
  destruct a as [ | x a ]; intros Ha; [ reflexivity | ].
  inversion Ha as [ | ? ? Hx Hrest ]; subst. cbn [running_sum].
  rewrite (number_Some _ Hx) at 1. rewrite qsum_cons. now apply fold_add_val.
Qed.

(** The eight accumulators hold, together with what is left of the
    array, the sum they started with plus the sum of the array. *)
Lemma lanes_val (n : nat) :
  forall (a : list Exact.t) (q0 q1 q2 q3 q4 q5 q6 q7 : Qc),
  (List.length a <= n)%nat -> Forall number a ->
  exists (p0 p1 p2 p3 p4 p5 p6 p7 : Qc) (tail : list Exact.t),
    @lanes Exact.t exact
      (Some q0, Some q1, Some q2, Some q3, Some q4, Some q5, Some q6, Some q7)
      a
    = ((Some p0, Some p1, Some p2, Some p3,
        Some p4, Some p5, Some p6, Some p7), tail) /\
    Forall number tail /\
    p0 + p1 + p2 + p3 + p4 + p5 + p6 + p7 + qsum tail
    = q0 + q1 + q2 + q3 + q4 + q5 + q6 + q7 + qsum a.
Proof.
  induction n as [ | n IH ]; intros a q0 q1 q2 q3 q4 q5 q6 q7 Hlen Ha.
  - destruct a; [ | cbn in Hlen; lia ].
    exists q0, q1, q2, q3, q4, q5, q6, q7, []. repeat split. constructor.
  - first_eight a;
      try (exists q0, q1, q2, q3, q4, q5, q6, q7; eexists;
           split; [ reflexivity | split; [ exact Ha | reflexivity ] ]).
    destruct (IH rest (q0 + val x0) (q1 + val x1) (q2 + val x2)
                (q3 + val x3) (q4 + val x4) (q5 + val x5) (q6 + val x6)
                (q7 + val x7))
      as (p0 & p1 & p2 & p3 & p4 & p5 & p6 & p7 & tail & Hl & Ht & Hsum).
    { cbn in Hlen. lia. }
    { repeat match goal with
             | Hl : Forall number (_ :: _) |- _ =>
                 inversion Hl; subst; clear Hl
             end. assumption. }
    exists p0, p1, p2, p3, p4, p5, p6, p7, tail.
    split; [ | split; [ exact Ht | ] ].
    + rewrite <- Hl.
      repeat match goal with
             | Hl : Forall number (_ :: _) |- _ =>
                 inversion Hl; subst; clear Hl
             end.
      repeat match goal with
             | Hx : number ?x |- _ =>
                 rewrite (number_Some _ Hx) at 1; clear Hx
             end.
      reflexivity.
    + rewrite Hsum, !qsum_cons. ring.
Qed.

Lemma block_sum_val (a : list Exact.t) :
  Forall number a -> block_sum a = Some (qsum a).
Proof.
  intros Ha. first_eight a; try (now apply running_sum_val).
  destruct (lanes_val (List.length rest) rest (val x0) (val x1)
              (val x2) (val x3) (val x4) (val x5) (val x6) (val x7)
              (Nat.le_refl _))
    as (p0 & p1 & p2 & p3 & p4 & p5 & p6 & p7 & tail & Hl & Ht & Hsum).
  { repeat match goal with
           | Hl : Forall number (_ :: _) |- _ =>
               inversion Hl; subst; clear Hl
           end. assumption. }
  rewrite !qsum_cons.
  repeat match goal with
         | Hl : Forall number (_ :: _) |- _ => inversion Hl; subst; clear Hl
         end.
  repeat match goal with
         | Hx : number ?x |- _ => rewrite (number_Some _ Hx) at 1; clear Hx
         end.
  unfold block_sum.
  match goal with
  | |- context [lanes ?r rest] =>
      replace (lanes r rest)
        with ((Some p0, Some p1, Some p2, Some p3,
               Some p4, Some p5, Some p6, Some p7, tail)
              : (Exact.t * Exact.t * Exact.t * Exact.t
                 * Exact.t * Exact.t * Exact.t * Exact.t) * list Exact.t)
        by (symmetry; exact Hl)
  end.
  cbn [add exact Exact.lift2]. rewrite fold_add_val by assumption.
  f_equal.
  transitivity (p0 + p1 + p2 + p3 + p4 + p5 + p6 + p7 + qsum tail);
    [ ring | rewrite Hsum; ring ].
Qed.

Lemma pairwise_sum_val (fuel : nat) : forall a : list Exact.t,
  Forall number a -> pairwise_sum fuel a = Some (qsum a).
Proof.
  induction fuel as [ | fuel IH ]; intros a Ha; rewrite pairwise_sum_eq.
  - destruct (List.length a <? 8)%nat; [ now apply running_sum_val | ].
    destruct (List.length a <=? 128)%nat; now apply block_sum_val.
  - destruct (List.length a <? 8)%nat; [ now apply running_sum_val | ].
    destruct (List.length a <=? 128)%nat; [ now apply block_sum_val | ].
    cbn zeta.
    set (n2 := (List.length a / 2 - (List.length a / 2) mod 8)%nat).
    destruct (Forall_cut number n2 a Ha) as [H1 H2].
    rewrite (IH _ H1), (IH _ H2). cbn [add exact Exact.lift2].
    rewrite <- qsum_app. now rewrite firstn_skipn.
Qed.

Lemma np_sum_val (a : list Exact.t) :
  Forall number a -> np_sum a = Some (qsum a).
Proof.
  intros Ha. destruct a as [ | x a ]; [ reflexivity | ].
  unfold np_sum. now apply pairwise_sum_val.
Qed.

Lemma fillna0_numbers (s : list Exact.t) : Forall number (fillna0 s).
Proof.
  unfold fillna0. apply Forall_forall. intros y Hy.
  apply in_map_iff in Hy. destruct Hy as ([q | ] & <- & _); reflexivity.
Qed.

Lemma qsum_fillna0 (s : list Exact.t) : qsum (fillna0 s) = qsum s.
Proof.
  induction s as [ | x s IH ]; [ reflexivity | ].
  change (fillna0 (x :: s))
    with ((if isnan x then of_Z 0 else x) :: fillna0 s).
  rewrite !qsum_cons, IH. destruct x as [q | ]; reflexivity.
Qed.

Lemma qsum_skipna (s : list Exact.t) : qsum (skipna s) = qsum s.
Proof.
  induction s as [ | x s IH ]; [ reflexivity | ].
  rewrite qsum_cons, <- IH. destruct x as [q | ].
  - change (skipna (Some q :: s)) with (Some q :: skipna s).
    now rewrite qsum_cons.
  - change (skipna (None :: s)) with (skipna s). cbn [val]. ring.
Qed.

(** The sum of a column is the sum of its numbers. *)
Lemma Series_sum_val (s : list Exact.t) : Series_sum s = Some (qsum s).
Proof.
  unfold Series_sum. rewrite np_sum_val by apply fillna0_numbers.
  now rewrite qsum_fillna0.
Qed.

(** It is the numbers of the column added up from left to right, starting
    from 0. *)
Lemma Series_sum_fold (s : list Exact.t) :
  Series_sum s = fold_left add (skipna s) (of_Z 0).
Proof.
  rewrite Series_sum_val.
  change (of_Z 0 : Exact.t) with (Some 0).
  rewrite fold_add_val.
  - rewrite qsum_skipna. f_equal. ring.
  - apply Forall_forall. intros x Hx. apply filter_In in Hx.
    destruct Hx as [_ Hx]. now apply negb_true_iff in Hx.
Qed.

Lemma qsum_div (l : list Exact.t) (c : Qc) :
  c <> 0 -> qsum (map (fun x => div x (Some c)) l) = qsum l / c.
Proof.
  intros Hc. induction l as [ | x l IH ].
  - change (qsum (map _ [])) with 0. change (qsum []) with 0.
    field. exact Hc.
  - cbn [map]. rewrite !qsum_cons, IH. destruct x as [q | ].
    + cbn [div exact Exact.div].
      destruct (Qc_eq_dec c (Q2Qc 0)) as [E | _]; [ contradiction | ].
      cbn [val]. field. exact Hc.
    + cbn [div exact Exact.div val]. field. exact Hc.
Qed.

Lemma sum_div (l : list Exact.t) (c : Qc) :
  c <> Q2Qc 0 ->
  Series_sum (map (fun x => div x (Some c)) l) = div (Series_sum l) (Some c).
Proof.
  intros Hc. rewrite !Series_sum_val. cbn [div exact Exact.div].
  destruct (Qc_eq_dec c (Q2Qc 0)) as [E | _]; [ contradiction | ].
  f_equal. now apply qsum_div.
Qed.

Lemma thousand_nonzero : Q2Qc (inject_Z 1000) <> Q2Qc 0.
Proof. intros Heq. apply (f_equal this) in Heq. discriminate Heq. Qed.
End ExactSum.

(** C4 (amended). For each channel, [summarize] returns the total, the
    minimum, the maximum and the mean of the kilowatt values of the
    records, where the kilowatt value of the meter is
    [abs (Meter r) / 1000] and that of PV and load is the signed value over
    1000.  The total is pandas' sum of these values (NaN counted as 0), the
    mean is the total over the number of values that are not NaN, the
    minimum and maximum are values of the column that bound all the
    others.  pandas adds fewer than eight values from left to right and
    more of them in numpy's pairwise order; without rounding the total is
    the sum of the values in any order. *)
Theorem C4_summarize_kw_meter_absolute :
  (forall (T : Type) (A : Arith T) (L : ArithLaws T)
          (col : Channel) (df : list (Row Z T)),
      let kw := map (kw_value col) df in
      let s := summarize col df in
      total s = Series_sum kw /\
      ((List.length df < 8)%nat -> total s = running_sum (fillna0 kw)) /\
      mean s = div (total s) (of_Z (Z.of_nat (List.length (skipna kw)))) /\
      match skipna kw with
      | [] => minimum s = nan /\ maximum s = nan
      | _ :: _ =>
          In (minimum s) (skipna kw) /\ In (maximum s) (skipna kw) /\
          forall v, In v (skipna kw) ->
                    leb (minimum s) v = true /\ leb v (maximum s) = true
      end) /\
  (forall (col : Channel) (df : list (Row Z Exact.t)),
      total (summarize col df)
      = fold_left add (skipna (map (kw_value col) df)) (of_Z 0)).
Proof.
  split.
  - intros T A L col df. exact (summarize_statistics col df).
  - intros col df. unfold summarize. cbn [total].
    rewrite kw_column_values. apply ExactSum.Series_sum_fold.
Qed.

(** C6 (amended). For every non-empty record set, the split over the range
    from the first to the last timestamp selects every record:
    [total_pv] is the sum of the [PV] column over 1000 and
    [total_meter_abs] the sum of the absolute [Meter] column over 1000.
    Without rounding these are equal to the whole-series summary totals of
    PV and of the meter, which divide every sample by 1000 before they
    sum. *)
Theorem C6_full_range_split_equals_totals_without_rounding :
  (forall df : list (Row Z spec_float),
      df <> [] ->
      exists time_min time_max s,
        Time_min df = Some time_min /\ Time_max df = Some time_max /\
        harvest_grid_split df (time_min, time_max) = Some s /\
        total_pv s = div (Series_sum (map PV df)) (of_Z 1000) /\
        total_meter_abs s
        = div (Series_sum (map abs (map Meter df))) (of_Z 1000)) /\
  (forall df : list (Row Z Exact.t),
      df <> [] ->
      exists time_min time_max s,
        Time_min df = Some time_min /\ Time_max df = Some time_max /\
        harvest_grid_split df (time_min, time_max) = Some s /\
        total_pv s = total (summarize PV_W df) /\
        total_meter_abs s = total (summarize Meter_W df)).
Proof.
  split.
  - intros df Hne. exact (full_range_split df Hne).
  - intros df Hne.
    destruct (full_range_split df Hne) as (t0 & t1 & s & Ht0 & Ht1 & Hs & Hpv & Hm).
    exists t0, t1, s. repeat split; try assumption.
    + rewrite Hpv. cbn [summarize total kw_column].
      rewrite <- (map_map PV (fun x => div x (of_Z 1000))).
      symmetry.
      exact (ExactSum.sum_div (map PV df) _ ExactSum.thousand_nonzero).
    + rewrite Hm. cbn [summarize total kw_column].
      rewrite <- (map_map (fun r => abs (Meter r)) (fun x => div x (of_Z 1000))).
      rewrite <- (map_map Meter abs).
      symmetry.
      exact (ExactSum.sum_div (map abs (map Meter df)) _
               ExactSum.thousand_nonzero).
Qed.

(** ** Runs of the script *)

Section RunProperties.
Context {T : Type} `{ArithLaws T}.
Local Open Scope arith_scope.
Local Open Scope string_scope.

Variable to_datetime : list string -> string + list (option Z).
Variable strftime : string -> Z -> string.

(** C3. With equal finite reference inputs, [compute_params] raises
    [ZeroDivisionError]; the [except] branch reports it with [st.error];
    but the run is not halted there: the script goes on to the header and
    the input of step 2 and leaves with [NameError] at the first use of
    [m]. *)
Theorem C3_degenerate_calibration_reported_not_halted
  (ui : UI T) (df_raw : list (Row Z T)) :
  isfinite (min_meter ui) = true -> isfinite (max_meter ui) = true ->
  (max_meter ui == min_meter ui) = true ->
  compute_params (min_meter ui) (max_meter ui) (min_actual ui) (max_actual ui)
  = None /\
  calibration_formula ui
  = ([st_error Text.same_readings], Returned None) /\
  calibration_and_report strftime ui df_raw
  = ([st_text Text.calibration_title;
      st_text Text.calibration_about;
      st_text Text.step_1;
      st_widget "SEMS Min (kW)";
      st_widget "SEMS Max (kW)";
      st_widget "Grid Min Reading [02] (kW)";
      st_widget "Grid Max Reading [04] (kW)";
      st_error Text.same_readings;
      st_text Text.step_2;
      st_widget "SEMS Reading to check in (KW):"],
     Raised (NameError "m")).
Proof.
  intros Hmin Hmax Heq.
  pose proof (compute_params_degenerate _ _ (min_actual ui) (max_actual ui)
                Hmin Hmax Heq) as Hnone.
  assert (calibration_formula ui
          = ([st_error Text.same_readings], Returned None)) as Hformula
      by (unfold calibration_formula; rewrite Hnone; reflexivity).
  repeat split; try assumption.
  unfold calibration_and_report. rewrite Hformula. reflexivity.
Qed.

(** The representative date of a record set that is not empty is the
    formatted least timestamp. *)
Lemma representative_date_minimum (df_plot : list (Row Z T)) :
  df_plot <> [] ->
  exists t,
    representative_date strftime df_plot = ([], Returned (strftime "%b %d, %Y" t)) /\
    (exists r, In r df_plot /\ Time r = t) /\
    forall r, In r df_plot -> (t <= Time r)%Z.
Proof.
  intros Hne. destruct (Time_min_spec df_plot Hne) as (t & Ht & Hin & Hle).
  exists t. unfold representative_date. rewrite Ht. now repeat split.
Qed.

Lemma has_required_columns (df : DataFrame T) :
  (forall c, In c required_columns -> has_column df c = true) ->
  has_column df "Time" = true /\
  filter (fun c => negb (has_column df c)) required_columns = [].
Proof.
  intros Hall. split.
  - apply Hall. now left.
  - unfold required_columns in *. cbn [filter].
    rewrite !Hall by (cbn; tauto). reflexivity.
Qed.

(** C5. The representative date is the formatted least timestamp of the
    record set; but nothing stops the run when no record survives the
    cleaning: with all required columns present, a valid calibration and
    an empty cleaned table, the script shows and exports the empty table,
    computes the summaries, and leaves with [ValueError] when it formats
    the date of [NaT]. *)
Theorem C5_empty_record_set_reaches_representative_date :
  (forall df_plot : list (Row Z T),
      df_plot <> [] ->
      exists t,
        representative_date strftime df_plot
        = ([], Returned (strftime "%b %d, %Y" t)) /\
        (exists r, In r df_plot /\ Time r = t) /\
        forall r, In r df_plot -> (t <= Time r)%Z) /\
  (forall (df_raw : DataFrame T) (ui : UI T) (m b : T),
      (forall c, In c required_columns -> has_column df_raw c = true) ->
      normalize to_datetime (rows df_raw) = inr [] ->
      compute_params (min_meter ui) (max_meter ui)
        (min_actual ui) (max_actual ui) = Some (m, b) ->
      main to_datetime strftime df_raw ui
      = ([st_text Text.calibration_title;
          st_text Text.calibration_about;
          st_text Text.step_1;
          st_widget "SEMS Min (kW)";
          st_widget "SEMS Max (kW)";
          st_widget "Grid Min Reading [02] (kW)";
          st_widget "Grid Max Reading [04] (kW)";
          st_success m b;
          st_text Text.step_2;
          st_widget "SEMS Reading to check in (KW):";
          st_reading (evaluate (m, b) (reading_input ui));
          st_text "Data Preview";
          st_dataframe [];
          st_download_csv []],
         Raised (ValueError Text.NaT_strftime))).
Proof.
  split; [ exact representative_date_minimum | ].
  intros df_raw ui m b Hcols Hempty Hparams.
  destruct (has_required_columns df_raw Hcols) as [Htime Hmissing].
  unfold main. rewrite Htime. cbn [negb].
  unfold normalize in Hempty.
  destruct (parse_Time to_datetime (rows df_raw)) as [e | parsed];
    [ discriminate | ].
  injection Hempty as Hempty. rewrite Hmissing, Hempty.
  unfold calibration_and_report, calibration_formula. rewrite Hparams.
  reflexivity.
Qed.

(** The rows that the cleaning keeps, in the terms of the raw table and
    of the parsed column. *)
Lemma cleaned_In (df : list (Row string T)) : forall (parsed : list (option Z))
  (r : Row Z T),
  In r (dropna (assign_Time df parsed)) <->
  exists i raw,
    nth_error df i = Some raw /\ nth_error parsed i = Some (Some (Time r)) /\
    PV raw = PV r /\ Meter raw = Meter r /\ Load raw = Load r.
Proof.
  induction df as [ | raw0 df IH ]; intros parsed r.
  - cbn. split; [ intros [] | intros (i & raw & Hi & _) ].
    destruct i; discriminate.
  - cbn [assign_Time dropna Time PV Meter Load].
    assert ((exists i raw,
                nth_error (raw0 :: df) i = Some raw /\
                nth_error parsed i = Some (Some (Time r)) /\
                PV raw = PV r /\ Meter raw = Meter r /\ Load raw = Load r)
            <-> (hd_error parsed = Some (Some (Time r)) /\
                 PV raw0 = PV r /\ Meter raw0 = Meter r /\ Load raw0 = Load r)
                \/ In r (dropna (assign_Time df (tl parsed)))) as ->.
    { rewrite IH. split.
      - intros (i & raw & Hi & Ht & Hrest). destruct i as [ | i ].
        + left. injection Hi as <-. split; [ | exact Hrest ].
          destruct parsed; [ discriminate | exact Ht ].
        + right. exists i, raw. split; [ exact Hi | split; [ | exact Hrest ] ].
          destruct parsed; [ discriminate | exact Ht ].
      - intros [(Ht & Hrest) | (i & raw & Hi & Ht & Hrest)].
        + exists 0%nat, raw0. split; [ reflexivity | split; [ | exact Hrest ] ].
          destruct parsed; [ discriminate | exact Ht ].
        + exists (S i), raw. split; [ exact Hi | split; [ | exact Hrest ] ].
          destruct parsed; [ destruct i; discriminate | exact Ht ]. }
    destruct parsed as [ | [t | ] parsed ]; cbn [hd_error tl In].
    + split; [ tauto | ]. intros [(Ht & _) | Hin]; [ discriminate | exact Hin ].
    + split.
      * intros [<- | Hin]; [ left; cbn; auto | now right ].
      * intros [([= ->] & Hp & Hm & Hl) | Hin]; [ left | now right ].
        destruct r; cbn in *. congruence.
    + split; [ tauto | ]. intros [(Ht & _) | Hin]; [ discriminate | exact Hin ].
Qed.

(** What the run depends on: the column labels and the cleaned table. *)
Lemma main_of_cleaned (df_raw : DataFrame T) (ui : UI T)
  (df_plot : list (Row Z T)) :
  normalize to_datetime (rows df_raw) = inr df_plot ->
  main to_datetime strftime df_raw ui
  = if negb (has_column df_raw "Time") then
      ([st_error Text.no_time_column], Stopped)
    else
      match filter (fun c => negb (has_column df_raw c)) required_columns with
      | [] => calibration_and_report strftime ui df_plot
      | missing_columns =>
          ([st_error (Text.missing_required
                      ++ String.concat ", " missing_columns)], Stopped)
      end.
Proof.
  intros Hclean. unfold main, normalize in *.
  destruct (negb (has_column df_raw "Time")); [ reflexivity | ].
  destruct (parse_Time to_datetime (rows df_raw)) as [e | parsed];
    [ discriminate | ].
  injection Hclean as <-.
  destruct (filter _ required_columns); reflexivity.
Qed.

(** C8. When [pd.to_datetime] hands back the column, a [Time] cell that
    does not parse has raised nothing: it is [NaT] in the column.  The
    cleaned table then holds exactly the rows whose entry in the parsed
    column is a time, each with that time and its own [PV], [Meter] and
    [Load]; the rows with [NaT] are gone with all their values.  All that
    follows (preview, export, summaries, markers, highlights, split) is
    computed from the cleaned table alone: the run is the run of lines
    133-427 on it, and any other file with the same column labels and the
    same cleaned table gives the same page and the same end.  And when
    [pd.to_datetime] itself raises, the script reports it and stops. *)
Theorem C8_unparseable_rows_dropped_everywhere (df_raw : DataFrame T) (ui : UI T) :
  (forall parsed,
      to_datetime (map Time (rows df_raw)) = inr parsed ->
      exists df_plot,
        normalize to_datetime (rows df_raw) = inr df_plot /\
        (forall r,
            In r df_plot <->
            exists i raw,
              nth_error (rows df_raw) i = Some raw /\
              nth_error parsed i = Some (Some (Time r)) /\
              PV raw = PV r /\ Meter raw = Meter r /\ Load raw = Load r) /\
        ((forall c, In c required_columns -> has_column df_raw c = true) ->
         main to_datetime strftime df_raw ui
         = calibration_and_report strftime ui df_plot) /\
        (forall df_raw' : DataFrame T,
            columns df_raw' = columns df_raw ->
            normalize to_datetime (rows df_raw') = inr df_plot ->
            main to_datetime strftime df_raw' ui
            = main to_datetime strftime df_raw ui)) /\
  (forall e,
      to_datetime (map Time (rows df_raw)) = inl e ->
      has_column df_raw "Time" = true ->
      main to_datetime strftime df_raw ui
      = ([st_error (Text.time_parse_failed ++ e)], Stopped)).
Proof.
  split.
  - intros parsed Hparsed.
    exists (dropna (assign_Time (rows df_raw) parsed)).
    assert (normalize to_datetime (rows df_raw)
            = inr (dropna (assign_Time (rows df_raw) parsed))) as Hclean
        by (unfold normalize, parse_Time; now rewrite Hparsed).
    split; [ exact Hclean | split; [ apply cleaned_In | split ] ].
    + intros Hcols. destruct (has_required_columns df_raw Hcols) as [Htime Hnone].
      rewrite (main_of_cleaned df_raw ui _ Hclean), Htime, Hnone. reflexivity.
    + intros df_raw' Hcols Hclean'.
      rewrite (main_of_cleaned df_raw ui _ Hclean).
      rewrite (main_of_cleaned df_raw' ui _ Hclean').
      unfold has_column. now rewrite Hcols.
  - intros e He Htime. unfold main, parse_Time. rewrite Htime, He. reflexivity.
Qed.
End RunProperties.

(** * Concrete runs in binary64 *)

Module Demo.
Local Open Scope string_scope.
Local Open Scope Z_scope.

(** The float of an integer. *)
Definition f64 (z : Z) : spec_float := B64.of_Z z.

(** 2025-04-09 02:20:00 and 02:25:00, in nanoseconds. *)
Definition t_0220 : Z := 1744165200000000000.
Definition t_0225 : Z := 1744165500000000000.

Definition to_datetime_cell (cell : string) : option Z :=
  if String.eqb cell "2025-04-09 02:20:00" then Some t_0220
  else if String.eqb cell "2025-04-09 02:25:00" then Some t_0225
  else None.

(** A stand-in for [pd.to_datetime]: two readings five minutes apart
    parse, every other cell is coerced; a column with two different UTC
    offsets raises. *)
Definition to_datetime (column : list string) : string + list (option Z) :=
  if existsb (String.eqb "2025-04-09 02:20:00+08:00") column
     && existsb (String.eqb "2025-04-09 02:25:00+09:00") column
  then inl "Mixed timezones detected."
  else inr (map to_datetime_cell column).

(** A stand-in for [strftime]: the format and the timestamp side by
    side. *)
Definition strftime (format : string) (t : Z) : string :=
  format ++ (if t =? t_0220 then " @02:20" else " @other").

Definition all_columns : list string :=
  ["Time"; "PV(W)"; "Meter(W)"; "Load(W)"].

(** Two good rows around a row whose [Time] is the text N/A. *)
Definition df_raw : DataFrame spec_float :=
  mkDataFrame all_columns
    [mkRow "2025-04-09 02:25:00" (f64 200) (f64 3) (f64 203);
     mkRow "N/A" (f64 7000) (f64 (-9000)) (f64 16000);
     mkRow "2025-04-09 02:20:00" (f64 100) (f64 (-5)) (f64 105)].

(** The same file with other values in the row that does not parse. *)
Definition df_raw_other_dropped : DataFrame spec_float :=
  mkDataFrame all_columns
    [mkRow "2025-04-09 02:25:00" (f64 200) (f64 3) (f64 203);
     mkRow "n/a" (f64 1) (f64 2) (f64 3);
     mkRow "2025-04-09 02:20:00" (f64 100) (f64 (-5)) (f64 105)].

(** A file in which no [Time] cell parses. *)
Definition df_unparseable : DataFrame spec_float :=
  mkDataFrame all_columns [mkRow "N/A" (f64 100) (f64 (-5)) (f64 105)].

(** A file whose two [Time] cells carry different UTC offsets. *)
Definition df_mixed_offsets : DataFrame spec_float :=
  mkDataFrame all_columns
    [mkRow "2025-04-09 02:20:00+08:00" (f64 100) (f64 (-5)) (f64 105);
     mkRow "2025-04-09 02:25:00+09:00" (f64 200) (f64 3) (f64 203)].

(** The widgets as the script initialises them, but for the two SEMS
    reference inputs. *)
Definition ui (sems_min sems_max : Z) : UI spec_float :=
  mkUI (f64 sems_min) (f64 sems_max) (f64 0) (f64 200) (f64 100)
    (fun _ => true) (fun _ => false) (fun _ => None) (fun _ => None) None.

(** The cleaned table of [df_raw] under the default calibration. *)
Definition df_plot : list (Row Z spec_float) :=
  [mkRow t_0225 (f64 200) (f64 3) (f64 203);
   mkRow t_0220 (f64 100) (f64 (-5)) (f64 105)].





(** Eight records of 100 W each, one a second. *)
Definition df_eight : list (Row Z spec_float) :=
  map (fun k => mkRow (t_0220 + k * 1000000000) (f64 100) (f64 0) (f64 100))
    [0; 1; 2; 3; 4; 5; 6; 7].
End Demo.

(** The examples of section 8 of the specification. *)
Example calibration_0_200_to_0_180 :
  exists m b,
    compute_params (Demo.f64 0) (Demo.f64 200) (Demo.f64 0) (Demo.f64 180)
    = Some (m, b) /\
    eqb m (div (Demo.f64 9) (Demo.f64 10)) = true /\
    eqb b (Demo.f64 0) = true /\
    eqb (evaluate (m, b) (Demo.f64 100)) (Demo.f64 90) = true.
Proof. do 2 eexists. repeat split; vm_compute; reflexivity. Qed.

Example pv_summary_1000_2000_3000 :
  summarize PV_W
    [mkRow 1%Z (Demo.f64 1000) (Demo.f64 0) (Demo.f64 0);
     mkRow 2%Z (Demo.f64 2000) (Demo.f64 0) (Demo.f64 0);
     mkRow 3%Z (Demo.f64 3000) (Demo.f64 0) (Demo.f64 0)]
  = mkSummary (Demo.f64 6) (Demo.f64 1) (Demo.f64 3) (Demo.f64 2).
Proof. vm_compute. reflexivity. Qed.

Example demo_run_drops_the_unparseable_row :
  exists out,
    main Demo.to_datetime Demo.strftime Demo.df_raw (Demo.ui 0 200)
    = (out, Returned tt) /\
    In (st_download_csv Demo.df_plot) out.
Proof.
  eexists. split; [ vm_compute; reflexivity | ]. cbn. tauto.
Qed.

(** C1, as stated, fails in binary64: with the reference points
    (0, 49) -> (0, 1) the slope is the double nearest to 1/49 and
    [evaluate] at 49 gives 0.9999999999999999, not 1. *)
Lemma C1_counterexample_binary64 :
  exists p,
    isfinite (Demo.f64 0) = true /\ isfinite (Demo.f64 49) = true /\
    eqb (Demo.f64 49) (Demo.f64 0) = false /\
    compute_params (Demo.f64 0) (Demo.f64 49) (Demo.f64 0) (Demo.f64 1)
    = Some p /\
    eqb (evaluate p (Demo.f64 49)) (Demo.f64 1) = false.
Proof. eexists. repeat split; vm_compute; reflexivity. Qed.

Lemma C1_witness :
  compute_params (Demo.f64 0) (Demo.f64 200) (Demo.f64 0) (Demo.f64 180)
  = Some (div (sub (Demo.f64 180) (Demo.f64 0)) (sub (Demo.f64 200) (Demo.f64 0)),
          sub (Demo.f64 0)
            (mul (div (sub (Demo.f64 180) (Demo.f64 0))
                    (sub (Demo.f64 200) (Demo.f64 0))) (Demo.f64 0))) /\
  exists p,
    compute_params (Some (Q2Qc 0)) (Some (Q2Qc 49)) (Some (Q2Qc 0)) (Some (Q2Qc 1))
    = Some p /\
    evaluate p (Some (Q2Qc 0)) = Some (Q2Qc 0) /\
    evaluate p (Some (Q2Qc 49)) = Some (Q2Qc 1).
Proof.
  split.
  - apply (proj1 C1_calibration_formulas_and_exactness_without_rounding);
      reflexivity.
  - destruct (proj2 C1_calibration_formulas_and_exactness_without_rounding
                (Q2Qc 0) (Q2Qc 49) (Q2Qc 0) (Q2Qc 1))
      as (p & Hp & _ & Hmin & Hmax).
    + intros Heq. apply (f_equal this) in Heq. discriminate Heq.
    + exists p. repeat split; assumption.
Defined.

Lemma C3_witness :
  isfinite (min_meter (Demo.ui 200 200)) = true /\
  isfinite (max_meter (Demo.ui 200 200)) = true /\
  eqb (max_meter (Demo.ui 200 200)) (min_meter (Demo.ui 200 200)) = true /\
  snd (calibration_and_report Demo.strftime (Demo.ui 200 200) Demo.df_plot)
  = Raised (NameError "m").
Proof.
  assert (isfinite (min_meter (Demo.ui 200 200)) = true) as Hmin by reflexivity.
  assert (isfinite (max_meter (Demo.ui 200 200)) = true) as Hmax by reflexivity.
  assert (eqb (max_meter (Demo.ui 200 200)) (min_meter (Demo.ui 200 200)) = true)
    as Heq by reflexivity.
  split; [ exact Hmin | split; [ exact Hmax | split; [ exact Heq | ] ] ].
  destruct (C3_degenerate_calibration_reported_not_halted Demo.strftime
              (Demo.ui 200 200) Demo.df_plot Hmin Hmax Heq) as (_ & _ & Hrun).
  rewrite Hrun. reflexivity.
Defined.

(** C4, as stated, fails in binary64: for eight PV samples of 100 W each
    the script's total is 0.8 kW, and the sum of the eight kilowatt values
    taken one after the other, as Python's [sum] takes it, is
    0.7999999999999999 kW. *)
Lemma C4_counterexample_binary64 :
  total (summarize PV_W Demo.df_eight) = div (Demo.f64 8) (Demo.f64 10) /\
  eqb (total (summarize PV_W Demo.df_eight))
    (fold_left add (map (fun r => div (PV r) (Demo.f64 1000)) Demo.df_eight)
       (Demo.f64 0))
  = false.
Proof. split; vm_compute; reflexivity. Qed.

Lemma C4_witness :
  total (summarize Meter_W Demo.df_plot)
  = add (div (Demo.f64 3) (Demo.f64 1000)) (div (Demo.f64 5) (Demo.f64 1000)) /\
  eqb (minimum (summarize Meter_W Demo.df_plot))
    (div (Demo.f64 3) (Demo.f64 1000)) = true /\
  leb (div (Demo.f64 5) (Demo.f64 1000))
    (maximum (summarize Meter_W Demo.df_plot)) = true /\
  eqb (total (summarize Meter_W
                [mkRow 1%Z (Some (Q2Qc 0)) (Some (Q2Qc (-5))) (Some (Q2Qc 0));
                 mkRow 2%Z (Some (Q2Qc 0)) (Some (Q2Qc 3)) (Some (Q2Qc 0))]))
    (Some (Q2Qc (8 # 1000))) = true.
Proof.
  destruct (proj1 C4_summarize_kw_meter_absolute spec_float binary64
              binary64_laws Meter_W Demo.df_plot)
    as (_ & Hshort & _ & Hext).
  split; [ | split; [ reflexivity | split ] ].
  - rewrite Hshort by (cbn; lia). reflexivity.
  - cbn in Hext. destruct Hext as (_ & _ & Hbound).
    apply Hbound. right. now left.
  - rewrite (proj2 C4_summarize_kw_meter_absolute). vm_compute. reflexivity.
Defined.

Lemma C5_witness :
  (forall c, In c required_columns -> has_column Demo.df_unparseable c = true) /\
  normalize Demo.to_datetime (rows Demo.df_unparseable) = inr [] /\
  snd (main Demo.to_datetime Demo.strftime Demo.df_unparseable (Demo.ui 0 200))
  = Raised (ValueError Text.NaT_strftime) /\
  exists t,
    representative_date Demo.strftime Demo.df_plot
    = ([], Returned (Demo.strftime "%b %d, %Y" t)) /\
    forall r, In r Demo.df_plot -> (t <= Time r)%Z.
Proof.
  assert (forall c, In c required_columns ->
                    has_column Demo.df_unparseable c = true) as Hcols.
  { intros c [<- | [<- | [<- | [<- | []]]]]; reflexivity. }
  assert (normalize Demo.to_datetime (rows Demo.df_unparseable) = inr [])
    as Hempty by reflexivity.
  split; [ exact Hcols | split; [ exact Hempty | split ] ].
  - assert (exists m b,
               compute_params (min_meter (Demo.ui 0 200)) (max_meter (Demo.ui 0 200))
                 (min_actual (Demo.ui 0 200)) (max_actual (Demo.ui 0 200))
               = Some (m, b)) as (m & b & Hparams)
        by (do 2 eexists; vm_compute; reflexivity).
    rewrite (proj2 (C5_empty_record_set_reaches_representative_date
                      Demo.to_datetime Demo.strftime)
               Demo.df_unparseable (Demo.ui 0 200) m b Hcols Hempty Hparams).
    reflexivity.
  - destruct (proj1 (C5_empty_record_set_reaches_representative_date
                       Demo.to_datetime Demo.strftime) Demo.df_plot)
      as (t & Hdate & _ & Hle); [ discriminate | ].
    exists t. split; assumption.
Defined.

(** C6, as stated, fails in binary64: for PV samples of 100 W and 200 W
    the summary total is 0.1 + 0.2 = 0.30000000000000004 kW and the split
    over the whole range is 300 / 1000 = 0.3 kW. *)
Lemma C6_counterexample_binary64 :
  exists s,
    Time_min Demo.df_plot = Some Demo.t_0220 /\
    Time_max Demo.df_plot = Some Demo.t_0225 /\
    harvest_grid_split Demo.df_plot (Demo.t_0220, Demo.t_0225) = Some s /\
    eqb (total_pv s) (total (summarize PV_W Demo.df_plot)) = false.
Proof. eexists. repeat split; vm_compute; reflexivity. Qed.

Lemma C6_witness :
  (exists time_min time_max s,
      Time_min Demo.df_plot = Some time_min /\
      Time_max Demo.df_plot = Some time_max /\
      harvest_grid_split Demo.df_plot (time_min, time_max) = Some s /\
      total_pv s = div (Series_sum (map PV Demo.df_plot)) (of_Z 1000)) /\
  (exists s,
      harvest_grid_split
        [mkRow 1%Z (Some (Q2Qc 100)) (Some (Q2Qc 3)) (Some (Q2Qc 0));
         mkRow 2%Z (Some (Q2Qc 200)) (Some (Q2Qc 5)) (Some (Q2Qc 0))]
        (1, 2)%Z = Some s /\
      total_pv s
      = total (summarize PV_W
                 [mkRow 1%Z (Some (Q2Qc 100)) (Some (Q2Qc 3)) (Some (Q2Qc 0));
                  mkRow 2%Z (Some (Q2Qc 200)) (Some (Q2Qc 5)) (Some (Q2Qc 0))])).
Proof.
  split.
  - destruct (proj1 C6_full_range_split_equals_totals_without_rounding
                Demo.df_plot) as (t0 & t1 & s & H0 & H1 & Hs & Hpv & _);
      [ discriminate | ].
    exists t0, t1, s. repeat split; assumption.
  - destruct (proj2 C6_full_range_split_equals_totals_without_rounding
                [mkRow 1%Z (Some (Q2Qc 100)) (Some (Q2Qc 3)) (Some (Q2Qc 0));
                 mkRow 2%Z (Some (Q2Qc 200)) (Some (Q2Qc 5)) (Some (Q2Qc 0))])
      as (t0 & t1 & s & H0 & H1 & Hs & Hpv & _); [ discriminate | ].
    injection H0 as <-. injection H1 as <-.
    exists s. split; assumption.
Defined.



Lemma C8_witness :
  normalize Demo.to_datetime (rows Demo.df_raw) = inr Demo.df_plot /\
  main Demo.to_datetime Demo.strftime Demo.df_raw_other_dropped (Demo.ui 0 200)
  = main Demo.to_datetime Demo.strftime Demo.df_raw (Demo.ui 0 200) /\
  main Demo.to_datetime Demo.strftime Demo.df_mixed_offsets (Demo.ui 0 200)
  = ([st_error (Text.time_parse_failed ++ "Mixed timezones detected.")],
     Stopped).
Proof.
  destruct (C8_unparseable_rows_dropped_everywhere Demo.to_datetime
              Demo.strftime Demo.df_raw (Demo.ui 0 200)) as [Hclean _].
  destruct (Hclean _ eq_refl) as (df_plot & Hnorm & _ & _ & Hsame).
  assert (df_plot = Demo.df_plot) as -> by (injection Hnorm as <-; reflexivity).
  split; [ reflexivity | split ].
  - apply Hsame; reflexivity.
  - apply (proj2 (C8_unparseable_rows_dropped_everywhere Demo.to_datetime
                    Demo.strftime Demo.df_mixed_offsets (Demo.ui 0 200)));
      reflexivity.
Defined.

Lemma C9_witness :
  ltb (Demo.f64 100) (Demo.f64 150) = true /\
  filter_range Demo.df_plot PV_W (Demo.f64 150) (Demo.f64 100) = [] /\
  filter_range Demo.df_plot PV_W (Demo.f64 100) (Demo.f64 150)
  = [mkRow Demo.t_0220 (Demo.f64 100) (Demo.f64 (-5)) (Demo.f64 105)].
Proof.
  assert (ltb (Demo.f64 100) (Demo.f64 150) = true) as Hgt by reflexivity.
  split; [ exact Hgt | split; [ | reflexivity ] ].
  exact (proj1 (proj2 (proj2 (proj2
           (C9_filter_range_closed_interval Demo.df_plot PV_W
              (Demo.f64 150) (Demo.f64 100))))) Hgt).
Defined.


(** * The rest of the script *)

(** ** How a sequence of statements ends *)

Section ScriptLemmas.
Context {E A B : Type}.

Lemma snd_bind (c : Script E A) (k : A -> Script E B) :
  snd (bind c k)
  = match snd c with
    | Returned a => snd (k a)
    | Stopped => Stopped
    | Raised e => Raised e
    end.
Proof.
  destruct c as [out [a | | e]]; cbn; try reflexivity.
  destruct (k a); reflexivity.
Qed.

Lemma fst_bind (c : Script E A) (k : A -> Script E B) :
  fst (bind c k)
  = match snd c with
    | Returned a => (fst c ++ fst (k a))%list
    | _ => fst c
    end.
Proof.
  destruct c as [out [a | | e]]; cbn; try reflexivity.
  destruct (k a); reflexivity.
Qed.

Lemma In_fst_bind (e : E) (c : Script E A) (k : A -> Script E B) :
  In e (fst (bind c k)) ->
  In e (fst c) \/ exists a, snd c = Returned a /\ In e (fst (k a)).
Proof.
  rewrite fst_bind. destruct (snd c) as [a | | x] eqn:Hc; auto.
  intros Hin. apply in_app_or in Hin. destruct Hin; eauto.
Qed.
End ScriptLemmas.

Definition no_stop {E A : Type} (c : Script E A) : Prop := snd c <> Stopped.

Lemma no_stop_bind {E A B : Type} (c : Script E A) (k : A -> Script E B) :
  no_stop c -> (forall a, no_stop (k a)) -> no_stop (bind c k).
Proof.
  unfold no_stop. intros Hc Hk. rewrite snd_bind.
  destruct (snd c) as [a | | e]; [ apply Hk | congruence | discriminate ].
Qed.

Ltac no_stop_step :=
  first
    [ apply no_stop_bind; [ | intros ]
    | discriminate
    | match goal with
      | |- no_stop (match ?x with _ => _ end) => destruct x
      | |- no_stop (let (_, _) := ?x in _) => destruct x
      end ].

(** ** Which runs stop, which runs complete *)

Section RunOutcomes.
Context {T : Type} `{ArithLaws T}.
Local Open Scope arith_scope.
Local Open Scope string_scope.

Variable strftime : string -> Z -> string.

Lemma add_markers_silent (ui : UI T) (df : list (Row Z T))
  (fig : list (Trace T)) (col : Channel) :
  fst (add_markers ui df fig col) = [].
Proof.
  unfold add_markers. destruct (negb (show ui col)); [ reflexivity | ].
  destruct df as [ | r df ]; [ reflexivity | ].
  destruct (extrema col (r :: df)) as [[[? ?] [? ?]] | ]; reflexivity.
Qed.

Lemma add_markers_outcome (ui : UI T) (df : list (Row Z T))
  (fig : list (Trace T)) (col : Channel) :
  (show ui col = false \/ df = [] \/ extrema col df <> None ->
   exists fig', snd (add_markers ui df fig col) = Returned fig') /\
  (show ui col = true -> df <> [] -> extrema col df = None ->
   snd (add_markers ui df fig col) = Raised KeyError).
Proof.
  unfold add_markers. split.
  - intros Hok. destruct (show ui col); cbn [negb]; [ | eexists; reflexivity ].
    destruct df as [ | r rest ]; [ eexists; reflexivity | ].
    destruct (extrema col (r :: rest)) as [[[? ?] [? ?]] | ]; [ eexists; reflexivity | ].
    destruct Hok as [Hok | [Hok | Hok]]; congruence.
  - intros -> Hne ->. cbn [negb]. destruct df; [ congruence | reflexivity ].
Qed.

Lemma highlight_range_returns (ui : UI T) (df : list (Row Z T))
  (fig : list (Trace T)) (col : Channel) :
  exists fig', snd (highlight_range ui df fig col) = Returned fig'.
Proof.
  unfold highlight_range. rewrite snd_bind. cbn [snd emit].
  destruct (highlight ui col && show ui col); [ | eexists; reflexivity ].
  rewrite snd_bind. cbn [snd emit]. rewrite snd_bind. cbn [snd emit].
  destruct (filter_range df col _ _); eexists; reflexivity.
Qed.

(** The harvest section ends where the slider lets it: it returns when
    the first and the last timestamp fall in different microseconds, and
    leaves with the slider's exception when they fall in the same. *)
Lemma harvest_vs_grid_outcome (ui : UI T) (df : list (Row Z T))
  (first_time last_time : Z) :
  Time_min df = Some first_time -> Time_max df = Some last_time ->
  snd (harvest_vs_grid strftime ui df)
  = if (to_pydatetime first_time <? to_pydatetime last_time)%Z
    then Returned tt else Raised StreamlitAPIException.
Proof.
  intros Hmin Hmax. unfold harvest_vs_grid. rewrite Hmin, Hmax.
  repeat (rewrite snd_bind; cbn [snd emit]).
  destruct (to_pydatetime first_time <? to_pydatetime last_time)%Z;
    [ | reflexivity ].
  rewrite snd_bind. cbn [snd emit].
  destruct (harvest_grid_split df _); [ | reflexivity ].
  rewrite snd_bind. reflexivity.
Qed.

Lemma to_pydatetime_lt (t t' : Z) :
  (to_pydatetime t < to_pydatetime t' <-> t / 1000 < t' / 1000)%Z.
Proof. unfold to_pydatetime. lia. Qed.

(** The two ends of the slider differ exactly when the table holds two
    records whose timestamps fall in different microseconds. *)
Lemma slider_ends_differ (df : list (Row Z T)) (first_time last_time : Z) :
  Time_min df = Some first_time -> Time_max df = Some last_time ->
  ((to_pydatetime first_time <? to_pydatetime last_time)%Z = true <->
   exists r r', In r df /\ In r' df /\ (Time r / 1000 < Time r' / 1000)%Z).
Proof.
  intros Hmin Hmax.
  assert (df <> []) as Hne by (intros ->; discriminate).
  destruct (Time_min_spec df Hne) as (t0 & Ht0 & (r0 & Hr0 & Hr0t) & Hlow).
  destruct (Time_max_spec df Hne) as (t1 & Ht1 & Hhigh).
  rewrite Hmin in Ht0. rewrite Hmax in Ht1.
  injection Ht0 as <-. injection Ht1 as <-.
  rewrite Z.ltb_lt, to_pydatetime_lt. split.
  - intros Hlt.
    assert (exists r1, In r1 df /\ Time r1 = last_time) as (r1 & Hr1 & Hr1t).
    { destruct df as [ | r rest ]; [ congruence | ].
      cbn [Time_max] in Hmax. injection Hmax as <-.
      destruct (fold_max_spec (map Time rest) (Time r)) as [Hin _].
      change (Time r :: map Time rest) with (map Time (r :: rest)) in Hin.
      apply in_map_iff in Hin. destruct Hin as (r1 & Hr1 & Hin).
      now exists r1. }
    exists r0, r1. rewrite Hr0t, Hr1t. auto.
  - intros (r & r' & Hr & Hr' & Hlt).
    pose proof (Hlow r Hr) as Hl. pose proof (Hhigh r' Hr') as Hh.
    pose proof (Z.div_le_mono first_time (Time r) 1000 ltac:(lia) Hl).
    pose proof (Z.div_le_mono (Time r') last_time 1000 ltac:(lia) Hh).
    lia.
Qed.

(** [extrema] finds its two samples exactly when the channel holds a
    number. *)
Lemma extrema_found_iff (col : Channel) (df : list (Row Z T)) :
  extrema col df <> None <->
  exists r, In r df /\ isnan (get_col col r) = false.
Proof.
  split.
  - intros Hsome.
    destruct (existsb (fun r => negb (isnan (get_col col r))) df) eqn:Hex.
    + apply existsb_exists in Hex. destruct Hex as (r & Hin & Hr).
      exists r. split; [ exact Hin | now apply negb_true_iff in Hr ].
    + exfalso. apply Hsome. unfold extrema. rewrite magnitude_column.
      unfold idxmax. rewrite arg_scan_all_nan; [ reflexivity | ].
      apply Forall_forall. intros x Hx. apply in_map_iff in Hx.
      destruct Hx as (r & <- & Hin). rewrite isnan_magnitude.
      assert (negb (isnan (get_col col r)) = false) as Hr.
      { destruct (negb (isnan (get_col col r))) eqn:Hn; [ | reflexivity ].
        assert (existsb (fun r => negb (isnan (get_col col r))) df = true)
          as Habs by (apply existsb_exists; eauto).
        congruence. }
      now apply negb_false_iff in Hr.
  - intros Hex. destruct (extrema_over_numbers col df Hex)
      as (? & ? & ? & ? & -> & _). discriminate.
Qed.

Lemma calibration_formula_outcome (ui : UI T) :
  snd (calibration_formula ui)
  = Returned (compute_params (min_meter ui) (max_meter ui)
                (min_actual ui) (max_actual ui)).
Proof.
  unfold calibration_formula.
  destruct (compute_params _ _ _ _) as [[m b] | ]; reflexivity.
Qed.

(** Nothing after the column checks calls [st.stop()]. *)
Lemma calibration_and_report_no_stop (ui : UI T) (df : list (Row Z T)) :
  no_stop (calibration_and_report strftime ui df).
Proof.
  unfold calibration_and_report, calibrated_pipeline.
  repeat no_stop_step.
  - unfold no_stop. rewrite calibration_formula_outcome. discriminate.
  - unfold read_m_b. repeat no_stop_step.
  - unfold representative_date. repeat no_stop_step.
  - unfold add_markers. repeat no_stop_step.
  - unfold add_markers. repeat no_stop_step.
  - unfold add_markers. repeat no_stop_step.
  - unfold highlight_range. repeat no_stop_step.
  - unfold highlight_range. repeat no_stop_step.
  - unfold highlight_range. repeat no_stop_step.
  - unfold harvest_vs_grid. repeat no_stop_step.
Qed.
End RunOutcomes.

Section RunClassification.
Context {T : Type} `{ArithLaws T}.
Local Open Scope arith_scope.
Local Open Scope string_scope.

Variable to_datetime : list string -> string + list (option Z).
Variable strftime : string -> Z -> string.

Lemma apply_nil_iff (p : T * T) (df : list (Row Z T)) :
  apply p df = [] <-> df = [].
Proof.
  destruct p as [m b]. unfold apply, set_column.
  destruct df as [ | r df ]; cbn; split; intros; (reflexivity || discriminate).
Qed.

Lemma add_markers_cases (ui : UI T) (df : list (Row Z T))
  (fig : list (Trace T)) (col : Channel) :
  (show ui col = true /\ df <> [] /\ extrema col df = None /\
   snd (add_markers ui df fig col) = Raised KeyError) \/
  ((show ui col = false \/ df = [] \/ extrema col df <> None) /\
   exists fig', snd (add_markers ui df fig col) = Returned fig').
Proof.
  destruct (add_markers_outcome ui df fig col) as [Hret Hraise].
  destruct (show ui col) eqn:Hshow; [ | right; split; auto ].
  destruct df as [ | r rest ]; [ right; split; auto | ].
  destruct (extrema col (r :: rest)) eqn:Hext.
  - right. split; [ right; right; discriminate | ].
    apply Hret. right; right; discriminate.
  - left. repeat split; try discriminate. apply Hraise; congruence.
Qed.

Lemma Time_apply (p : T * T) (df : list (Row Z T)) :
  map Time (apply p df) = map Time df.
Proof.
  destruct p as [m b]. unfold apply, set_column. rewrite !map_map.
  reflexivity.
Qed.

(** The calibration does not move the records in time. *)
Lemma apart_apply (p : T * T) (df : list (Row Z T)) :
  (exists r r', In r (apply p df) /\ In r' (apply p df)
                /\ (Time r / 1000 < Time r' / 1000)%Z) <->
  (exists r r', In r df /\ In r' df /\ (Time r / 1000 < Time r' / 1000)%Z).
Proof.
  assert (forall df1 df2 : list (Row Z T),
            map Time df1 = map Time df2 ->
            (exists r r', In r df1 /\ In r' df1
                          /\ (Time r / 1000 < Time r' / 1000)%Z) ->
            exists r r', In r df2 /\ In r' df2
                         /\ (Time r / 1000 < Time r' / 1000)%Z) as Hmove.
  { intros df1 df2 Hsame (r & r' & Hr & Hr' & Hlt).
    apply (in_map Time) in Hr, Hr'. rewrite Hsame in Hr, Hr'.
    apply in_map_iff in Hr, Hr'.
    destruct Hr as (q & Hq & Hin), Hr' as (q' & Hq' & Hin').
    exists q, q'. rewrite Hq, Hq'. auto. }
  split; apply Hmove; [ | symmetry ]; apply Time_apply.
Qed.

Lemma calibrated_pipeline_completes_iff (ui : UI T) (p : T * T)
  (df : list (Row Z T)) :
  snd (calibrated_pipeline strftime ui p df) = Returned tt <->
  (exists r r', In r df /\ In r' df /\ (Time r / 1000 < Time r' / 1000)%Z) /\
  forall col, show ui col = true -> extrema col (apply p df) <> None.
Proof.
  rewrite <- (apart_apply p df).
  unfold calibrated_pipeline.
  set (df_plot := apply p df) in *.
  repeat (rewrite snd_bind; cbn [snd emit]).
  unfold representative_date. destruct (Time_min df_plot) as [t | ] eqn:Ht.
  2: { cbn. split; [ discriminate | ]. intros [(r & _ & Hr & _) _].
       destruct df_plot; [ destruct Hr | discriminate ]. }
  assert (df_plot <> []) as Hplot by (intros E; rewrite E in Ht; discriminate).
  destruct (Time_max_spec df_plot Hplot) as (t1 & Ht1 & _).
  cbn [snd ret]. repeat (rewrite snd_bind; cbn [snd emit]).
  destruct (add_markers_cases ui df_plot (px_line df_plot (visible_series ui)) PV_W)
    as [(Hs & _ & He & ->) | (Hpv & fig1 & ->)].
  { split; [ discriminate | ]. intros [_ Hall]. now elim (Hall PV_W Hs). }
  rewrite snd_bind.
  destruct (add_markers_cases ui df_plot fig1 Meter_W)
    as [(Hs & _ & He & ->) | (Hmeter & fig2 & ->)].
  { split; [ discriminate | ]. intros [_ Hall]. now elim (Hall Meter_W Hs). }
  rewrite snd_bind.
  destruct (add_markers_cases ui df_plot fig2 Load_W)
    as [(Hs & _ & He & ->) | (Hload & fig3 & ->)].
  { split; [ discriminate | ]. intros [_ Hall]. now elim (Hall Load_W Hs). }
  repeat (rewrite snd_bind; cbn [snd emit]).
  destruct (highlight_range_returns ui df_plot fig3 PV_W) as [fig4 ->].
  rewrite snd_bind.
  destruct (highlight_range_returns ui df_plot fig4 Meter_W) as [fig5 ->].
  rewrite snd_bind.
  destruct (highlight_range_returns ui df_plot fig5 Load_W) as [fig6 ->].
  repeat (rewrite snd_bind; cbn [snd emit]).
  rewrite (harvest_vs_grid_outcome strftime ui df_plot t t1 Ht Ht1).
  pose proof (slider_ends_differ df_plot t t1 Ht Ht1) as Hends.
  assert (forall col, show ui col = true -> extrema col df_plot <> None)
    as Hall.
  { intros col Hshow.
    destruct col;
      [ destruct Hpv as [Hc | [Hc | Hc]]
      | destruct Hmeter as [Hc | [Hc | Hc]]
      | destruct Hload as [Hc | [Hc | Hc]] ];
      congruence. }
  destruct (to_pydatetime t <? to_pydatetime t1)%Z.
  - split; [ intros _ | reflexivity ].
    split; [ now apply Hends | exact Hall ].
  - split; [ discriminate | ]. intros [Hapart _].
    apply Hends in Hapart. discriminate.
Qed.

Lemma calibration_and_report_completes_iff (ui : UI T) (df : list (Row Z T)) :
  snd (calibration_and_report strftime ui df) = Returned tt <->
  exists p,
    compute_params (min_meter ui) (max_meter ui) (min_actual ui) (max_actual ui)
    = Some p /\
    (exists r r', In r df /\ In r' df /\ (Time r / 1000 < Time r' / 1000)%Z) /\
    forall col, show ui col = true -> extrema col (apply p df) <> None.
Proof.
  unfold calibration_and_report.
  repeat (rewrite snd_bind; cbn [snd emit]).
  rewrite calibration_formula_outcome.
  repeat (rewrite snd_bind; cbn [snd emit]).
  destruct (compute_params _ _ _ _) as [p | ]; cbn [read_m_b snd ret raise].
  - rewrite snd_bind. cbn [snd emit].
    rewrite calibrated_pipeline_completes_iff. split.
    + intros [Hne Hall]. exists p. auto.
    + intros (p' & Hp & Hne & Hall). injection Hp as <-. auto.
  - split; [ discriminate | intros (p & Hp & _); discriminate ].
Qed.

Lemma missing_columns_nil_iff (df : DataFrame T) :
  filter (fun c => negb (has_column df c)) required_columns = [] <->
  forall c, In c required_columns -> has_column df c = true.
Proof.
  split.
  - intros Hnil c Hc.
    destruct (has_column df c) eqn:Hhas; [ reflexivity | ].
    assert (In c (filter (fun c => negb (has_column df c)) required_columns))
      as Hin by (apply filter_In; split; [ exact Hc | now rewrite Hhas ]).
    rewrite Hnil in Hin. destruct Hin.
  - intros Hall. apply (has_required_columns df Hall).
Qed.

(** The three ways in which lines 106-125 halt the run, and the run when
    they do not. *)
Lemma main_cases (df_raw : DataFrame T) (ui : UI T) :
  main to_datetime strftime df_raw ui
  = if negb (has_column df_raw "Time") then
      ([st_error Text.no_time_column], Stopped)
    else
      match to_datetime (map Time (rows df_raw)) with
      | inl e => ([st_error (Text.time_parse_failed ++ e)], Stopped)
      | inr parsed =>
          match filter (fun c => negb (has_column df_raw c)) required_columns
          with
          | [] =>
              calibration_and_report strftime ui
                (dropna (assign_Time (rows df_raw) parsed))
          | missing_columns =>
              ([st_error (Text.missing_required
                          ++ String.concat ", " missing_columns)], Stopped)
          end
      end.
Proof.
  unfold main, parse_Time.
  destruct (negb (has_column df_raw "Time")); [ reflexivity | ].
  destruct (to_datetime (map Time (rows df_raw))); [ reflexivity | ].
  destruct (filter _ required_columns); reflexivity.
Qed.

(** X1. The run is halted by [st.stop()] in two cases and in no other:
    one of the four required columns is absent after the renaming, or the
    [Time] column is there and [pd.to_datetime] raises on it.  A single
    error message is then all that lines 106-427 put on the page: the
    request for a [Time] column when that is absent; else the exception of
    [pd.to_datetime]; else the list of all the required columns that are
    absent, in the order PV(W), Meter(W), Load(W). *)
Theorem X1_main_stops_iff_required_column_missing
  (df_raw : DataFrame T) (ui : UI T) :
  (snd (main to_datetime strftime df_raw ui) = Stopped <->
   (exists c, In c required_columns /\ has_column df_raw c = false) \/
   (has_column df_raw "Time" = true /\
    exists e, to_datetime (map Time (rows df_raw)) = inl e)) /\
  (has_column df_raw "Time" = false ->
   main to_datetime strftime df_raw ui
   = ([st_error Text.no_time_column], Stopped)) /\
  (forall e,
      has_column df_raw "Time" = true ->
      to_datetime (map Time (rows df_raw)) = inl e ->
      main to_datetime strftime df_raw ui
      = ([st_error (Text.time_parse_failed ++ e)], Stopped)) /\
  (forall parsed c,
      has_column df_raw "Time" = true ->
      to_datetime (map Time (rows df_raw)) = inr parsed ->
      In c required_columns -> has_column df_raw c = false ->
      main to_datetime strftime df_raw ui
      = ([st_error
            (Text.missing_required
             ++ String.concat ", "
                  (filter (fun c => negb (has_column df_raw c))
                     ["PV(W)"; "Meter(W)"; "Load(W)"]))],
         Stopped)).
Proof.
  rewrite main_cases.
  destruct (has_column df_raw "Time") eqn:Htime; cbn [negb].
  - destruct (to_datetime (map Time (rows df_raw))) as [e | parsed] eqn:Hparse.
    + split; [ | split; [ discriminate | split ] ].
      * split; [ intros _; right; eauto | reflexivity ].
      * intros e' _ [= <-]. reflexivity.
      * discriminate.
    + assert (filter (fun c => negb (has_column df_raw c)) required_columns
              = filter (fun c => negb (has_column df_raw c))
                  ["PV(W)"; "Meter(W)"; "Load(W)"]) as Hfilter
          by (unfold required_columns; cbn [filter]; now rewrite Htime).
      destruct (filter (fun c => negb (has_column df_raw c)) required_columns)
        as [ | c0 missing ] eqn:Hmissing.
      * pose proof (proj1 (missing_columns_nil_iff df_raw) Hmissing) as Hall.
        pose proof (calibration_and_report_no_stop strftime ui
                      (dropna (assign_Time (rows df_raw) parsed))) as Hno.
        split; [ split | split; [ discriminate | split ] ].
        -- intros Hstop. now elim Hno.
        -- intros [(c & Hc & Hhas) | (_ & e & He)]; [ | discriminate ].
           rewrite (Hall c Hc) in Hhas. discriminate.
        -- discriminate.
        -- intros parsed' c _ _ Hc Hhas. rewrite (Hall c Hc) in Hhas.
           discriminate.
      * split; [ split | split; [ discriminate | split ] ].
        -- intros _. left. exists c0.
           assert (In c0 (filter (fun c => negb (has_column df_raw c))
                            required_columns))
             as Hin by (rewrite Hmissing; now left).
           apply filter_In in Hin. destruct Hin as [Hin Hneg].
           split; [ exact Hin | now apply negb_true_iff in Hneg ].
        -- reflexivity.
        -- discriminate.
        -- intros parsed' c _ _ _ _. now rewrite <- Hfilter.
  - split; [ | split; [ reflexivity | split; discriminate ] ].
    split; [ intros _ | reflexivity ].
    left. exists "Time". split; [ now left | exact Htime ].
Qed.

(** X2. The run of lines 106-427 reaches its end exactly when the four
    required columns are present, [pd.to_datetime] hands back the column,
    the calibration inputs give parameters (the division does not raise),
    the cleaned table holds two records whose timestamps fall in different
    microseconds (the slider of line 386 needs two different ends), and
    every channel that is shown holds a number in the calibrated table.
    In every other case it stops or leaves with an exception. *)
Theorem X2_main_completes_iff (df_raw : DataFrame T) (ui : UI T) :
  snd (main to_datetime strftime df_raw ui) = Returned tt <->
  (forall c, In c required_columns -> has_column df_raw c = true) /\
  exists df_plot p,
    normalize to_datetime (rows df_raw) = inr df_plot /\
    compute_params (min_meter ui) (max_meter ui) (min_actual ui) (max_actual ui)
    = Some p /\
    (exists r r', In r df_plot /\ In r' df_plot
                  /\ (Time r / 1000 < Time r' / 1000)%Z) /\
    forall col, show ui col = true ->
      exists r, In r (apply p df_plot) /\ isnan (get_col col r) = false.
Proof.
  rewrite main_cases. unfold normalize, parse_Time.
  destruct (has_column df_raw "Time") eqn:Htime; cbn [negb].
  - destruct (to_datetime (map Time (rows df_raw))) as [e | parsed] eqn:Hparse.
    { split; [ discriminate | ].
      intros (_ & df_plot & p & Hnorm & _). discriminate. }
    destruct (filter (fun c => negb (has_column df_raw c)) required_columns)
      as [ | c0 missing ] eqn:Hmissing.
    + pose proof (proj1 (missing_columns_nil_iff df_raw) Hmissing) as Hall.
      rewrite calibration_and_report_completes_iff. split.
      * intros (p & Hp & Hapart & Hext). split; [ exact Hall | ].
        exists (dropna (assign_Time (rows df_raw) parsed)), p.
        repeat split; try assumption.
        intros col Hshow. apply extrema_found_iff. now apply Hext.
      * intros (_ & df_plot & p & [= <-] & Hp & Hapart & Hnum).
        exists p. repeat split; try assumption.
        intros col Hshow. apply extrema_found_iff. now apply Hnum.
    + split; [ discriminate | ]. intros (Hall & _).
      apply missing_columns_nil_iff in Hall. congruence.
  - split; [ discriminate | ]. intros (Hall & _).
    rewrite (Hall "Time") in Htime by (now left). discriminate.
Qed.
End RunClassification.

(** ** What the figure shows *)

Section Figure.
Context {T : Type} `{Arith T}.
Local Open Scope string_scope.

Variable to_datetime : list string -> string + list (option Z).
Variable strftime : string -> Z -> string.

(** The names of the traces the script can draw for a channel: its line,
    its two markers and its highlight. *)
Definition trace_names (col : Channel) : list string :=
  [channel_name col; channel_name col ++ " Max"; channel_name col ++ " Min";
   channel_name col ++ " Highlight"].

(** A trace of a channel that is shown. *)
Definition drawn_for (ui : UI T) (tr : Trace T) : Prop :=
  exists col, show ui col = true /\ In (name tr) (trace_names col).

Lemma trace_names_disjoint (col col' : Channel) (n : string) :
  In n (trace_names col) -> In n (trace_names col') -> col = col'.
Proof.
  destruct col, col'; cbn; intros Hin Hin'; try reflexivity;
    repeat (destruct Hin as [Hin | Hin]; [ | try contradiction ]);
    subst n;
    repeat (destruct Hin' as [Hin' | Hin']; [ discriminate Hin' | ]);
    contradiction.
Qed.

Lemma px_line_drawn (ui : UI T) (df : list (Row Z T)) :
  Forall (drawn_for ui) (px_line df (visible_series ui)).
Proof.
  apply Forall_forall. intros tr Htr. unfold px_line in Htr.
  apply in_map_iff in Htr. destruct Htr as (col & <- & Hcol).
  unfold visible_series in Hcol. apply filter_In in Hcol.
  exists col. split; [ apply Hcol | now left ].
Qed.

Lemma add_markers_drawn (ui : UI T) (df : list (Row Z T))
  (fig fig' : list (Trace T)) (col : Channel) :
  snd (add_markers ui df fig col) = Returned fig' ->
  Forall (drawn_for ui) fig -> Forall (drawn_for ui) fig'.
Proof.
  unfold add_markers. destruct (show ui col) eqn:Hshow; cbn [negb].
  - destruct df as [ | r rest ].
    + intros [= <-]. auto.
    + destruct (extrema col (r :: rest)) as [[[? ?] [? ?]] | ];
        [ | discriminate ].
      intros [= <-] Hfig. apply Forall_app. split; [ exact Hfig | ].
      repeat constructor; exists col; (split; [ exact Hshow | cbn; tauto ]).
  - intros [= <-]. auto.
Qed.

Lemma highlight_range_drawn (ui : UI T) (df : list (Row Z T))
  (fig fig' : list (Trace T)) (col : Channel) :
  snd (highlight_range ui df fig col) = Returned fig' ->
  Forall (drawn_for ui) fig -> Forall (drawn_for ui) fig'.
Proof.
  unfold highlight_range. rewrite snd_bind. cbn [snd emit].
  destruct (highlight ui col) eqn:Hhl, (show ui col) eqn:Hshow; cbn [andb];
    try (intros [= <-]; now auto).
  rewrite snd_bind. cbn [snd emit]. rewrite snd_bind. cbn [snd emit].
  destruct (filter_range df col _ _) as [ | r sel ].
  - intros [= <-]. auto.
  - intros [= <-] Hfig. unfold add_highlight_trace.
    apply Forall_app. split; [ exact Hfig | ].
    repeat constructor. exists col. split; [ exact Hshow | cbn; tauto ].
Qed.

Lemma highlight_range_widgets (ui : UI T) (df : list (Row Z T))
  (fig : list (Trace T)) (col : Channel) (e : Event T) :
  In e (fst (highlight_range ui df fig col)) -> exists label, e = st_widget label.
Proof.
  unfold highlight_range. rewrite fst_bind. cbn [fst snd emit].
  destruct (highlight ui col && show ui col).
  - repeat (rewrite fst_bind; cbn [fst snd emit]).
    destruct (filter_range df col _ _); cbn;
      intros [<- | [<- | [<- | []]]]; eauto.
  - cbn. intros [<- | []]. eauto.
Qed.

Ltac pass_emit Hin :=
  apply In_fst_bind in Hin;
  destruct Hin as [Hin | ([] & _ & Hin)];
  [ cbn in Hin; destruct Hin as [Hin | []]; discriminate Hin | ].

Lemma harvest_vs_grid_no_chart (ui : UI T) (df : list (Row Z T))
  (fig : list (Trace T)) :
  ~ In (st_line_chart fig) (fst (harvest_vs_grid strftime ui df)).
Proof.
  unfold harvest_vs_grid. intros Hin.
  do 3 pass_emit Hin.
  destruct (Time_min df) as [first_time | ],
           (Time_max df) as [last_time | ]; try (now destruct Hin).
  destruct (to_pydatetime first_time <? to_pydatetime last_time)%Z;
    [ | now destruct Hin ].
  pass_emit Hin.
  destruct (harvest_grid_split df _); cbn in Hin; intuition discriminate.
Qed.

Lemma calibrated_pipeline_chart (ui : UI T) (p : T * T) (df : list (Row Z T))
  (fig : list (Trace T)) :
  In (st_line_chart fig) (fst (calibrated_pipeline strftime ui p df)) ->
  Forall (drawn_for ui) fig.
Proof.
  unfold calibrated_pipeline. set (df_plot := apply p df). intros Hin.
  do 3 pass_emit Hin.
  apply In_fst_bind in Hin. destruct Hin as [Hin | (data_date & _ & Hin)].
  { unfold representative_date in Hin.
    destruct (Time_min df_plot); destruct Hin. }
  do 7 pass_emit Hin.
  apply In_fst_bind in Hin. destruct Hin as [Hin | (fig1 & H1 & Hin)].
  { rewrite add_markers_silent in Hin. destruct Hin. }
  apply In_fst_bind in Hin. destruct Hin as [Hin | (fig2 & H2 & Hin)].
  { rewrite add_markers_silent in Hin. destruct Hin. }
  apply In_fst_bind in Hin. destruct Hin as [Hin | (fig3 & H3 & Hin)].
  { rewrite add_markers_silent in Hin. destruct Hin. }
  pass_emit Hin.
  apply In_fst_bind in Hin. destruct Hin as [Hin | (fig4 & H4 & Hin)].
  { apply highlight_range_widgets in Hin. destruct Hin as [? Hin]. discriminate. }
  apply In_fst_bind in Hin. destruct Hin as [Hin | (fig5 & H5 & Hin)].
  { apply highlight_range_widgets in Hin. destruct Hin as [? Hin]. discriminate. }
  apply In_fst_bind in Hin. destruct Hin as [Hin | (fig6 & H6 & Hin)].
  { apply highlight_range_widgets in Hin. destruct Hin as [? Hin]. discriminate. }
  apply In_fst_bind in Hin. destruct Hin as [Hin | ([] & _ & Hin)].
  - cbn in Hin. destruct Hin as [[= <-] | []].
    pose proof (px_line_drawn ui df_plot) as D0.
    apply (add_markers_drawn _ _ _ _ _ H1) in D0.
    apply (add_markers_drawn _ _ _ _ _ H2) in D0.
    apply (add_markers_drawn _ _ _ _ _ H3) in D0.
    apply (highlight_range_drawn _ _ _ _ _ H4) in D0.
    apply (highlight_range_drawn _ _ _ _ _ H5) in D0.
    apply (highlight_range_drawn _ _ _ _ _ H6) in D0.
    exact D0.
  - now apply harvest_vs_grid_no_chart in Hin.
Qed.

(** X4. Whatever figure a run draws, each of its traces is the line, a
    marker or the highlight of a channel whose box is ticked; a channel
    that is hidden has no trace in the figure. *)
Theorem X4_hidden_series_never_drawn
  (df_raw : DataFrame T) (ui : UI T) (fig : list (Trace T)) :
  In (st_line_chart fig) (fst (main to_datetime strftime df_raw ui)) ->
  Forall (drawn_for ui) fig /\
  forall col tr, show ui col = false -> In tr fig ->
                 ~ In (name tr) (trace_names col).
Proof.
  intros Hin.
  assert (Forall (drawn_for ui) fig) as Hdrawn.
  { unfold main in Hin.
    destruct (negb (has_column df_raw "Time")).
    { cbn in Hin. destruct Hin as [E | []]. discriminate E. }
    destruct (parse_Time to_datetime (rows df_raw)) as [e | parsed].
    { cbn in Hin. destruct Hin as [E | []]. discriminate E. }
    destruct (filter _ required_columns).
    2: { cbn in Hin. destruct Hin as [E | []]. discriminate E. }
    unfold calibration_and_report in Hin.
    do 7 pass_emit Hin.
    apply In_fst_bind in Hin. destruct Hin as [Hin | (env & _ & Hin)].
    { unfold calibration_formula in Hin.
      destruct (compute_params _ _ _ _) as [[m b] | ]; cbn in Hin;
        destruct Hin as [E | []]; discriminate E. }
    do 2 pass_emit Hin.
    apply In_fst_bind in Hin. destruct Hin as [Hin | (p & _ & Hin)].
    { destruct env; destruct Hin. }
    pass_emit Hin.
    now apply calibrated_pipeline_chart in Hin. }
  split; [ exact Hdrawn | ].
  intros col tr Hhidden Htr Hname.
  rewrite Forall_forall in Hdrawn.
  destruct (Hdrawn tr Htr) as (col' & Hshown & Hname').
  rewrite (trace_names_disjoint _ _ _ Hname Hname') in Hhidden. congruence.
Qed.
End Figure.

(** ** The harvest section and the cleaning, in order *)

Lemma filter_all {A : Type} (f : A -> bool) (l : list A) :
  (forall x, In x l -> f x = true) -> filter f l = l.
Proof.
  induction l as [ | x l IH ]; intros Hall; cbn [filter]; [ reflexivity | ].
  rewrite (Hall x (or_introl eq_refl)). f_equal.
  apply IH. intros y Hy. apply Hall. now right.
Qed.

Section HarvestAndCleaning.
Context {T : Type} `{Arith T}.
Local Open Scope arith_scope.
Local Open Scope string_scope.

Variable to_datetime : list string -> string + list (option Z).
Variable strftime : string -> Z -> string.

Lemma df_total_none (df : list (Row Z T)) (range : Z * Z) :
  (forall r, In r df -> ~ (fst range <= Time r <= snd range)%Z) ->
  df_total df range = [].
Proof.
  intros Hout. unfold df_total.
  induction df as [ | r df IH ]; [ reflexivity | ]. cbn [filter].
  destruct ((fst range <=? Time r)%Z && (Time r <=? snd range)%Z) eqn:Hin.
  - apply andb_prop in Hin. destruct Hin as [H0 H1].
    apply Z.leb_le in H0, H1. elim (Hout r (or_introl eq_refl)). lia.
  - apply IH. intros r' Hr'. apply Hout. now right.
Qed.

(** From a lower end that no record is before, the range cuts at its
    upper end only. *)
Lemma df_total_upper (df : list (Row Z T)) (lo hi : Z) :
  (forall r, In r df -> (lo <= Time r)%Z) ->
  df_total df (lo, hi) = filter (fun r => (Time r <=? hi)%Z) df.
Proof.
  intros Hlow. unfold df_total. cbn [fst snd]. apply filter_ext_in.
  intros r Hr. rewrite (proj2 (Z.leb_le _ _) (Hlow r Hr)). reflexivity.
Qed.

(** X5. The harvest section on a table that is not empty.  The slider
    gets the first and the last timestamp without their nanoseconds.
    When the two fall in the same microsecond (a single record, for one)
    the slider refuses them and the run leaves with its exception after
    the three texts.  Otherwise the section never fails.  With the slider
    untouched it shows the donut over the records up to the last
    timestamp cut to microseconds, which are all the records when that
    timestamp has no nanoseconds, and the first record in any case, with
    load = solar + grid, followed by the two ends of the slider.  With a
    range that holds no timestamp it shows the warning of line 396
    instead, and the run goes on. *)
Theorem X5_harvest_section_donut_or_warning
  (ui : UI T) (df : list (Row Z T)) (first_time last_time : Z) :
  Time_min df = Some first_time -> Time_max df = Some last_time ->
  ((first_time / 1000 = last_time / 1000)%Z ->
   harvest_vs_grid strftime ui df
   = ([st_text "HARVEST VS GRID";
       st_text Text.harvest_about;
       st_text Text.harvest_totals],
      Raised StreamlitAPIException)) /\
  ((first_time / 1000 < last_time / 1000)%Z ->
   snd (harvest_vs_grid strftime ui df) = Returned tt /\
   (total_time_range ui = None ->
    exists s,
      harvest_grid_split df (to_pydatetime first_time, to_pydatetime last_time)
      = Some s /\
      df_total df (to_pydatetime first_time, to_pydatetime last_time)
      = filter (fun r => (Time r <=? to_pydatetime last_time)%Z) df /\
      (exists r, In r df /\ Time r = first_time /\
                 In r (df_total df (to_pydatetime first_time,
                                    to_pydatetime last_time))) /\
      ((last_time mod 1000 = 0)%Z ->
       df_total df (to_pydatetime first_time, to_pydatetime last_time) = df) /\
      total_load s = total_pv s + total_meter_abs s /\
      harvest_vs_grid strftime ui df
      = ([st_text "HARVEST VS GRID";
          st_text Text.harvest_about;
          st_text Text.harvest_totals;
          st_widget "Select Time Range for Total Calculation";
          st_donut s;
          st_selected_range
            (strftime "%b %d, %Y %H:%M:%S" (to_pydatetime first_time))
            (strftime "%b %d, %Y %H:%M:%S" (to_pydatetime last_time))],
         Returned tt)) /\
   (forall range,
       total_time_range ui = Some range ->
       (forall r, In r df -> ~ (fst range <= Time r <= snd range)%Z) ->
       harvest_vs_grid strftime ui df
       = ([st_text "HARVEST VS GRID";
           st_text Text.harvest_about;
           st_text Text.harvest_totals;
           st_widget "Select Time Range for Total Calculation";
           st_warning Text.no_data_in_range],
          Returned tt))).
Proof.
  intros Hmin Hmax.
  assert (df <> []) as Hne by (intros ->; discriminate).
  destruct (Time_min_spec df Hne) as (t0 & Ht0 & (r0 & Hr0 & Hr0t) & Hlow).
  destruct (Time_max_spec df Hne) as (t1 & Ht1 & Hhigh).
  rewrite Hmin in Ht0. rewrite Hmax in Ht1.
  injection Ht0 as <-. injection Ht1 as <-.
  split.
  - intros Hsame. unfold harvest_vs_grid. rewrite Hmin, Hmax.
    replace (to_pydatetime first_time <? to_pydatetime last_time)%Z
      with false; [ reflexivity | ].
    symmetry. apply Z.ltb_ge. unfold to_pydatetime. lia.
  - intros Hapart.
    assert ((to_pydatetime first_time <? to_pydatetime last_time)%Z = true)
      as Hends by (apply Z.ltb_lt; unfold to_pydatetime; lia).
    assert (forall r, In r df -> (to_pydatetime first_time <= Time r)%Z)
      as Hfrom.
    { intros r Hr. pose proof (Hlow r Hr). unfold to_pydatetime.
      Z.div_mod_to_equations. lia. }
    pose proof (df_total_upper df (to_pydatetime first_time)
                  (to_pydatetime last_time) Hfrom) as Hsel.
    assert (In r0 (df_total df (to_pydatetime first_time,
                                to_pydatetime last_time))) as Hfirst.
    { rewrite Hsel. apply filter_In. split; [ exact Hr0 | ].
      apply Z.leb_le. rewrite Hr0t. unfold to_pydatetime.
      Z.div_mod_to_equations. lia. }
    split; [ | split ].
    + unfold harvest_vs_grid. rewrite Hmin, Hmax.
      repeat (rewrite snd_bind; cbn [snd emit]). rewrite Hends.
      rewrite snd_bind. cbn [snd emit].
      destruct (harvest_grid_split df _); [ | reflexivity ].
      rewrite snd_bind. reflexivity.
    + intros Hrange.
      destruct (harvest_grid_split df (to_pydatetime first_time,
                                       to_pydatetime last_time))
        as [s | ] eqn:Hs.
      2: { unfold harvest_grid_split in Hs.
           destruct (df_total df _); [ destruct Hfirst | discriminate ]. }
      exists s. split; [ reflexivity | split; [ exact Hsel | split ] ].
      { exists r0. auto. }
      split; [ | split ].
      * intros Hwhole. rewrite Hsel. apply filter_all.
        intros r Hr. apply Z.leb_le. pose proof (Hhigh r Hr).
        unfold to_pydatetime. Z.div_mod_to_equations. lia.
      * unfold harvest_grid_split in Hs.
        destruct (df_total df _); [ discriminate | ].
        injection Hs as <-. reflexivity.
      * unfold harvest_vs_grid. rewrite Hmin, Hmax, Hends, Hrange, Hs.
        reflexivity.
    + intros range Hrange Hout.
      unfold harvest_vs_grid, harvest_grid_split.
      rewrite Hmin, Hmax, Hends, Hrange, (df_total_none df range Hout).
      reflexivity.
Qed.

(** The rows of the cleaned table, as times and values, read off the raw
    table and the parsed column side by side. *)
Definition timed_rows (df : list (Row string T)) (parsed : list (option Z))
  : list (Z * T * T * T) :=
  flat_map (fun rt : Row string T * option Z =>
              match snd rt with
              | Some t => [(t, PV (fst rt), Meter (fst rt), Load (fst rt))]
              | None => []
              end)
    (combine df parsed).

Lemma cleaned_in_order (df : list (Row string T)) :
  forall parsed : list (option Z),
  map (fun r => (Time r, PV r, Meter r, Load r))
    (dropna (assign_Time df parsed))
  = timed_rows df parsed.
Proof.
  unfold timed_rows.
  induction df as [ | raw df IH ]; intros parsed; [ reflexivity | ].
  destruct parsed as [ | [t | ] parsed ];
    cbn [assign_Time dropna Time PV Meter Load tl combine flat_map
         fst snd app map].
  - clear IH. induction df as [ | raw' df IH ]; [ reflexivity | exact IH ].
  - now rewrite IH.
  - apply IH.
Qed.

Lemma cleaned_length (df : list (Row string T)) :
  forall parsed : list (option Z),
  (List.length (dropna (assign_Time df parsed)) <= List.length df)%nat /\
  (List.length parsed = List.length df ->
   Forall (fun t => t <> None) parsed ->
   List.length (dropna (assign_Time df parsed)) = List.length df).
Proof.
  induction df as [ | raw df IH ]; intros parsed; [ split; reflexivity | ].
  destruct (IH (tl parsed)) as [Hle Hall].
  destruct parsed as [ | [t | ] parsed ];
    cbn [assign_Time dropna Time tl List.length] in *.
  - split; [ lia | discriminate ].
  - split; [ lia | ]. intros [= Hlen] Hnum.
    inversion Hnum; subst. now rewrite Hall.
  - split; [ lia | ]. intros _ Hnum. inversion Hnum; subst. congruence.
Qed.

(** X6. When [pd.to_datetime] hands back the column, the cleaning keeps
    the rows whose entry in it is a time, in the order of the file, each
    with that time and its own three values; it never adds a row; and
    when every entry is a time no row is lost.  When [pd.to_datetime]
    raises there is no cleaned table. *)
Theorem X6_normalize_keeps_rows_in_order (df : list (Row string T)) :
  (forall parsed,
      to_datetime (map Time df) = inr parsed ->
      exists df_plot,
        normalize to_datetime df = inr df_plot /\
        map (fun r => (Time r, PV r, Meter r, Load r)) df_plot
        = timed_rows df parsed /\
        (List.length df_plot <= List.length df)%nat /\
        (List.length parsed = List.length df ->
         Forall (fun t => t <> None) parsed ->
         List.length df_plot = List.length df)) /\
  (forall e,
      to_datetime (map Time df) = inl e -> normalize to_datetime df = inl e).
Proof.
  split.
  - intros parsed Hparsed. exists (dropna (assign_Time df parsed)).
    split; [ unfold normalize, parse_Time; now rewrite Hparsed | ].
    split; [ apply cleaned_in_order | apply cleaned_length ].
  - intros e He. unfold normalize, parse_Time. now rewrite He.
Qed.
End HarvestAndCleaning.

(** ** The default calibration *)

Module B64Identity.
Local Open Scope Z_scope.
Import B64.

(** Appending [d] zero bits adds [d] digits. *)
Lemma digits2_pos_iter_xO (m d : positive) :
  Zpos (digits2_pos (Pos.iter xO m d)) = Zpos (digits2_pos m) + Zpos d.
Proof.
  induction d as [ | d IH ] using Pos.peano_ind.
  - cbn. lia.
  - rewrite Pos.iter_succ. cbn [digits2_pos]. rewrite Pos2Z.inj_succ, IH. lia.
Qed.

(** The product of 1.0 and a float is the float: nothing is rounded. *)
Lemma SFmul_one_finite (s : bool) (m : positive) (e : Z) :
  bounded prec emax m e = true ->
  SFmul prec emax (of_Z 1) (S754_finite s m e) = S754_finite s m e.
Proof.
  unfold bounded, canonical_mantissa. intros Hb.
  apply andb_prop in Hb. destruct Hb as [Hc He].
  apply Z.eqb_eq in Hc.
  change (of_Z 1) with (S754_finite false 4503599627370496 (-52)).
  cbn [SFmul xorb].
  change (Pos.mul 4503599627370496 m) with (Pos.iter xO m 52).
  unfold binary_round_aux.
  assert (shr_fexp prec emax (Zpos (Pos.iter xO m 52)) (-52 + e) loc_Exact
          = ({| shr_m := Zpos m; shr_r := false; shr_s := false |}, e)) as Hshr.
  { unfold shr_fexp. cbn [Zdigits2]. rewrite digits2_pos_iter_xO.
    replace (Zpos (digits2_pos m) + 52 + (-52 + e)) with (Zpos (digits2_pos m) + e) by lia.
    rewrite Hc. replace (e - (-52 + e)) with 52 by lia.
    unfold shr. cbv beta iota.
    replace (iter_pos shr_1 52
               (shr_record_of_loc (Zpos (Pos.iter xO m 52)) loc_Exact))
      with {| shr_m := Zpos m; shr_r := false; shr_s := false |}
      by reflexivity.
    f_equal. lia. }
  rewrite Hshr. cbn [shr_m loc_of_shr_record round_nearest_even].
  assert (shr_fexp prec emax (Zpos m) e loc_Exact
          = ({| shr_m := Zpos m; shr_r := false; shr_s := false |}, e)) as Hshr2.
  { unfold shr_fexp. cbn [Zdigits2]. rewrite Hc, Z.sub_diag. reflexivity. }
  rewrite Hshr2. cbn [shr_m]. rewrite He. reflexivity.
Qed.

(** The float with the sign of a zero forgotten. *)
Definition unsigned_zero (x : spec_float) : spec_float :=
  match x with
  | S754_zero _ => S754_zero false
  | _ => x
  end.

Lemma SFmul_one (x : spec_float) :
  valid_binary prec emax x = true -> SFmul prec emax (of_Z 1) x = x.
Proof.
  destruct x as [s | s | | s m e]; try reflexivity.
  intros Hb. now apply SFmul_one_finite.
Qed.

Lemma SFadd_zero (x : spec_float) :
  SFadd prec emax x (of_Z 0) = unsigned_zero x.
Proof.
  destruct x as [[ | ] | [ | ] | | s m e]; reflexivity.
Qed.
End B64Identity.


Section DefaultCalibration.
Local Open Scope arith_scope.

Definition valid_row (r : Row Z spec_float) : Prop :=
  valid_binary B64.prec B64.emax (PV r) = true /\
  valid_binary B64.prec B64.emax (Meter r) = true /\
  valid_binary B64.prec B64.emax (Load r) = true.

Lemma evaluate_one_zero (x : spec_float) :
  valid_binary B64.prec B64.emax x = true ->
  evaluate (of_Z 1, of_Z 0) x = B64Identity.unsigned_zero x.
Proof.
  intros Hx. unfold evaluate. cbn [mul add binary64].
  change (of_Z 1 : spec_float) with (B64.of_Z 1).
  rewrite (B64Identity.SFmul_one x Hx).
  exact (B64Identity.SFadd_zero x).
Qed.

Lemma unsigned_zero_eqb (x : spec_float) :
  isnan x = false -> eqb (B64Identity.unsigned_zero x) x = true.
Proof.
  intros Hx. cbn [eqb binary64]. unfold SFeqb.
  rewrite B64Order.SFcompare_key.
  - replace (B64Order.key (B64Identity.unsigned_zero x)) with (B64Order.key x)
      by (destruct x; reflexivity).
    now rewrite B64Order.lex_refl.
  - destruct x; (reflexivity || discriminate).
  - exact Hx.
Qed.

(** X3. The reference inputs the widgets start with, 0 and 200 on both
    sides, give the slope 1.0 and the intercept 0.0, and with these
    parameters the calibration changes nothing: every value of every
    record comes out as it went in, except that a negative zero becomes a
    positive zero, so each calibrated value that is a number compares
    equal to the raw one; the what-if reading does the same. *)
Theorem X3_default_calibration_is_identity (df : list (Row Z spec_float)) :
  Forall valid_row df ->
  compute_params (of_Z 0) (of_Z 200) (of_Z 0) (of_Z 200)
  = Some (of_Z 1, of_Z 0 : spec_float) /\
  apply (of_Z 1, of_Z 0) df
  = map (fun r => mkRow (Time r) (B64Identity.unsigned_zero (PV r))
                    (B64Identity.unsigned_zero (Meter r))
                    (B64Identity.unsigned_zero (Load r))) df /\
  Forall2 (fun r r' =>
             Time r' = Time r /\
             forall col, isnan (get_col col r) = false ->
                         eqb (get_col col r') (get_col col r) = true)
    df (apply (of_Z 1, of_Z 0) df) /\
  forall x, valid_binary B64.prec B64.emax x = true ->
            evaluate (of_Z 1, of_Z 0) x = B64Identity.unsigned_zero x.
Proof.
  intros Hvalid.
  assert (apply (of_Z 1, of_Z 0) df
          = map (fun r => mkRow (Time r) (B64Identity.unsigned_zero (PV r))
                            (B64Identity.unsigned_zero (Meter r))
                            (B64Identity.unsigned_zero (Load r))) df) as Happly.
  { unfold apply, set_column. rewrite !map_map.
    apply map_ext_in. intros r Hr. rewrite Forall_forall in Hvalid.
    destruct (Hvalid r Hr) as (Hpv & Hmeter & Hload). cbn [Time PV Meter Load].
    pose proof (evaluate_one_zero _ Hpv) as E1.
    pose proof (evaluate_one_zero _ Hmeter) as E2.
    pose proof (evaluate_one_zero _ Hload) as E3.
    unfold evaluate in E1, E2, E3. now rewrite E1, E2, E3. }
  split; [ vm_compute; reflexivity | ].
  split; [ exact Happly | ].
  split; [ | exact evaluate_one_zero ].
  rewrite Happly. clear Happly Hvalid.
  induction df as [ | r df IH ]; cbn [map]; constructor; [ | exact IH ].
  split; [ reflexivity | ].
  intros col Hnum. destruct col; cbn [get_col PV Meter Load] in *;
    now apply unsigned_zero_eqb.
Qed.
End DefaultCalibration.

(** ** Renaming the columns *)

Section Renaming.
Context {T : Type} `{Arith T}.
Local Open Scope string_scope.

Variable to_datetime : list string -> string + list (option Z).
Variable strftime : string -> Z -> string.
Variable File : Type.

(** How the label of one column may change in a run that starts with the
    labels [cols0]: not at all, or from a name that is not required to a
    required name that was missing from [cols0] and whose button has been
    clicked. *)
Definition relabelled (a : AppUI T File) (cols0 : list string)
  (c c' : string) : Prop :=
  c' = c \/
  (~ In c required_columns /\ In c' required_columns /\
   clicked a c' = true /\ ~ In c' cols0).

Lemma relabelled_trans (a : AppUI T File) (cols0 : list string)
  (c0 c1 c2 : string) :
  relabelled a cols0 c0 c1 -> relabelled a cols0 c1 c2 ->
  relabelled a cols0 c0 c2.
Proof.
  intros [-> | (Hn0 & Hr1 & Hc1)] [-> | (Hn1 & Hr2 & Hc2)];
    unfold relabelled; auto; contradiction.
Qed.

Lemma Forall2_relabelled_refl (a : AppUI T File) (cols0 cols : list string) :
  Forall2 (relabelled a cols0) cols cols.
Proof. induction cols; constructor; auto. now left. Qed.

Lemma Forall2_relabelled_trans (a : AppUI T File) (cols0 l0 l1 l2 : list string) :
  Forall2 (relabelled a cols0) l0 l1 -> Forall2 (relabelled a cols0) l1 l2 ->
  Forall2 (relabelled a cols0) l0 l2.
Proof.
  intros H01. revert l2. induction H01 as [ | c0 c1 l0 l1 Hc _ IH ];
    intros l2 H12; inversion H12; subst; constructor.
  - eapply relabelled_trans; eassumption.
  - now apply IH.
Qed.

(** A required name that is among the labels stays among them. *)
Lemma relabelled_keeps (a : AppUI T File) (cols0 l l' : list string)
  (d : string) :
  Forall2 (relabelled a cols0) l l' -> In d required_columns ->
  In d l -> In d l'.
Proof.
  intros Hrel Hd. induction Hrel as [ | c c' l l' Hc _ IH ]; intros Hin;
    [ destruct Hin | ].
  destruct Hin as [-> | Hin]; [ | right; now apply IH ].
  left. destruct Hc as [-> | (Hn & _)]; [ reflexivity | contradiction ].
Qed.

Lemma has_column_In (df : DataFrame T) (c : string) :
  has_column df c = true <-> In c (columns df).
Proof.
  unfold has_column. rewrite existsb_exists. split.
  - intros (x & Hx & Heq). apply String.eqb_eq in Heq. now subst.
  - intros Hin. exists c. split; [ exact Hin | apply String.eqb_refl ].
Qed.

Lemma available_not_required (cols : list string) (c : string) :
  In c (available_options cols) -> In c cols /\ ~ In c required_columns.
Proof.
  unfold available_options. rewrite filter_In. intros [Hin Hneg].
  split; [ exact Hin | ]. intros Hreq.
  apply negb_true_iff in Hneg.
  assert (existsb (String.eqb c) required_columns = true) as Habs
      by (apply existsb_exists; exists c; split;
          [ exact Hreq | apply String.eqb_refl ]).
  congruence.
Qed.

Lemma selectbox_In (options : list string) (position : nat) :
  options <> [] -> In (selectbox options position) options.
Proof.
  intros Hne. unfold selectbox.
  destruct (Nat.lt_ge_cases position (List.length options)) as [Hlt | Hge].
  - now apply nth_In.
  - rewrite nth_overflow by assumption.
    destruct options; [ congruence | now left ].
Qed.

Lemma rename_relabelled (a : AppUI T File) (cols0 : list string)
  (c d : string) (cols : list string) :
  ~ In c required_columns -> In d required_columns -> clicked a d = true ->
  ~ In d cols0 ->
  Forall2 (relabelled a cols0) cols (rename c d cols).
Proof.
  intros Hc Hd Hclick Hmissing. unfold rename.
  induction cols as [ | x cols IH ]; cbn [map]; constructor; [ | exact IH ].
  destruct (String.eqb x c) eqn:Heq; [ | now left ].
  apply String.eqb_eq in Heq. subst x. right. auto.
Qed.

(** One turn of the loop never stops nor fails, and only relabels. *)
Lemma rename_step_relabels (a : AppUI T File) (cols0 cols : list string)
  (d : string) :
  In d required_columns -> Forall2 (relabelled a cols0) cols0 cols ->
  exists cols', snd (rename_step a cols d) = Returned cols' /\
                Forall2 (relabelled a cols0) cols0 cols'.
Proof.
  intros Hd Hsofar. unfold rename_step.
  destruct (existsb (String.eqb d) cols) eqn:Hpresent.
  { exists cols. split; [ reflexivity | exact Hsofar ]. }
  destruct (available_options cols) as [ | o options ] eqn:Hopt.
  { exists cols. split; [ reflexivity | exact Hsofar ]. }
  repeat (rewrite snd_bind; cbn [snd emit]).
  destruct (clicked a d) eqn:Hclick.
  - eexists. split; [ reflexivity | ].
    apply (Forall2_relabelled_trans a cols0 cols0 cols); [ exact Hsofar | ].
    apply rename_relabelled; try assumption.
    + apply (available_not_required cols). rewrite Hopt.
      apply selectbox_In. discriminate.
    + intros Hin0.
      pose proof (relabelled_keeps a cols0 cols0 cols d Hsofar Hd Hin0) as Hin.
      assert (existsb (String.eqb d) cols = true) as Habs
          by (apply existsb_exists; exists d; split;
              [ exact Hin | apply String.eqb_refl ]).
      congruence.
  - exists cols. split; [ reflexivity | exact Hsofar ].
Qed.

Lemma rename_loop_relabels (a : AppUI T File) (cols0 : list string)
  (desired : list string) :
  (forall d, In d desired -> In d required_columns) ->
  forall cols, Forall2 (relabelled a cols0) cols0 cols ->
  exists cols', snd (rename_loop a desired cols) = Returned cols' /\
                Forall2 (relabelled a cols0) cols0 cols'.
Proof.
  induction desired as [ | d desired IH ]; intros Hsub cols Hsofar;
    cbn [rename_loop].
  - exists cols. split; [ reflexivity | exact Hsofar ].
  - destruct (rename_step_relabels a cols0 cols d) as (cols1 & Hstep & H1);
      [ apply Hsub; now left | exact Hsofar | ].
    destruct (IH (fun x Hx => Hsub x (or_intror Hx)) cols1 H1)
      as (cols2 & Hloop & H2).
    exists cols2. rewrite snd_bind, Hstep. split; [ exact Hloop | exact H2 ].
Qed.

Lemma rename_columns_outcome (a : AppUI T File) (df : DataFrame T) :
  snd (rename_columns a df)
  = match snd (rename_loop a required_columns (columns df)) with
    | Returned cols => Returned (mkDataFrame cols (rows df))
    | Stopped => Stopped
    | Raised e => Raised e
    end.
Proof.
  unfold rename_columns. repeat (rewrite snd_bind; cbn [snd emit]).
  destruct (snd (rename_loop a required_columns (columns df))); [ | reflexivity | reflexivity ].
  repeat (rewrite snd_bind; cbn [snd emit]). reflexivity.
Qed.

Lemma relabelled_nth_required (a : AppUI T File) (cols0 l l' : list string) :
  Forall2 (relabelled a cols0) l l' ->
  forall i c, nth_error l i = Some c -> In c required_columns ->
              nth_error l' i = Some c.
Proof.
  induction 1 as [ | c0 c1 l0 l1 Hc _ IH ]; intros i c Hi Hreq.
  - destruct i; discriminate.
  - destruct i as [ | i ]; cbn in *.
    + injection Hi as ->. destruct Hc as [-> | (Hn & _)];
        [ reflexivity | contradiction ].
    + now apply IH.
Qed.

Lemma relabelled_nth_present (a : AppUI T File) (cols0 l l' : list string) :
  Forall2 (relabelled a cols0) l l' ->
  forall i c d, nth_error l i = Some c -> nth_error l' i = Some d ->
                In d cols0 -> d = c.
Proof.
  induction 1 as [ | c0 c1 l0 l1 Hc _ IH ]; intros i c d Hi Hi' Hd.
  - destruct i; discriminate.
  - destruct i as [ | i ]; cbn in *.
    + injection Hi as ->. injection Hi' as ->.
      destruct Hc as [-> | (_ & _ & _ & Hmissing)];
        [ reflexivity | contradiction ].
    + eapply IH; eassumption.
Qed.

(** X7. The renaming block always hands on a table: it never stops and
    never fails.  The rows are untouched and the columns keep their number
    and their order.  A column that already carries a required name keeps
    it, and a label changes only from a name that is not required to a
    required name that the uploaded file did not have and whose button was
    clicked; a required name that the file has is given to no other
    column. *)
Theorem X7_renaming_only_relabels (a : AppUI T File) (df_raw : DataFrame T) :
  exists cols,
    snd (rename_columns a df_raw) = Returned (mkDataFrame cols (rows df_raw)) /\
    Forall2 (relabelled a (columns df_raw)) (columns df_raw) cols /\
    List.length cols = List.length (columns df_raw) /\
    (forall i c, nth_error (columns df_raw) i = Some c ->
                 In c required_columns -> nth_error cols i = Some c) /\
    (forall i c d, nth_error (columns df_raw) i = Some c ->
                   nth_error cols i = Some d -> In d (columns df_raw) ->
                   d = c).
Proof.
  destruct (rename_loop_relabels a (columns df_raw) required_columns
              (fun d Hd => Hd) (columns df_raw)
              (Forall2_relabelled_refl a _ _)) as (cols & Hloop & Hrel).
  exists cols. rewrite rename_columns_outcome, Hloop.
  split; [ reflexivity | split; [ exact Hrel | split; [ | split ] ] ].
  - symmetry. eapply Forall2_length. exact Hrel.
  - intros i c. now apply (relabelled_nth_required a _ _ _ Hrel).
  - intros i c d. now apply (relabelled_nth_present a _ _ _ Hrel).
Qed.
End Renaming.

Section OneClick.
Context {T : Type} `{Arith T}.
Local Open Scope string_scope.

Variable File : Type.

Lemma existsb_eqb_In (c : string) (cols : list string) :
  existsb (String.eqb c) cols = true <-> In c cols.
Proof.
  rewrite existsb_exists. split.
  - intros (x & Hx & Heq). apply String.eqb_eq in Heq. now subst.
  - intros Hin. exists c. split; [ exact Hin | apply String.eqb_refl ].
Qed.

(** A turn of the loop for a name that is present, or whose button is not
    clicked, leaves the labels alone and announces no renaming. *)
Lemma rename_step_idle (a : AppUI T File) (cols : list string) (x : string) :
  clicked a x = false \/ In x cols ->
  snd (rename_step a cols x) = Returned cols /\
  forall c d, ~ In (st_renamed c d) (fst (rename_step a cols x)).
Proof.
  intros Hidle. unfold rename_step.
  destruct (existsb (String.eqb x) cols) eqn:Hx.
  { split; [ reflexivity | intros c d [] ]. }
  destruct Hidle as [Hclick | Hin].
  2: { apply existsb_eqb_In in Hin. congruence. }
  destruct (available_options cols) as [ | o options ].
  { split; [ reflexivity | ]. intros c d [E | []]. discriminate E. }
  rewrite Hclick. split; [ reflexivity | ].
  intros c d [E | [E | []]]; discriminate E.
Qed.

Lemma rename_loop_idle (a : AppUI T File) (desired : list string) :
  forall cols,
  (forall x, In x desired -> clicked a x = false \/ In x cols) ->
  snd (rename_loop a desired cols) = Returned cols.
Proof.
  induction desired as [ | x desired IH ]; intros cols Hidle;
    cbn [rename_loop]; [ reflexivity | ].
  rewrite snd_bind.
  destruct (rename_step_idle a cols x (Hidle x (or_introl eq_refl))) as [-> _].
  apply IH. intros y Hy. apply Hidle. now right.
Qed.

Lemma rename_In (c d : string) (cols : list string) :
  In c cols -> In d (rename c d cols).
Proof.
  intros Hin. unfold rename. apply in_map_iff. exists c.
  split; [ now rewrite String.eqb_refl | exact Hin ].
Qed.

Lemma rename_step_clicked (a : AppUI T File) (cols : list string) (d : string) :
  ~ In d cols -> available_options cols <> [] -> clicked a d = true ->
  rename_step a cols d
  = ([page (st_widget ("Select a column to rename to '" ++ d ++ "'"));
      page (st_widget
              ("Rename '" ++ selectbox (available_options cols) (selected a d)
               ++ "' to '" ++ d ++ "'"));
      st_renamed (selectbox (available_options cols) (selected a d)) d],
     Returned (rename (selectbox (available_options cols) (selected a d)) d cols)).
Proof.
  intros Hd Hopt Hclick. unfold rename_step.
  destruct (existsb (String.eqb d) cols) eqn:Hx.
  { apply existsb_eqb_In in Hx. contradiction. }
  destruct (available_options cols) as [ | o options ]; [ congruence | ].
  rewrite Hclick. reflexivity.
Qed.

Lemma rename_keeps (c d x : string) (cols : list string) :
  In x cols -> x <> c -> In x (rename c d cols).
Proof.
  intros Hin Hne. unfold rename. apply in_map_iff. exists x.
  split; [ | exact Hin ].
  destruct (String.eqb x c) eqn:E; [ | reflexivity ].
  apply String.eqb_eq in E. contradiction.
Qed.

(** The loop when the button of [d] is clicked and every other turn is
    idle: its button is not clicked, or its required name is present. *)
Lemma rename_loop_one_click (a : AppUI T File) (d : string)
  (desired : list string) :
  forall cols,
  In d desired ->
  (forall x, In x desired -> x <> d ->
             clicked a x = false \/ (In x cols /\ In x required_columns)) ->
  ~ In d cols -> available_options cols <> [] -> clicked a d = true ->
  snd (rename_loop a desired cols)
  = Returned (rename (selectbox (available_options cols) (selected a d)) d cols) /\
  In (st_renamed (selectbox (available_options cols) (selected a d)) d)
    (fst (rename_loop a desired cols)).
Proof.
  induction desired as [ | x desired IH ]; intros cols Hin Hothers Hd Hopt Hclick;
    [ destruct Hin | ].
  cbn [rename_loop]. rewrite snd_bind, fst_bind.
  destruct (String.eqb x d) eqn:Hxd.
  - apply String.eqb_eq in Hxd. subst x.
    rewrite (rename_step_clicked a cols d Hd Hopt Hclick). cbn [fst snd].
    destruct (available_not_required cols
                (selectbox (available_options cols) (selected a d)))
      as [Hsel Hnot]; [ now apply selectbox_In | ].
    split.
    + apply rename_loop_idle. intros y Hy.
      destruct (String.eqb y d) eqn:Hyd.
      * apply String.eqb_eq in Hyd. subst y. right. now apply rename_In.
      * assert (y <> d) as Hne
            by (intros ->; rewrite String.eqb_refl in Hyd; discriminate).
        destruct (Hothers y (or_intror Hy) Hne) as [Hidle | [Hpresent Hreq]];
          [ now left | right ].
        apply rename_keeps; [ exact Hpresent | ]. intros ->. contradiction.
    + apply in_or_app. left. cbn. tauto.
  - assert (x <> d) as Hne
        by (intros ->; rewrite String.eqb_refl in Hxd; discriminate).
    assert (clicked a x = false \/ In x cols) as Hidle
        by (destruct (Hothers x (or_introl eq_refl) Hne) as [? | [? _]]; auto).
    destruct (rename_step_idle a cols x Hidle) as [-> _].
    destruct Hin as [Hin | Hin]; [ congruence | ].
    destruct (IH cols Hin (fun y Hy => Hothers y (or_intror Hy)) Hd Hopt Hclick)
      as [Hloop Hevent].
    split; [ exact Hloop | ]. apply in_or_app. now right.
Qed.

(** X8. When the button of a single missing required column is clicked,
    the column picked in its select box, one that does not carry a
    required name, gets that name, wherever it occurs; every other label
    stays; the renaming is announced; and the required name is present
    afterwards. *)
Theorem X8_one_click_renames_the_selected_column
  (a : AppUI T File) (cols : list string) (d : string) :
  In d required_columns -> ~ In d cols -> available_options cols <> [] ->
  clicked a d = true -> (forall x, clicked a x = true -> x = d) ->
  snd (rename_loop a required_columns cols)
  = Returned (rename (selectbox (available_options cols) (selected a d)) d cols) /\
  In (st_renamed (selectbox (available_options cols) (selected a d)) d)
    (fst (rename_loop a required_columns cols)) /\
  In (selectbox (available_options cols) (selected a d)) cols /\
  ~ In (selectbox (available_options cols) (selected a d)) required_columns /\
  In d (rename (selectbox (available_options cols) (selected a d)) d cols).
Proof.
  intros Hd Hmissing Hopt Hclick Honly.
  destruct (rename_loop_one_click a d required_columns cols Hd) as [Hloop Hevent];
    try assumption.
  { intros x _ Hne. left. destruct (clicked a x) eqn:Hx; [ | reflexivity ].
    elim Hne. now apply Honly. }
  destruct (available_not_required cols
              (selectbox (available_options cols) (selected a d)))
    as [Hin Hnot]; [ now apply selectbox_In | ].
  repeat split; try assumption. now apply rename_In.
Qed.

Lemma relabelled_In (a : AppUI T File) (cols0 cols cols' : list string)
  (x : string) :
  Forall2 (relabelled File a cols0) cols cols' -> In x cols' ->
  In x cols \/ clicked a x = true.
Proof.
  induction 1 as [ | c c' l l' Hc _ IH ]; intros Hin; [ destruct Hin | ].
  destruct Hin as [<- | Hin].
  - destruct Hc as [-> | (_ & _ & Hclick & _)]; [ left; now left | now right ].
  - destruct (IH Hin); [ left; now right | now right ].
Qed.

Variable to_datetime : list string -> string + list (option Z).
Variable strftime : string -> Z -> string.

Lemma main_stops_when_missing (df : DataFrame T) (ui : UI T) (c : string) :
  In c required_columns -> has_column df c = false ->
  snd (main to_datetime strftime df ui) = Stopped.
Proof.
  intros Hc Hmissing. unfold main.
  destruct (has_column df "Time"); [ | reflexivity ]. cbn [negb].
  destruct (parse_Time to_datetime (rows df)); [ reflexivity | ].
  destruct (filter (fun c => negb (has_column df c)) required_columns) eqn:Hf;
    [ | reflexivity ].
  assert (In c (filter (fun c => negb (has_column df c)) required_columns))
    as Hin by (apply filter_In; split; [ exact Hc | now rewrite Hmissing ]).
  rewrite Hf in Hin. destruct Hin.
Qed.

(** X9. A run in which at most one rename button is clicked cannot supply
    two required columns: when the file lacks two of the four required
    names, the renaming hands on a table that still lacks one of them and
    the pipeline stops. *)
Theorem X9_one_click_cannot_supply_two_columns
  (a : AppUI T File) (df_raw : DataFrame T) (ui : UI T) (d1 d2 : string) :
  (forall x y, clicked a x = true -> clicked a y = true -> x = y) ->
  In d1 required_columns -> In d2 required_columns -> d1 <> d2 ->
  has_column df_raw d1 = false -> has_column df_raw d2 = false ->
  exists df',
    snd (rename_columns a df_raw) = Returned df' /\
    rows df' = rows df_raw /\
    (has_column df' d1 = false \/ has_column df' d2 = false) /\
    snd (main to_datetime strftime df' ui) = Stopped.
Proof.
  intros Hone H1 H2 Hne Hm1 Hm2.
  destruct (rename_loop_relabels File a (columns df_raw) required_columns
              (fun d Hd => Hd) (columns df_raw)
              (Forall2_relabelled_refl File a _ _)) as (cols & Hloop & Hrel).
  exists (mkDataFrame cols (rows df_raw)).
  rewrite (rename_columns_outcome File), Hloop.
  split; [ reflexivity | split; [ reflexivity | ] ].
  assert (forall d, has_column df_raw d = false -> In d cols ->
                    clicked a d = true) as Hnew.
  { intros d Hmissing Hin.
    destruct (relabelled_In a _ _ _ d Hrel Hin) as [Hold | Hclick];
      [ | exact Hclick ].
    apply (has_column_In df_raw) in Hold. congruence. }
  destruct (has_column (mkDataFrame cols (rows df_raw)) d1) eqn:Hd1.
  - destruct (has_column (mkDataFrame cols (rows df_raw)) d2) eqn:Hd2.
    + apply has_column_In in Hd1, Hd2. cbn [columns] in Hd1, Hd2.
      elim Hne. apply Hone; apply Hnew; assumption.
    + split; [ now right | ]. now apply (main_stops_when_missing _ ui d2).
  - split; [ now left | ]. now apply (main_stops_when_missing _ ui d1).
Qed.
End OneClick.

Section Repair.
Context {T : Type} `{ArithLaws T}.
Local Open Scope string_scope.

Variable File : Type.
Variable to_datetime : list string -> string + list (option Z).
Variable strftime : string -> Z -> string.

(** With the four columns in place, only [pd.to_datetime] can halt the
    run. *)
Lemma main_stops_when_present (df : DataFrame T) (ui : UI T) :
  (forall c, In c required_columns -> has_column df c = true) ->
  (snd (main to_datetime strftime df ui) = Stopped <->
   exists e, to_datetime (map Time (rows df)) = inl e).
Proof.
  intros Hall. destruct (has_required_columns df Hall) as [Htime Hnone].
  rewrite main_cases, Htime, Hnone. cbn [negb].
  destruct (to_datetime (map Time (rows df))) as [e | parsed].
  - split; [ eauto | reflexivity ].
  - split; [ | intros (e & He); discriminate ].
    intros Hstop. now apply calibration_and_report_no_stop in Hstop.
Qed.

(** X12. A file that lacks exactly one required name is repaired within
    the run: when the button of the missing name is clicked and a
    non-required column is on offer, the renaming hands on the same rows
    with the selected column relabelled, the table then has all four
    required columns, and the pipeline is not halted at its column
    checks, whatever the other buttons do: it is halted only if
    [pd.to_datetime] raises on the column that now is [Time]. *)
Theorem X12_one_click_repairs_one_missing_column
  (a : AppUI T File) (df_raw : DataFrame T) (ui : UI T) (d : string) :
  In d required_columns -> has_column df_raw d = false ->
  (forall x, In x required_columns -> x <> d -> has_column df_raw x = true) ->
  available_options (columns df_raw) <> [] -> clicked a d = true ->
  exists df',
    snd (rename_columns a df_raw) = Returned df' /\
    columns df'
    = rename (selectbox (available_options (columns df_raw)) (selected a d)) d
        (columns df_raw) /\
    rows df' = rows df_raw /\
    (forall c, In c required_columns -> has_column df' c = true) /\
    (snd (main to_datetime strftime df' ui) = Stopped <->
     exists e, to_datetime (map Time (rows df_raw)) = inl e).
Proof.
  intros Hd Hmissing Hrest Hopt Hclick.
  assert (~ In d (columns df_raw)) as Habsent.
  { intros Hin. apply (has_column_In df_raw) in Hin. congruence. }
  destruct (rename_loop_one_click File a d required_columns (columns df_raw))
    as [Hloop _]; try assumption.
  { intros x Hx Hne. right. split; [ | exact Hx ].
    apply has_column_In. now apply Hrest. }
  set (c := selectbox (available_options (columns df_raw)) (selected a d)) in *.
  exists (mkDataFrame (rename c d (columns df_raw)) (rows df_raw)).
  rewrite (rename_columns_outcome File), Hloop.
  assert (forall x, In x required_columns ->
            has_column (mkDataFrame (rename c d (columns df_raw)) (rows df_raw)) x
            = true) as Hall.
  { intros x Hx. apply has_column_In. cbn [columns].
    destruct (available_not_required (columns df_raw) c) as [Hc Hnot];
      [ now apply selectbox_In | ].
    destruct (String.eqb x d) eqn:Hxd.
    - apply String.eqb_eq in Hxd. subst x. now apply rename_In.
    - apply rename_keeps.
      + apply has_column_In. apply Hrest; [ exact Hx | ].
        intros ->. rewrite String.eqb_refl in Hxd. discriminate.
      + intros ->. contradiction. }
  repeat split; try reflexivity; try exact Hall;
    now apply (main_stops_when_present _ ui Hall).
Qed.
End Repair.

(** ** Highlighting with thresholds that cut nothing off *)

Section Highlighting.
Context {T : Type} `{ArithLaws T}.
Local Open Scope string_scope.
Local Open Scope arith_scope.

(** Thresholds at or outside the smallest and the largest value of a
    channel without NaN keep every record. *)
Lemma filter_range_all (df : list (Row Z T)) (col : Channel) (lo hi : T) :
  Forall (fun r => isnan (get_col col r) = false) df ->
  (lo <=? Series_min (map (get_col col) df)) = true ->
  (Series_max (map (get_col col) df) <=? hi) = true ->
  filter_range df col lo hi = df.
Proof.
  intros Hnum Hlo Hhi. unfold filter_range. apply filter_all. intros r Hr.
  assert (In (get_col col r) (skipna (map (get_col col) df))) as Hin.
  { apply filter_In. split; [ now apply in_map | ].
    rewrite Forall_forall in Hnum. now rewrite (Hnum r Hr). }
  assert (skipna (map (get_col col) df) <> []) as Hne
      by (intros E; rewrite E in Hin; destruct Hin).
  destruct (Series_min_spec _ Hne) as [_ Hmin].
  destruct (Series_max_spec _ Hne) as [_ Hmax].
  apply andb_true_intro. split.
  - exact (leb_trans _ _ _ Hlo (Hmin _ Hin)).
  - exact (leb_trans _ _ _ (Hmax _ Hin) Hhi).
Qed.

(** X13. Ticking a highlight box and leaving both threshold inputs at
    their defaults (the minimum and the maximum of the channel), or moving
    them outwards, highlights every record: for a shown channel without NaN
    in a non-empty table, the block adds one trace that repeats the whole
    series, all times and all values in table order. *)
Theorem X13_untouched_thresholds_highlight_every_record
  (ui : UI T) (df : list (Row Z T)) (fig : list (Trace T)) (col : Channel) :
  highlight ui col = true -> show ui col = true ->
  df <> [] -> Forall (fun r => isnan (get_col col r) = false) df ->
  match lower ui col with
  | Some v => (v <=? Series_min (map (get_col col) df)) = true
  | None => True
  end ->
  match upper ui col with
  | Some v => (Series_max (map (get_col col) df) <=? v) = true
  | None => True
  end ->
  snd (highlight_range ui df fig col)
  = Returned (fig ++ [mkTrace (channel_name col ++ " Highlight")
                        (map Time df) (map (get_col col) df)])%list.
Proof.
  intros Hhl Hshow Hne Hnum Hlo Hhi.
  assert (skipna (map (get_col col) df) <> []) as Hs.
  { destruct df as [ | r rest ]; [ congruence | ].
    inversion Hnum as [ | ? ? Hr _ ]; subst.
    unfold skipna. cbn [map filter]. rewrite Hr. discriminate. }
  destruct (Series_min_spec _ Hs) as [Hmin _].
  destruct (Series_max_spec _ Hs) as [Hmax _].
  pose proof (skipna_numbers (map (get_col col) df)) as Hnumbers.
  rewrite Forall_forall in Hnumbers.
  unfold highlight_range. rewrite snd_bind. cbn [snd emit].
  rewrite Hhl, Hshow. cbn [andb].
  rewrite snd_bind. cbn [snd emit]. rewrite snd_bind. cbn [snd emit].
  rewrite filter_range_all; try assumption.
  - destruct df as [ | r rest ]; [ congruence | reflexivity ].
  - destruct (lower ui col); [ exact Hlo | ].
    apply leb_refl. now apply Hnumbers.
  - destruct (upper ui col); [ exact Hhi | ].
    apply leb_refl. now apply Hnumbers.
Qed.
End Highlighting.

(** ** The meter figures *)

Module B64Sign.
Local Open Scope Z_scope.
Import B64.

(** Not below zero: the sign bit is clear, or the value is NaN. *)
Definition not_negative (x : spec_float) : bool :=
  match x with
  | S754_zero s | S754_infinity s | S754_finite s _ _ => negb s
  | S754_nan => true
  end.

Lemma shr_fexp_nonneg (m e : Z) (l : location) :
  0 <= m -> 0 <= shr_m (fst (shr_fexp prec emax m e l)).
Proof.
  intros Hm. unfold shr_fexp, shr.
  assert (shr_m (shr_record_of_loc m l) = m) as Hrec
      by (destruct l as [ | [ | | ] ]; reflexivity).
  destruct (fexp prec emax (Zdigits2 m + e) - e) as [ | n | n ];
    cbn [fst]; rewrite ?Hrec; try assumption.
  rewrite B64Round.iter_pos_shr_m by (rewrite Hrec; assumption).
  rewrite Hrec. apply Z.div_pos; [ assumption | ].
  apply Z.pow_pos_nonneg; lia.
Qed.

Lemma round_nearest_even_nonneg (m : Z) (l : location) :
  0 <= m -> 0 <= round_nearest_even m l.
Proof.
  intros Hm. destruct l as [ | [ | | ] ]; simpl; try lia.
  destruct (Z.even m); lia.
Qed.

(** Rounding a mantissa that is not negative keeps the sign it is given. *)
Lemma binary_round_aux_not_negative (m e : Z) (l : location) :
  0 <= m -> not_negative (binary_round_aux prec emax false m e l) = true.
Proof.
  intros Hm. unfold binary_round_aux.
  pose proof (shr_fexp_nonneg m e l Hm) as H1.
  destruct (shr_fexp prec emax m e l) as [mrs' e']. cbn [fst] in H1.
  pose proof (round_nearest_even_nonneg _ (loc_of_shr_record mrs') H1) as H2.
  pose proof (shr_fexp_nonneg _ e' loc_Exact H2) as H3.
  destruct (shr_fexp prec emax _ e' loc_Exact) as [mrs'' e'']. cbn [fst] in H3.
  destruct (shr_m mrs''); try lia; [ reflexivity | ].
  destruct (e'' <=? emax - prec); reflexivity.
Qed.

Lemma binary_round_not_negative (m : positive) (e : Z) :
  not_negative (binary_round prec emax false m e) = true.
Proof.
  unfold binary_round. destruct (shl_align m e _) as [mz ez].
  apply binary_round_aux_not_negative. lia.
Qed.

Lemma of_Z_not_negative (n : Z) : 0 <= n -> not_negative (of_Z n) = true.
Proof.
  intros Hn. unfold of_Z, binary_normalize.
  destruct n as [ | p | p ]; [ reflexivity | apply binary_round_not_negative | lia ].
Qed.

Lemma SFabs_not_negative (x : spec_float) : not_negative (SFabs x) = true.
Proof. destruct x; reflexivity. Qed.

Lemma SFadd_not_negative (x y : spec_float) :
  not_negative x = true -> not_negative y = true ->
  not_negative (SFadd prec emax x y) = true.
Proof.
  destruct x as [ [ | ] | [ | ] | | [ | ] mx ex ];
    destruct y as [ [ | ] | [ | ] | | [ | ] my ey ];
    try discriminate; try reflexivity.
  intros _ _. unfold SFadd, cond_Zopp.
  change (Zpos (fst (shl_align mx ex (Z.min ex ey)))
          + Zpos (fst (shl_align my ey (Z.min ex ey))))
    with (Zpos (fst (shl_align mx ex (Z.min ex ey))
                + fst (shl_align my ey (Z.min ex ey)))).
  apply binary_round_not_negative.
Qed.

Lemma SFdiv_not_negative (x y : spec_float) :
  not_negative x = true -> not_negative y = true ->
  not_negative (SFdiv prec emax x y) = true.
Proof.
  destruct x as [ [ | ] | [ | ] | | [ | ] mx ex ];
    destruct y as [ [ | ] | [ | ] | | [ | ] my ey ];
    try discriminate; try reflexivity.
  intros _ _. unfold SFdiv, SFdiv_core_binary. cbn [xorb].
  set (s := ex - ey - _).
  set (m' := match s with Zpos _ => Z.shiftl (Zpos mx) s | Z0 => Zpos mx
             | Zneg _ => 0 end).
  assert (0 <= m') as Hm'.
  { subst m'. destruct s; [ lia | | lia ]. apply Z.shiftl_nonneg. lia. }
  pose proof (Z_div_mod m' (Zpos my) eq_refl) as Hdiv.
  destruct (Z.div_eucl m' (Zpos my)) as [q r].
  apply binary_round_aux_not_negative. nia.
Qed.

Lemma SFltb_not_negative_zero (x : spec_float) :
  not_negative x = true -> SFltb x (of_Z 0) = false.
Proof.
  destruct x as [ [ | ] | [ | ] | | [ | ] mx ex ]; try discriminate;
    reflexivity.
Qed.
End B64Sign.

Section MeterFigures.
Local Open Scope arith_scope.
Import B64Sign.

Lemma skipna_not_negative (s : list spec_float) :
  Forall (fun x => not_negative x = true) s ->
  Forall (fun x => not_negative x = true) (skipna s).
Proof.
  rewrite !Forall_forall. intros Hs x Hx. apply Hs.
  unfold skipna in Hx. apply filter_In in Hx. tauto.
Qed.

Lemma Series_sum_not_negative (s : list spec_float) :
  Forall (fun x => not_negative x = true) s ->
  not_negative (Series_sum s) = true.
Proof.
  intros Hs.
  apply (@Series_sum_closed spec_float binary64
           (fun x => not_negative x = true) SFadd_not_negative).
  - now apply of_Z_not_negative.
  - intros x Hx _. rewrite Forall_forall in Hs. now apply Hs.
Qed.

Lemma Series_min_not_negative (s : list spec_float) :
  Forall (fun x => not_negative x = true) s ->
  not_negative (Series_min s) = true.
Proof.
  intros Hs. apply skipna_not_negative in Hs. rewrite Forall_forall in Hs.
  destruct (skipna s) as [ | x xs ] eqn:Hsk.
  - unfold Series_min. rewrite Hsk. reflexivity.
  - apply Hs. rewrite <- Hsk. apply Series_min_spec. rewrite Hsk. discriminate.
Qed.

Lemma Series_max_not_negative (s : list spec_float) :
  Forall (fun x => not_negative x = true) s ->
  not_negative (Series_max s) = true.
Proof.
  intros Hs. apply skipna_not_negative in Hs. rewrite Forall_forall in Hs.
  destruct (skipna s) as [ | x xs ] eqn:Hsk.
  - unfold Series_max. rewrite Hsk. reflexivity.
  - apply Hs. rewrite <- Hsk. apply Series_max_spec. rewrite Hsk. discriminate.
Qed.

Lemma Series_mean_not_negative (s : list spec_float) :
  Forall (fun x => not_negative x = true) s ->
  not_negative (Series_mean s) = true.
Proof.
  intros Hs. unfold Series_mean. apply SFdiv_not_negative.
  - now apply Series_sum_not_negative.
  - apply of_Z_not_negative. lia.
Qed.

(** X14. The binary64 meter figures are never negative, whatever the signs
    of the readings and whatever NaN the column holds: the total, the
    minimum, the maximum and the mean of [Meter_KW_abs], and the GRID share
    of the harvest chart over any range, all fail the test [< 0]. *)
Theorem X14_meter_figures_never_negative (df : list (Row Z spec_float)) :
  let s := summarize Meter_W df in
  (total s <? of_Z 0) = false /\
  (minimum s <? of_Z 0) = false /\
  (maximum s <? of_Z 0) = false /\
  (mean s <? of_Z 0) = false /\
  forall (range : Z * Z) (split : HarvestGridSplit spec_float),
    harvest_grid_split df range = Some split ->
    (total_meter_abs split <? of_Z 0) = false.
Proof.
  assert (forall rows : list (Row Z spec_float),
            Forall (fun x => not_negative x = true) (map abs (map Meter rows)))
    as Habs.
  { intros rows. rewrite map_map. apply Forall_forall. intros x Hx.
    apply in_map_iff in Hx. destruct Hx as (r & <- & _).
    apply SFabs_not_negative. }
  assert (Forall (fun x => not_negative x = true) (kw_column Meter_W df))
    as Hkw.
  { unfold kw_column. apply Forall_forall. intros x Hx.
    apply in_map_iff in Hx. destruct Hx as (r & <- & _).
    apply SFdiv_not_negative;
      [ apply SFabs_not_negative | now apply of_Z_not_negative ]. }
  cbn zeta. unfold summarize. cbn [total minimum maximum mean].
  repeat split.
  - apply SFltb_not_negative_zero. now apply Series_sum_not_negative.
  - apply SFltb_not_negative_zero. now apply Series_min_not_negative.
  - apply SFltb_not_negative_zero. now apply Series_max_not_negative.
  - apply SFltb_not_negative_zero. now apply Series_mean_not_negative.
  - intros range split. unfold harvest_grid_split.
    destruct (df_total df range) as [ | r sel ]; [ discriminate | ].
    intros [= <-]. cbn [total_meter_abs].
    apply SFltb_not_negative_zero. apply SFdiv_not_negative.
    + apply Series_sum_not_negative. exact (Habs (r :: sel)).
    + apply (of_Z_not_negative 1000). lia.
Qed.
End MeterFigures.

(** ** Reading the file, and the script from end to end *)

Lemma bind_returned_iff {E A B : Type} (c : Script E A) (k : A -> Script E B)
  (b : B) :
  snd (bind c k) = Returned b <->
  exists a, snd c = Returned a /\ snd (k a) = Returned b.
Proof.
  rewrite snd_bind. destruct (snd c) as [a | | e].
  - split; [ eauto | ]. intros (a' & [= <-] & Hk). exact Hk.
  - split; [ discriminate | intros (? & ? & _); discriminate ].
  - split; [ discriminate | intros (? & ? & _); discriminate ].
Qed.

(** An element that a sequence writes last, and nowhere before, is on the
    page exactly when the sequence reaches its end. *)
Lemma marks_end_bind {E A : Type} (e : E) (c : Script E A)
  (k : A -> Script E unit) :
  ~ In e (fst c) ->
  (forall a, In e (fst (k a)) <-> snd (k a) = Returned tt) ->
  (In e (fst (bind c k)) <-> snd (bind c k) = Returned tt).
Proof.
  intros Hc Hk. rewrite fst_bind, snd_bind.
  destruct (snd c) as [a | | x].
  - rewrite in_app_iff, <- Hk. tauto.
  - split; [ tauto | discriminate ].
  - split; [ tauto | discriminate ].
Qed.

Section Reading.
Context {T : Type} `{Arith T}.
Local Open Scope string_scope.

Variable to_datetime : list string -> string + list (option Z).
Variable strftime : string -> Z -> string.
Variable File : Type.
Variable read_csv read_excel : File -> Z -> option Z -> string + DataFrame T.

(** The [header] argument of the reader for a value of the header-row
    input: the row, or none for a negative value. *)
Definition header_of (header_row : Z) : option Z :=
  if (0 <=? header_row)%Z then Some header_row else None.

Lemma try_read_cases (r : string + DataFrame T) :
  match r with
  | inr df => try_read r = ([], Returned df)
  | inl e => try_read r
             = ([page (st_error (AppText.reading_failed ++ e))], Stopped)
  end.
Proof. destruct r; reflexivity. Qed.

Lemma read_file_by_extension (ext : string) (file : File) (skip hdr : Z) :
  read_file read_csv read_excel ext file skip hdr
  = if String.eqb ext ".csv"
    then try_read (read_csv file skip (header_of hdr))
    else if String.eqb ext ".xlsx" || String.eqb ext ".xls"
         then try_read (read_excel file skip (header_of hdr))
         else ([page (st_error AppText.unsupported)], Stopped).
Proof.
  unfold read_file, header_of. cbn [existsb].
  rewrite orb_false_r, (String.eqb_sym ext ".xlsx"), (String.eqb_sym ext ".xls").
  destruct (String.eqb ext ".csv"); [ destruct (0 <=? hdr)%Z; reflexivity | ].
  destruct (String.eqb ".xlsx" ext || String.eqb ".xls" ext);
    [ destruct (0 <=? hdr)%Z; reflexivity | reflexivity ].
Qed.

(** X10. Reading hands on a table exactly when the extension is [.csv]
    and [read_csv] succeeds, or the extension is [.xlsx] or [.xls] and
    [read_excel] succeeds, the reader being called with the rows to skip
    and with the header row, or no header for a negative input; it then
    writes nothing.  In every other case, an unsupported extension or a
    reader that raises, it writes one error message and stops the run; no
    exception leaves it. *)
Theorem X10_read_file_table_or_one_error
  (ext : string) (file : File) (skip hdr : Z) :
  (forall df,
      snd (read_file read_csv read_excel ext file skip hdr) = Returned df <->
      (ext = ".csv" /\ read_csv file skip (header_of hdr) = inr df) \/
      ((ext = ".xlsx" \/ ext = ".xls") /\
       read_excel file skip (header_of hdr) = inr df)) /\
  ((exists df,
       read_file read_csv read_excel ext file skip hdr = ([], Returned df)) \/
   (exists msg,
       read_file read_csv read_excel ext file skip hdr
       = ([page (st_error msg)], Stopped))) /\
  (ext <> ".csv" -> ext <> ".xlsx" -> ext <> ".xls" ->
   read_file read_csv read_excel ext file skip hdr
   = ([page (st_error AppText.unsupported)], Stopped)).
Proof.
  rewrite read_file_by_extension.
  destruct (String.eqb ext ".csv") eqn:Hcsv.
  { apply String.eqb_eq in Hcsv. subst ext.
    pose proof (try_read_cases (read_csv file skip (header_of hdr))) as Hr.
    destruct (read_csv file skip (header_of hdr)) as [msg | df0]; rewrite Hr.
    - repeat split; try congruence; try (right; eexists; reflexivity).
      + discriminate.
      + intros [[_ E] | [[E | E] _]]; discriminate.
    - repeat split; try congruence; try (left; eexists; reflexivity).
      + intros [= <-]. left. now split.
      + intros [[_ [= <-]] | [[E | E] _]]; [ reflexivity | | ]; discriminate. }
  apply String.eqb_neq in Hcsv.
  destruct (String.eqb ext ".xlsx" || String.eqb ext ".xls") eqn:Hxl.
  { assert (ext = ".xlsx" \/ ext = ".xls") as Hext.
    { apply orb_prop in Hxl. destruct Hxl as [E | E];
        apply String.eqb_eq in E; auto. }
    pose proof (try_read_cases (read_excel file skip (header_of hdr))) as Hr.
    destruct (read_excel file skip (header_of hdr)) as [msg | df0]; rewrite Hr.
    - repeat split; try (right; eexists; reflexivity).
      + discriminate.
      + intros [[E _] | [_ E]]; [ contradiction | discriminate ].
      + intros _ N1 N2. destruct Hext; contradiction.
    - repeat split; try (left; eexists; reflexivity).
      + intros [= <-]. right. now split.
      + intros [[E _] | [_ [= <-]]]; [ contradiction | reflexivity ].
      + intros _ N1 N2. destruct Hext; contradiction. }
  apply orb_false_elim in Hxl. destruct Hxl as [N1 N2].
  apply String.eqb_neq in N1, N2.
  repeat split; try (right; eexists; reflexivity).
  - discriminate.
  - intros [[E _] | [[E | E] _]]; contradiction.
Qed.

Lemma read_file_no_changelog (ext : string) (file : File) (skip hdr : Z) :
  ~ In st_download_changelog
      (fst (read_file read_csv read_excel ext file skip hdr)).
Proof.
  rewrite read_file_by_extension.
  destruct (String.eqb ext ".csv").
  { destruct (read_csv file skip (header_of hdr)); cbn; intuition discriminate. }
  destruct (String.eqb ext ".xlsx" || String.eqb ext ".xls").
  { destruct (read_excel file skip (header_of hdr)); cbn; intuition discriminate. }
  cbn. intuition discriminate.
Qed.

Lemma rename_step_no_changelog (a : AppUI T File) (cols : list string)
  (d : string) :
  ~ In st_download_changelog (fst (rename_step a cols d)).
Proof.
  unfold rename_step. destruct (existsb (String.eqb d) cols); [ intros [] | ].
  destruct (available_options cols); [ cbn; intuition discriminate | ].
  destruct (clicked a d); cbn; intuition discriminate.
Qed.

Lemma rename_loop_no_changelog (a : AppUI T File) (desired : list string) :
  forall cols, ~ In st_download_changelog (fst (rename_loop a desired cols)).
Proof.
  induction desired as [ | d desired IH ]; intros cols; cbn [rename_loop];
    [ intros [] | ].
  intros Hin. apply In_fst_bind in Hin. destruct Hin as [Hin | (c & _ & Hin)].
  - now apply rename_step_no_changelog in Hin.
  - now apply IH in Hin.
Qed.

Lemma rename_columns_no_changelog (a : AppUI T File) (df : DataFrame T) :
  ~ In st_download_changelog (fst (rename_columns a df)).
Proof.
  unfold rename_columns. intros Hin.
  repeat (apply In_fst_bind in Hin;
          destruct Hin as [Hin | (? & _ & Hin)];
          [ first [ now apply rename_loop_no_changelog in Hin
                  | cbn in Hin; destruct Hin as [Hin | []]; discriminate Hin ]
          | ]).
  destruct Hin.
Qed.

Lemma on_page_no_changelog {A : Type} (c : Script (Event T) A) :
  ~ In st_download_changelog (fst (on_page c)).
Proof.
  unfold on_page. cbn [fst]. intros Hin. apply in_map_iff in Hin.
  destruct Hin as (e & E & _). discriminate E.
Qed.

(** X11. The changelog download is on the page exactly when the script
    reaches its end, that is when a file is uploaded, reading and
    renaming hand on a table and the pipeline on that table completes;
    a run that stops or fails anywhere does not offer it.  Without an
    upload the script shows its three introductory texts and the uploader
    and stops. *)
Theorem X11_changelog_only_after_a_complete_run (a : AppUI T File) :
  (In st_download_changelog
      (fst (seistrack_daily to_datetime strftime read_csv read_excel a)) <->
   snd (seistrack_daily to_datetime strftime read_csv read_excel a)
   = Returned tt) /\
  (snd (seistrack_daily to_datetime strftime read_csv read_excel a)
   = Returned tt <->
   exists ext file df df',
     uploaded_file a = Some (ext, file) /\
     snd (read_file read_csv read_excel ext file (skip_rows a) (header_row a))
     = Returned df /\
     snd (rename_columns a df) = Returned df' /\
     snd (main to_datetime strftime df' (pipeline_ui a)) = Returned tt) /\
  (uploaded_file a = None ->
   seistrack_daily to_datetime strftime read_csv read_excel a
   = ([page (st_text "Seistrack Power Analysis");
       page (st_text "Created By: Eric G. Bundalian");
       page (st_text AppText.intro);
       page (st_widget "Upload your file")],
      Stopped)).
Proof.
  unfold seistrack_daily. split; [ | split ].
  - do 4 (apply marks_end_bind; [ cbn; intuition discriminate | intros _ ]).
    destruct (uploaded_file a) as [[ext file] | ];
      [ | cbn; split; [ tauto | discriminate ] ].
    do 3 (apply marks_end_bind; [ cbn; intuition discriminate | intros _ ]).
    apply marks_end_bind; [ apply read_file_no_changelog | intros df ].
    apply marks_end_bind; [ apply rename_columns_no_changelog | intros df' ].
    apply marks_end_bind; [ apply on_page_no_changelog | intros [] ].
    cbn. split; [ reflexivity | tauto ].
  - repeat (rewrite snd_bind; cbn [snd emit]).
    destruct (uploaded_file a) as [[ext file] | ].
    + repeat (rewrite snd_bind; cbn [snd emit]).
      split.
      * intros Hend.
        destruct (snd (read_file read_csv read_excel ext file _ _))
          as [df | | ] eqn:Hread; try discriminate.
        rewrite snd_bind in Hend.
        destruct (snd (rename_columns a df)) as [df' | | ] eqn:Hren;
          try discriminate.
        rewrite snd_bind in Hend. unfold on_page in Hend. cbn [snd] in Hend.
        destruct (snd (main to_datetime strftime df' (pipeline_ui a)))
          as [[] | | ] eqn:Hmain; try discriminate.
        exists ext, file, df, df'. auto.
      * intros (ext' & file' & df & df' & [= <- <-] & Hread & Hren & Hmain).
        rewrite Hread, snd_bind, Hren, snd_bind. unfold on_page. cbn [snd].
        rewrite Hmain. reflexivity.
    + cbn. split; [ discriminate | ].
      intros (? & ? & ? & ? & E & _). discriminate E.
  - intros ->. reflexivity.
Qed.
End Reading.

(** ** Concrete runs of the whole script *)

Module DemoApp.
Local Open Scope string_scope.
Local Open Scope Z_scope.

(** A stand-in for the readers: the content is the table it holds, or the
    message of the failure. *)
Definition File : Type := (string + DataFrame spec_float)%type.

Definition read (file : File) (skiprows : Z) (header : option Z)
  : string + DataFrame spec_float := file.

(** A file whose time column is labelled Timestamp. *)
Definition df_timestamp : DataFrame spec_float :=
  mkDataFrame ["Timestamp"; "PV(W)"; "Meter(W)"; "Load(W)"] (rows Demo.df_raw).

(** A file that lacks two required names. *)
Definition df_two_missing : DataFrame spec_float :=
  mkDataFrame ["t"; "pv"; "Meter(W)"; "Load(W)"] (rows Demo.df_raw).

(** A file without a load column. *)
Definition df_no_load : DataFrame spec_float :=
  mkDataFrame ["Time"; "PV(W)"; "Meter(W)"] (rows Demo.df_raw).

(** The meter is hidden, the other two channels are shown and
    highlighted. *)
Definition ui_meter_hidden : UI spec_float :=
  mkUI (Demo.f64 0) (Demo.f64 200) (Demo.f64 0) (Demo.f64 200) (Demo.f64 100)
    (fun col => match col with Meter_W => false | _ => true end)
    (fun _ => true) (fun _ => None) (fun _ => None) None.

(** A file with the time and the meter only. *)
Definition df_time_meter : DataFrame spec_float :=
  mkDataFrame ["Time"; "Meter(W)"] (rows Demo.df_raw).

(** The slider set inside the gap between the two samples. *)
Definition ui_gap : UI spec_float :=
  mkUI (Demo.f64 0) (Demo.f64 200) (Demo.f64 0) (Demo.f64 200) (Demo.f64 100)
    (fun _ => true) (fun _ => false) (fun _ => None) (fun _ => None)
    (Some (Demo.t_0220 + 100000000000, Demo.t_0220 + 200000000000)).

(** One record only. *)
Definition df_single : list (Row Z spec_float) :=
  [mkRow Demo.t_0220 (Demo.f64 100) (Demo.f64 (-5)) (Demo.f64 105)].

(** Two records, the last one a nanosecond after 02:25:00. *)
Definition df_nanosecond : list (Row Z spec_float) :=
  [mkRow Demo.t_0220 (Demo.f64 100) (Demo.f64 (-5)) (Demo.f64 105);
   mkRow (Demo.t_0225 + 1) (Demo.f64 200) (Demo.f64 3) (Demo.f64 203)].

(** A run on the uploaded [file] in which the button of Time alone is
    clicked, with the first option in every select box. *)
Definition app (extension : string) (file : File) : AppUI spec_float File :=
  mkAppUI (Some (extension, file)) 0 0 (fun _ => 0%nat)
    (String.eqb "Time") (Demo.ui 0 200).

(** The figures a run has drawn. *)
Definition charts (out : list (Event spec_float))
  : list (list (Trace spec_float)) :=
  flat_map (fun e => match e with st_line_chart fig => [fig] | _ => [] end) out.

Definition fig_meter_hidden : list (Trace spec_float) :=
  Eval vm_compute in
    hd [] (charts (fst (main Demo.to_datetime Demo.strftime Demo.df_raw
                          ui_meter_hidden))).
End DemoApp.

Local Open Scope string_scope.

Lemma X1_witness :
  main Demo.to_datetime Demo.strftime DemoApp.df_time_meter (Demo.ui 0 200)
  = ([st_error
        "The file is missing the following required column(s): PV(W), Load(W)"],
     Stopped) /\
  snd (main Demo.to_datetime Demo.strftime Demo.df_mixed_offsets (Demo.ui 0 200))
  = Stopped.
Proof.
  destruct (X1_main_stops_iff_required_column_missing Demo.to_datetime
              Demo.strftime DemoApp.df_time_meter (Demo.ui 0 200))
    as (_ & _ & _ & Hmissing).
  destruct (X1_main_stops_iff_required_column_missing Demo.to_datetime
              Demo.strftime Demo.df_mixed_offsets (Demo.ui 0 200))
    as (Hiff & _).
  split.
  - rewrite (Hmissing _ "PV(W)" eq_refl eq_refl); [ reflexivity | | reflexivity ].
    cbn. tauto.
  - apply Hiff. right. split; [ reflexivity | ]. eexists. reflexivity.
Defined.

Lemma X2_witness :
  snd (main Demo.to_datetime Demo.strftime Demo.df_raw (Demo.ui 0 200))
  = Returned tt.
Proof.
  apply (proj2 (X2_main_completes_iff Demo.to_datetime Demo.strftime
                  Demo.df_raw (Demo.ui 0 200))).
  split.
  - intros c [<- | [<- | [<- | [<- | []]]]]; reflexivity.
  - exists Demo.df_plot, (Demo.f64 1, Demo.f64 0).
    split; [ reflexivity | ]. split; [ vm_compute; reflexivity | ].
    split.
    + eexists _, _. split; [ right; left; reflexivity | ].
      split; [ left; reflexivity | ]. reflexivity.
    + intros col _. eexists. split; [ left; reflexivity | ].
      destruct col; reflexivity.
Defined.

Lemma X3_witness :
  Forall valid_row Demo.df_plot /\
  apply (Demo.f64 1, Demo.f64 0) Demo.df_plot = Demo.df_plot.
Proof.
  assert (Forall valid_row Demo.df_plot) as Hvalid
      by (repeat constructor).
  split; [ exact Hvalid | ].
  destruct (X3_default_calibration_is_identity Demo.df_plot Hvalid)
    as (_ & Happly & _).
  etransitivity; [ exact Happly | reflexivity ].
Defined.

Lemma X4_witness :
  In (st_line_chart DemoApp.fig_meter_hidden)
    (fst (main Demo.to_datetime Demo.strftime Demo.df_raw
            DemoApp.ui_meter_hidden)) /\
  forall tr, In tr DemoApp.fig_meter_hidden ->
             ~ In (name tr) (trace_names Meter_W).
Proof.
  assert (In (st_line_chart DemoApp.fig_meter_hidden)
            (fst (main Demo.to_datetime Demo.strftime Demo.df_raw
                    DemoApp.ui_meter_hidden))) as Hin.
  { vm_compute. repeat (first [ left; reflexivity | right ]). }
  split; [ exact Hin | ].
  intros tr. apply (proj2 (X4_hidden_series_never_drawn Demo.to_datetime
                              Demo.strftime Demo.df_raw DemoApp.ui_meter_hidden
                              DemoApp.fig_meter_hidden Hin) Meter_W tr).
  reflexivity.
Defined.

Lemma X5_witness :
  harvest_vs_grid Demo.strftime (Demo.ui 0 200) DemoApp.df_single
  = ([st_text "HARVEST VS GRID";
      st_text Text.harvest_about;
      st_text Text.harvest_totals],
     Raised StreamlitAPIException) /\
  (exists s,
      In (st_donut s)
        (fst (harvest_vs_grid Demo.strftime (Demo.ui 0 200)
                DemoApp.df_nanosecond)) /\
      total_pv s = div (Demo.f64 100) (Demo.f64 1000)) /\
  In (st_warning Text.no_data_in_range)
    (fst (harvest_vs_grid Demo.strftime DemoApp.ui_gap Demo.df_plot)).
Proof.
  split; [ | split ].
  - apply (proj1 (X5_harvest_section_donut_or_warning Demo.strftime
                    (Demo.ui 0 200) DemoApp.df_single Demo.t_0220 Demo.t_0220
                    eq_refl eq_refl)).
    reflexivity.
  - destruct (proj2 (X5_harvest_section_donut_or_warning Demo.strftime
                       (Demo.ui 0 200) DemoApp.df_nanosecond
                       Demo.t_0220 (Demo.t_0225 + 1)%Z eq_refl eq_refl))
      as (_ & Hdefault & _); [ reflexivity | ].
    destruct (Hdefault eq_refl) as (s & Hs & _ & _ & _ & _ & Hrun).
    exists s. split; [ rewrite Hrun; cbn; tauto | ].
    vm_compute in Hs. injection Hs as <-. reflexivity.
  - destruct (proj2 (X5_harvest_section_donut_or_warning Demo.strftime
                       DemoApp.ui_gap Demo.df_plot Demo.t_0220 Demo.t_0225
                       eq_refl eq_refl))
      as (_ & _ & Hgap); [ reflexivity | ].
    rewrite (Hgap _ eq_refl).
    + cbn. tauto.
    + intros r [<- | [<- | []]]; vm_compute; intuition discriminate.
Defined.

Lemma X6_witness :
  exists df_plot,
    normalize Demo.to_datetime (rows Demo.df_raw) = inr df_plot /\
    map (fun r => (Time r, PV r, Meter r, Load r)) df_plot
    = [(Demo.t_0225, Demo.f64 200, Demo.f64 3, Demo.f64 203);
       (Demo.t_0220, Demo.f64 100, Demo.f64 (-5), Demo.f64 105)].
Proof.
  destruct (proj1 (X6_normalize_keeps_rows_in_order Demo.to_datetime
                     (rows Demo.df_raw)) _ eq_refl)
    as (df_plot & Hclean & Hrows & _).
  exists df_plot. split; [ exact Hclean | ].
  rewrite Hrows. reflexivity.
Defined.

Lemma X7_witness :
  exists cols,
    snd (rename_columns (DemoApp.app ".csv" (inr DemoApp.df_timestamp))
           DemoApp.df_timestamp)
    = Returned (mkDataFrame cols (rows DemoApp.df_timestamp)) /\
    nth_error cols 1 = Some "PV(W)"%string.
Proof.
  destruct (X7_renaming_only_relabels DemoApp.File
              (DemoApp.app ".csv" (inr DemoApp.df_timestamp))
              DemoApp.df_timestamp) as (cols & Hrun & _ & _ & Hkeep & _).
  exists cols. split; [ exact Hrun | ].
  apply Hkeep; [ reflexivity | cbn; tauto ].
Defined.

Lemma X8_witness :
  snd (rename_loop (DemoApp.app ".csv" (inr DemoApp.df_timestamp))
         required_columns (columns DemoApp.df_timestamp))
  = Returned ["Time"; "PV(W)"; "Meter(W)"; "Load(W)"]%string.
Proof.
  destruct (X8_one_click_renames_the_selected_column DemoApp.File
              (DemoApp.app ".csv" (inr DemoApp.df_timestamp))
              (columns DemoApp.df_timestamp) "Time") as [Hrun _].
  - cbn; tauto.
  - cbn. intuition discriminate.
  - discriminate.
  - reflexivity.
  - intros x Hx. cbn [clicked DemoApp.app] in Hx.
    apply String.eqb_eq in Hx. now subst.
  - rewrite Hrun. reflexivity.
Defined.

Lemma X9_witness :
  exists df',
    snd (rename_columns (DemoApp.app ".csv" (inr DemoApp.df_two_missing))
           DemoApp.df_two_missing) = Returned df' /\
    snd (main Demo.to_datetime Demo.strftime df' (Demo.ui 0 200)) = Stopped.
Proof.
  destruct (X9_one_click_cannot_supply_two_columns DemoApp.File
              Demo.to_datetime Demo.strftime
              (DemoApp.app ".csv" (inr DemoApp.df_two_missing))
              DemoApp.df_two_missing (Demo.ui 0 200) "Time" "PV(W)")
    as (df' & Hrun & _ & _ & Hstop).
  - intros x y Hx Hy. cbn [clicked DemoApp.app] in Hx, Hy.
    apply String.eqb_eq in Hx, Hy. congruence.
  - cbn; tauto.
  - cbn; tauto.
  - discriminate.
  - reflexivity.
  - reflexivity.
  - exists df'. split; assumption.
Defined.

Lemma X10_witness :
  read_file DemoApp.read DemoApp.read ".txt" (inr Demo.df_raw) 0 0
  = ([page (st_error AppText.unsupported)], Stopped) /\
  snd (read_file DemoApp.read DemoApp.read ".csv" (inr Demo.df_raw) 0 (-1))
  = Returned Demo.df_raw.
Proof.
  split.
  - apply (proj2 (proj2 (X10_read_file_table_or_one_error DemoApp.File
                           DemoApp.read DemoApp.read ".txt"
                           (inr Demo.df_raw) 0 0))); discriminate.
  - apply (proj1 (X10_read_file_table_or_one_error DemoApp.File
                    DemoApp.read DemoApp.read ".csv"
                    (inr Demo.df_raw) 0 (-1))).
    left. split; reflexivity.
Defined.

Lemma X11_witness :
  In st_download_changelog
    (fst (seistrack_daily Demo.to_datetime Demo.strftime DemoApp.read
            DemoApp.read (DemoApp.app ".csv" (inr DemoApp.df_timestamp)))) /\
  ~ In st_download_changelog
      (fst (seistrack_daily Demo.to_datetime Demo.strftime DemoApp.read
              DemoApp.read (DemoApp.app ".csv" (inl "bad file"%string)))).
Proof.
  split.
  - apply (proj1 (X11_changelog_only_after_a_complete_run Demo.to_datetime
                    Demo.strftime DemoApp.File DemoApp.read DemoApp.read
                    (DemoApp.app ".csv" (inr DemoApp.df_timestamp)))).
    vm_compute. reflexivity.
  - intros Hin.
    apply (proj1 (X11_changelog_only_after_a_complete_run Demo.to_datetime
                    Demo.strftime DemoApp.File DemoApp.read DemoApp.read
                    (DemoApp.app ".csv" (inl "bad file"%string)))) in Hin.
    vm_compute in Hin. discriminate Hin.
Defined.

Lemma X12_witness :
  exists df',
    snd (rename_columns (DemoApp.app ".csv" (inr DemoApp.df_timestamp))
           DemoApp.df_timestamp) = Returned df' /\
    columns df' = ["Time"; "PV(W)"; "Meter(W)"; "Load(W)"]%string /\
    snd (main Demo.to_datetime Demo.strftime df' (Demo.ui 0 200)) <> Stopped.
Proof.
  destruct (X12_one_click_repairs_one_missing_column DemoApp.File
              Demo.to_datetime Demo.strftime
              (DemoApp.app ".csv" (inr DemoApp.df_timestamp))
              DemoApp.df_timestamp (Demo.ui 0 200) "Time")
    as (df' & Hrun & Hcols & _ & _ & Hgo).
  - cbn; tauto.
  - reflexivity.
  - intros x [<- | [<- | [<- | [<- | []]]]] Hne; try reflexivity.
    congruence.
  - discriminate.
  - reflexivity.
  - exists df'. split; [ exact Hrun | ].
    split; [ rewrite Hcols; reflexivity | ].
    intros Hstop. apply Hgo in Hstop. destruct Hstop as (e & He).
    discriminate He.
Defined.

Lemma X13_witness :
  snd (highlight_range DemoApp.ui_meter_hidden Demo.df_plot [] PV_W)
  = Returned [mkTrace "PV(W) Highlight" (map Time Demo.df_plot)
                (map PV Demo.df_plot)].
Proof.
  apply (X13_untouched_thresholds_highlight_every_record
           DemoApp.ui_meter_hidden Demo.df_plot [] PV_W).
  - reflexivity.
  - reflexivity.
  - discriminate.
  - repeat constructor.
  - exact I.
  - exact I.
Defined.
